(** * roblox-proxy-clustering: routing and cache-coalescing core

    A shallow embedding of the member handler (target selection, read-through
    cache with singleflight deduplication, response helpers), of the
    forwarder's header handling and of the shard-index helper, together with
    the properties the specification states about them.

    Conventions.
    - Go [string] and [[]byte] values are byte sequences; both are modelled by
      [string] (a list of 8-bit characters).
    - Go [int] is the 64-bit signed integer of the usual targets; integers are
      [Z] and every conversion that truncates is written out.
    - A Go [error] is modelled by its message.
    - A function that can panic returns an [Outcome]. *)

From Stdlib Require Import ZArith String Ascii List Lia Bool.
From stdpp Require Import base gmap strings list fin_maps.

Import ListNotations.
Local Open Scope string_scope.
Local Open Scope Z_scope.

(** ** Results of fallible code *)

Definition error := string.

Inductive Outcome (A : Type) : Type :=
| Val (a : A)            (* normal return, nil error *)
| Fail (e : error)       (* normal return, non-nil error *)
| Panic (msg : string).  (* run-time panic *)

Arguments Val {A} a.
Arguments Fail {A} e.
Arguments Panic {A} msg.

Definition byte_val (c : ascii) : Z := Z.of_N (N_of_ascii c).

(** ** internal/util/hash.go *)

Module Util.

(** hash/fnv, 32-bit FNV-1a: [hash ^= byte; hash *= prime32] on uint32. *)
Definition offset32 : Z := 2166136261.
Definition prime32 : Z := 16777619.

Definition uint32 (z : Z) : Z := z mod 2 ^ 32.

Fixpoint fnv_write (hash : Z) (data : string) : Z :=
  match data with
  | EmptyString => hash
  | String c rest => fnv_write (uint32 (Z.lxor hash (byte_val c) * prime32)) rest
  end.

Definition Sum32a (key : string) : Z := fnv_write offset32 key.

(** [ConsistentIndex]: the guard, then [int(h.Sum32() % uint32(buckets))].
    The conversion [uint32(buckets)] keeps the low 32 bits of the 64-bit
    [int]; the remainder by zero panics. *)
Definition ConsistentIndex (key : string) (buckets : Z) : Outcome Z :=
  if buckets <=? 0 then Val 0
  else
    let n := uint32 buckets in
    if n =? 0 then Panic "runtime error: integer divide by zero"
    else Val (Sum32a key mod n).

End Util.

(** ** Byte-string helpers (package strings) *)

Module Strings.

Definition slash : ascii := "/"%char.

(** [s[0]] when [s] is not empty. *)
Definition first_byte (s : string) : option ascii :=
  match s with
  | EmptyString => None
  | String c _ => Some c
  end.

(** [s[len(s)-1]] when [s] is not empty. *)
Fixpoint last_byte (s : string) : option ascii :=
  match s with
  | EmptyString => None
  | String c EmptyString => Some c
  | String _ rest => last_byte rest
  end.

(** [s[1:]]. *)
Definition tail (s : string) : string :=
  match s with
  | EmptyString => EmptyString
  | String _ rest => rest
  end.

(** [s[:n]]. *)
Fixpoint take (n : nat) (s : string) : string :=
  match n, s with
  | S n', String c rest => String c (take n' rest)
  | _, _ => EmptyString
  end.

(** [strings.Split(s, sep)] for a one-byte separator: never empty. *)
Fixpoint Split (s : string) (sep : ascii) : list string :=
  match s with
  | EmptyString => [EmptyString]
  | String c rest =>
      if Ascii.eqb c sep then EmptyString :: Split rest sep
      else match Split rest sep with
           | seg :: segs => String c seg :: segs
           | [] => [String c EmptyString]
           end
  end.

(** [strings.Join(elems, sep)]. *)
Fixpoint Join (elems : list string) (sep : string) : string :=
  match elems with
  | [] => EmptyString
  | [e] => e
  | e :: rest => e ++ sep ++ Join rest sep
  end.

(** [strings.LastIndexByte(s, c)]; [None] stands for -1. *)
Fixpoint LastIndexByte (s : string) (c : ascii) : option nat :=
  match s with
  | EmptyString => None
  | String d rest =>
      match LastIndexByte rest c with
      | Some i => Some (S i)
      | None => if Ascii.eqb d c then Some 0%nat else None
      end
  end.

(** [strings.ReplaceAll(s, old, new)] for a one-byte [old]. *)
Fixpoint ReplaceAll (s : string) (old : ascii) (new : string) : string :=
  match s with
  | EmptyString => EmptyString
  | String c rest =>
      if Ascii.eqb c old then new ++ ReplaceAll rest old new
      else String c (ReplaceAll rest old new)
  end.

Definition is_empty (s : string) : bool :=
  match s with
  | EmptyString => true
  | _ => false
  end.

End Strings.

(** ** net/url: the fragment of [URL] the handler uses

    [RawPath] and [RawFragment] are left out: the model covers URLs whose path
    is its own default encoding, for which [EscapedPath] followed by [setPath]
    gives the path back. *)

Module NetURL.
Import Strings.

Record URL : Type := mkURL {
  Scheme : string;
  Opaque : string;
  User : option string;
  Host : string;
  Path : string;
  ForceQuery : bool;
  RawQuery : string;
  Fragment : string
}.

(** One turn of the loop of [resolvePath] over a path element; the state is
    [dst] without the slash written first and the flag [first]. *)
Definition resolveStep (st : string * bool) (elem : string) : string * bool :=
  let '(dst, first) := st in
  if String.eqb elem "." then (dst, false)
  else if String.eqb elem ".." then
    match LastIndexByte dst slash with
    | None => (EmptyString, true)
    | Some index => (take index dst, first)
    end
  else ((if first then dst else dst ++ "/") ++ elem, false).

Definition resolvePath (base ref : string) : string :=
  let full :=
    match first_byte ref with
    | None => base
    | Some c =>
        if Ascii.eqb c slash then ref
        else match LastIndexByte base slash with
             | Some i => take (S i) base ++ ref
             | None => ref
             end
    end in
  if is_empty full then EmptyString
  else
    let elems := Split full slash in
    let '(dst, _) := fold_left resolveStep elems (EmptyString, true) in
    let last_elem := List.last elems EmptyString in
    let dst := if String.eqb last_elem "." || String.eqb last_elem ".."
               then dst ++ "/" else dst in
    match first_byte dst with
    | Some c => if Ascii.eqb c slash then dst else String slash dst
    | None => String slash dst
    end.

Definition with_path (u : URL) (p : string) : URL :=
  mkURL (Scheme u) (Opaque u) (User u) (Host u) p (ForceQuery u) (RawQuery u) (Fragment u).

(** [URL.ResolveReference], RFC 3986 section 5.2. *)
Definition ResolveReference (u ref : URL) : URL :=
  let scheme := if is_empty (Scheme ref) then Scheme u else Scheme ref in
  if negb (is_empty (Scheme ref)) || negb (is_empty (Host ref)) || bool_decide (User ref <> None)
  then mkURL scheme (Opaque ref) (User ref) (Host ref) (resolvePath (Path ref) "")
             (ForceQuery ref) (RawQuery ref) (Fragment ref)
  else if negb (is_empty (Opaque ref))
  then mkURL scheme (Opaque ref) None "" "" (ForceQuery ref) (RawQuery ref) (Fragment ref)
  else
    let inherit := is_empty (Path ref) && negb (ForceQuery ref) && is_empty (RawQuery ref) in
    let query := if inherit then RawQuery u else RawQuery ref in
    let fragment := if inherit && is_empty (Fragment ref) then Fragment u else Fragment ref in
    if is_empty (Path ref) && negb (is_empty (Opaque u))
    then mkURL scheme (Opaque u) None "" "" (ForceQuery ref) query fragment
    else mkURL scheme (Opaque ref) (User u) (Host u) (resolvePath (Path u) (Path ref))
               (ForceQuery ref) query fragment.

End NetURL.

(** ** internal/upstream *)

Module Upstream.
Import Strings NetURL.

(** pool.go *)
Record Target : Type := mkTarget { base : URL }.

Definition ensureLeadingSlash (path : string) : string :=
  match first_byte path with
  | None => "/"
  | Some c => if Ascii.eqb c slash then path else String slash path
  end.

Definition joinURLPath (basePath reqPath : string) : string :=
  if is_empty basePath then
    if is_empty reqPath then "/" else ensureLeadingSlash reqPath
  else if is_empty reqPath then ensureLeadingSlash basePath
  else
    let b := ensureLeadingSlash basePath in
    let r := ensureLeadingSlash reqPath in
    match last_byte b with
    | Some c => if Ascii.eqb c slash then b ++ tail r else b ++ r
    | None => b ++ r
    end.

(** [Target.Resolve]: the base URL with the joined path and the query. *)
Definition Resolve (t : Target) (path rawQuery : string) : URL :=
  let u := base t in
  mkURL (Scheme u) (Opaque u) (User u) (Host u) (joinURLPath (Path u) path)
        (ForceQuery u) rawQuery (Fragment u).

(** member targets *)
Inductive MemberTargetKind : Type :=
| MemberTargetUnknown
| MemberTargetDirect
| MemberTargetStatic.

Record MemberTarget : Type := mkMemberTarget {
  Kind : MemberTargetKind;
  Base : option URL   (* a nil pointer is [None] *)
}.

End Upstream.

(** ** net/http: headers, requests, responses *)

Module HTTP.
Import Strings NetURL.

(** [http.Header]: canonical key to the list of its values. *)
Abbreviation Header := (gmap string (list string)).

Definition in_range (lo hi : ascii) (c : ascii) : bool :=
  (N_of_ascii lo <=? N_of_ascii c)%N && (N_of_ascii c <=? N_of_ascii hi)%N.

Definition is_lower (c : ascii) : bool := in_range "a" "z" c.
Definition is_upper (c : ascii) : bool := in_range "A" "Z" c.
Definition is_digit (c : ascii) : bool := in_range "0" "9" c.

Definition to_upper (c : ascii) : ascii := ascii_of_N (N_of_ascii c - 32).
Definition to_lower (c : ascii) : ascii := ascii_of_N (N_of_ascii c + 32).

Fixpoint mem_byte (c : ascii) (s : string) : bool :=
  match s with
  | EmptyString => false
  | String d rest => Ascii.eqb c d || mem_byte c rest
  end.

(** textproto: the token bytes of RFC 7230. *)
Definition validHeaderFieldByte (c : ascii) : bool :=
  is_digit c || is_lower c || is_upper c || mem_byte c "!#$%&'*+-.^_`|~".

Fixpoint all_bytes (P : ascii -> bool) (s : string) : bool :=
  match s with
  | EmptyString => true
  | String c rest => P c && all_bytes P rest
  end.

(** The casing loop of [canonicalMIMEHeaderKey]: upper case at the start
    and after each dash, lower case elsewhere. *)
Definition adjust (upper : bool) (c : ascii) : ascii :=
  if upper && is_lower c then to_upper c
  else if negb upper && is_upper c then to_lower c
  else c.

Fixpoint canonCase (upper : bool) (s : string) : string :=
  match s with
  | EmptyString => EmptyString
  | String c rest =>
      let c' := adjust upper c in
      String c' (canonCase (Ascii.eqb c' "-") rest)
  end.

(** [textproto.CanonicalMIMEHeaderKey]: a key holding a byte that is not a
    token byte is returned unchanged. *)
Definition CanonicalMIMEHeaderKey (s : string) : string :=
  if all_bytes validHeaderFieldByte s then canonCase true s else s.

Definition Add (h : Header) (key value : string) : Header :=
  let k := CanonicalMIMEHeaderKey key in
  <[k := (default [] (h !! k) ++ [value])%list]> h.

Definition Set_ (h : Header) (key value : string) : Header :=
  <[CanonicalMIMEHeaderKey key := [value]]> h.

Definition Get (h : Header) (key : string) : string :=
  match h !! CanonicalMIMEHeaderKey key with
  | Some (v :: _) => v
  | _ => EmptyString
  end.

Definition Del (h : Header) (key : string) : Header :=
  delete (CanonicalMIMEHeaderKey key) h.

(** The header map holds [name] under some spelling: a key with the
    canonical form of [name]. *)
Definition appears (h : Header) (name : string) : Prop :=
  exists k, is_Some (h !! k) /\ CanonicalMIMEHeaderKey k = CanonicalMIMEHeaderKey name.

(** Every key is in canonical form, as in a map filled through [Add] and
    [Set] only. *)
Definition canonicalKeys (h : Header) : Prop :=
  forall k, is_Some (h !! k) -> CanonicalMIMEHeaderKey k = k.

(** [context.Context] values the code builds. *)
Inductive Ctx : Type :=
| Background
| RequestContext (req : nat)   (* the context of the inbound request [req] *)
| WithTimeout (parent : Ctx) (timeout : Z).

Record Request : Type := mkRequest {
  Method : string;
  URL_ : URL;
  Query : gmap string (list string);   (* [r.URL.Query()] *)
  ReqHeader : Header;
  ReqBody : option string;
  ContentLength : Z;
  TransferEncoding : list string;
  Trailer : Header;
  ReqHost : string;
  RemoteAddr : string;
  TLS : bool;                           (* [r.TLS != nil] *)
  ReqContext : Ctx   (* [r.Context()] *)
}.

Record Response : Type := mkResponse {
  Status : string;
  StatusCode : Z;
  RespHeader : Header;
  RespBody : option string
}.

(** [http.ResponseWriter]: the header map, the status line once written
    (with the headers as they were at that moment) and the body so far. *)
Record ResponseWriter : Type := mkWriter {
  wHeader : Header;
  wSent : option (Z * Header);
  wBody : string
}.

Definition newWriter : ResponseWriter := mkWriter ∅ None EmptyString.

(** The status code written, if any. *)
Definition statusOf (w : ResponseWriter) : option Z :=
  match wSent w with
  | Some (code, _) => Some code
  | None => None
  end.

Definition HeaderSet (w : ResponseWriter) (key value : string) : ResponseWriter :=
  mkWriter (Set_ (wHeader w) key value) (wSent w) (wBody w).

Definition WriteHeader (w : ResponseWriter) (code : Z) : ResponseWriter :=
  match wSent w with
  | Some _ => w
  | None => mkWriter (wHeader w) (Some (code, wHeader w)) (wBody w)
  end.

Definition Write (w : ResponseWriter) (data : string) : ResponseWriter :=
  let w' := WriteHeader w 200 in
  mkWriter (wHeader w') (wSent w') (wBody w' ++ data).

(** [url.Values.Get]: the first value of the key, or the empty string. *)
Definition ValuesGet (q : gmap string (list string)) (key : string) : string :=
  match q !! key with
  | Some (v :: _) => v
  | _ => EmptyString
  end.

End HTTP.

(** ** Programs over the external collaborators

    The handler talks to the cache store, the fetch closures, the clock, the
    logger and the HTTP client.  A program is a tree of such calls; the
    singleflight group and goroutine spawning are nodes of their own, so that
    one program text has a sequential and an interleaved reading. *)

Module Effects.
Import NetURL HTTP.

(** internal/cache/cache.go *)
Record Entry : Type := mkEntry {
  Payload : string;
  StoredAt : Z
}.

(** The closures the handler passes as [fetch]. *)
Inductive FetchFn : Type :=
| fetchUserPayload (userID : string)
| fetchSearchPayload (query : string)
| fetchAvatarPayload (userID : string).

Inductive Level : Type := LDebug | LInfo | LWarn | LError.

(** A pair [([]byte, error)]. *)
Definition Result : Type := string * option error.

Inductive Call : Type -> Type :=
| CacheGet (ctx : Ctx) (key : string) : Call (Entry * bool * option error)
| CacheSet (ctx : Ctx) (key payload : string) (ttl : Z) : Call (option error)
| Fetch (fetch : FetchFn) (ctx : Ctx) : Call Result
| Since (t : Z) : Call Z
| Log (level : Level) (msg : string) (attrs : list (string * string)) : Call unit
| ClientDo (req : Request) : Call (Response + error)
| CopyBuffer (src : string) : Call (string * option error).

Inductive Prog (R : Type) : Type :=
| Ret (r : R)
| Vis {X : Type} (c : Call X) (k : X -> Prog R)
| Do (key : string) (fn : Prog Result) (k : Result -> Prog R)
| Go (task : Prog unit) (k : Prog R)
| Crash (msg : string).

Arguments Ret {R} r.
Arguments Vis {R X} c k.
Arguments Do {R} key fn k.
Arguments Go {R} task k.
Arguments Crash {R} msg.

Fixpoint bind {A B : Type} (m : Prog A) (f : A -> Prog B) : Prog B :=
  match m with
  | Ret r => f r
  | Vis c k => Vis c (fun x => bind (k x) f)
  | Do key fn k => Do key fn (fun x => bind (k x) f)
  | Go task k => Go task (bind k f)
  | Crash msg => Crash msg
  end.

Definition call {X : Type} (c : Call X) : Prog X := Vis c Ret.

End Effects.

Notation "'let*' x ':=' m 'in' k" := (Effects.bind m (fun x => k))
  (at level 10, x name, m at level 200, k at level 200, only parsing).

(** ** Library functions taken as parameters

    [http.NewRequestWithContext], [net.SplitHostPort], [URL.String] and
    [strings.ToLower] are not part of the repository; the code that calls
    them is modelled over any implementation. *)

Record Lib : Type := mkLib {
  NewRequestWithContext :
    HTTP.Ctx -> string -> NetURL.URL -> option string -> Outcome HTTP.Request;
  SplitHostPort : string -> option (string * string);
  URLString : NetURL.URL -> string;
  ToLower : string -> string
}.

(** ** internal/proxy: the forwarder *)

Module Proxy.
Import Strings NetURL HTTP Effects.

Record Forwarder : Type := mkForwarder {
  Client : bool;          (* [f.Client != nil] *)
  RequestTimeout : Z
}.

Definition hopHeaders : list string :=
  [ "Connection"; "Proxy-Connection"; "Keep-Alive"; "Proxy-Authenticate";
    "Proxy-Authorization"; "Te"; "Trailer"; "Transfer-Encoding"; "Upgrade" ].

(** [for k, vv := range src { for _, v := range vv { dst.Add(k, v) } }];
    the order in which Go visits the keys is unspecified, the fold fixes
    one. *)
Definition copyHeaders (dst src : Header) : Header :=
  map_fold (fun k vv d => fold_left (fun d' v => Add d' k v) vv d) dst src.

(** [for _, h := range hopHeaders { header.Del(h) }] *)
Definition delHopHeaders (header : Header) : Header :=
  fold_left Del hopHeaders header.

Definition cloneHeader (src : Header) : Header :=
  if decide (src = ∅) then ∅ else src.

Definition schemeFromRequest (r : Request) : string :=
  if TLS r then "https"
  else
    let scheme := Get (ReqHeader r) "X-Forwarded-Proto" in
    if negb (is_empty scheme) then scheme
    else if negb (is_empty (Scheme (URL_ r))) then Scheme (URL_ r)
    else "http".

Section WithLib.
Variable lib : Lib.

Definition setForwardedHeaders (header : Header) (r : Request) : Header :=
  let clientIP :=
    match SplitHostPort lib (RemoteAddr r) with
    | Some (host, _) => host
    | None => RemoteAddr r
    end in
  let header :=
    if negb (is_empty clientIP) then
      let prior := Get header "X-Forwarded-For" in
      if is_empty prior then Set_ header "X-Forwarded-For" clientIP
      else Set_ header "X-Forwarded-For" (Join [prior; clientIP] ", ")
    else header in
  let header :=
    if is_empty (Get (ReqHeader r) "X-Forwarded-Proto")
    then Set_ header "X-Forwarded-Proto" (schemeFromRequest r)
    else header in
  Set_ header "X-Forwarded-Host" (ReqHost r).

Definition cloneRequestWithURL (ctx : Ctx) (r : Request) (target : URL)
  : Outcome Request :=
  match NewRequestWithContext lib ctx (Method r) target (ReqBody r) with
  | Fail e => Fail e
  | Panic msg => Panic msg
  | Val upstreamReq =>
      let header := copyHeaders (ReqHeader upstreamReq) (ReqHeader r) in
      let header := delHopHeaders header in
      let header := setForwardedHeaders header r in
      Val (mkRequest (Method upstreamReq) (URL_ upstreamReq) (Query upstreamReq)
             header (ReqBody upstreamReq)
             (ContentLength r) (TransferEncoding r) (cloneHeader (Trailer r))
             (Host target)
             (RemoteAddr upstreamReq) (TLS upstreamReq) (ReqContext upstreamReq))
  end.

(** [Forwarder.Do]: the writer after the call and the returned error. *)
Definition Do (f : Forwarder) (w : ResponseWriter) (r : Request) (target : URL)
  : Prog (ResponseWriter * option error) :=
  if negb (Client f) then Ret (w, Some "forwarder client is nil")
  else
    let* _ := call (Log LInfo "forwarding request"
                      [("method", Method r); ("url", URLString lib (URL_ r));
                       ("target", URLString lib target)]) in
    let ctx := WithTimeout (ReqContext r) (RequestTimeout f) in
    match cloneRequestWithURL ctx r target with
    | Fail e => Ret (w, Some e)
    | Panic msg => Crash msg
    | Val upstreamReq =>
        let* res := call (ClientDo upstreamReq) in
        match res with
        | inr e => Ret (w, Some e)
        | inl reqResp =>
            let w := mkWriter
                       (delHopHeaders (copyHeaders (wHeader w) (RespHeader reqResp)))
                       (wSent w) (wBody w) in
            let w := WriteHeader w (StatusCode reqResp) in
            match RespBody reqResp with
            | None => Ret (w, None)
            | Some body =>
                let* cp := call (CopyBuffer body) in
                Ret (Write w (fst cp), snd cp)
            end
        end
    end.

End WithLib.

End Proxy.

(** ** strings.TrimSpace

    White space is what [unicode.IsSpace] accepts; a rune is recognised by
    its UTF-8 encoding, at the front for the left side and at the back for
    the right side, as [DecodeRune] and [DecodeLastRune] do. *)

Module Trim.
Import Strings.

Definition bytes (l : list N) : string :=
  fold_right (fun n s => String (ascii_of_N n) s) EmptyString l.

Definition spaceRunes : list string :=
  map bytes
    [ [9]; [10]; [11]; [12]; [13]; [32];
      [0xC2; 0x85]; [0xC2; 0xA0]; [0xE1; 0x9A; 0x80];
      [0xE2; 0x80; 0x80]; [0xE2; 0x80; 0x81]; [0xE2; 0x80; 0x82];
      [0xE2; 0x80; 0x83]; [0xE2; 0x80; 0x84]; [0xE2; 0x80; 0x85];
      [0xE2; 0x80; 0x86]; [0xE2; 0x80; 0x87]; [0xE2; 0x80; 0x88];
      [0xE2; 0x80; 0x89]; [0xE2; 0x80; 0x8A]; [0xE2; 0x80; 0xA8];
      [0xE2; 0x80; 0xA9]; [0xE2; 0x80; 0xAF]; [0xE2; 0x81; 0x9F];
      [0xE3; 0x80; 0x80] ]%N.

Fixpoint rev_onto (s acc : string) : string :=
  match s with
  | EmptyString => acc
  | String c rest => rev_onto rest (String c acc)
  end.

Definition rev (s : string) : string := rev_onto s EmptyString.

Fixpoint strip_prefix (p s : string) : option string :=
  match p, s with
  | EmptyString, _ => Some s
  | String a p', String b s' => if Ascii.eqb a b then strip_prefix p' s' else None
  | String _ _, EmptyString => None
  end.

Fixpoint strip_any (ps : list string) (s : string) : option string :=
  match ps with
  | [] => None
  | p :: ps' =>
      match strip_prefix p s with
      | Some rest => Some rest
      | None => strip_any ps' s
      end
  end.

Fixpoint trim_front (runes : list string) (fuel : nat) (s : string) : string :=
  match fuel with
  | O => s
  | S fuel' =>
      match strip_any runes s with
      | Some rest => trim_front runes fuel' rest
      | None => s
      end
  end.

Definition TrimLeftSpace (s : string) : string :=
  trim_front spaceRunes (String.length s) s.

Definition TrimRightSpace (s : string) : string :=
  rev (trim_front (map rev spaceRunes) (String.length s) (rev s)).

Definition TrimSpace (s : string) : string :=
  TrimRightSpace (TrimLeftSpace s).

End Trim.

(** ** internal/server/member: the routing handler *)

Module Member.
Import Strings NetURL HTTP Effects Upstream.

(** Modelled from the spec: [config.Config], whose package is not among the
    sources; the fields the handler reads are the cache TTL, the stale-after
    threshold that governs background refresh and the per-call timeout.
    Durations are in nanoseconds. *)
Record Config : Type := mkConfig {
  CacheTTL : Z;
  BackgroundRefreshAfter : Z;
  RequestTimeout : Z
}.

Record Handler : Type := mkHandler {
  cfg : Config;
  forwarder : Proxy.Forwarder;
  targets : list MemberTarget
}.

Definition corsAllowOrigin : string := "*".
Definition headerAccessControlAllowOrigin : string := "Access-Control-Allow-Origin".
Definition headerContentType : string := "Content-Type".
Definition contentTypeJSON : string := "application/json".

Definition errBadPath : error := "unable to determine Roblox upstream from path".
Definition errNoUpstreamTarget : error := "no upstream target available".

Definition StatusOK : Z := 200.
Definition StatusBadRequest : Z := 400.
Definition StatusInternalServerError : Z := 500.
Definition StatusBadGateway : Z := 502.

(** The double quote character and a quoted literal. *)
Definition dquote : ascii := ascii_of_N 34.
Definition quoted (s : string) : string := String dquote (s ++ String dquote EmptyString).

(** *** Helpers *)

Definition sanitizeError (err : option error) : string :=
  match err with
  | None => EmptyString
  | Some msg => ReplaceAll msg dquote "'"
  end.

(** [for _, ch := range v]: a byte outside ['0'..'9'] makes its rune fall
    outside that range too, so the test is on bytes. *)
Definition isNumeric (v : string) : bool :=
  if is_empty v then false else all_bytes is_digit v.

Definition userCacheKey (userID : string) : string := "roblox:user:" ++ userID.
Definition searchCacheKey (query : string) : string := "roblox:search:" ++ query.
Definition avatarCacheKey (userID : string) : string := "roblox:avatar:" ++ userID.

Definition resolveRobloxTarget (path : string) : Outcome (string * string) :=
  let segments := Split path slash in
  if (length segments <? 2)%nat || is_empty (nth 1 segments EmptyString)
  then Fail errBadPath
  else
    let domain := nth 1 segments EmptyString in
    let remaining := Join (skipn 2 segments) "/" in
    let remaining := if is_empty remaining then "/" else "/" ++ remaining in
    Val (domain ++ ".roblox.com", remaining).

(** *** Responses *)

Definition respondJSON (w : ResponseWriter) (status : Z) (payload : string)
  : ResponseWriter :=
  let w := HeaderSet w headerContentType contentTypeJSON in
  let w := HeaderSet w headerAccessControlAllowOrigin corsAllowOrigin in
  let w := WriteHeader w status in
  Write w payload.

Definition respondCachedJSON (w : ResponseWriter) (payload : string) : ResponseWriter :=
  let w := HeaderSet w headerContentType contentTypeJSON in
  let w := HeaderSet w headerAccessControlAllowOrigin corsAllowOrigin in
  let w := HeaderSet w "Cache-Control" "max-age=18000" in
  let w := WriteHeader w StatusOK in
  Write w payload.

(** [fmt.Sprintf(`{"error":"%s"}`, s)]: the text before the verb, the
    argument, the text after it. *)
Definition errorBody (s : string) : string :=
  ("{" ++ quoted "error" ++ ":" ++ String dquote EmptyString)
    ++ s ++ String dquote "}".

Definition respondError (w : ResponseWriter) (status : Z) (err : option error)
  : ResponseWriter :=
  let msg := errorBody (sanitizeError err) in
  respondJSON w status msg.

(** *** Target selection *)

Definition routingKey (path rawQuery : string) : string :=
  if is_empty rawQuery then path else path ++ "?" ++ rawQuery.

(** The [switch target.Kind] of [chooseTarget]. *)
Definition targetURL (target : MemberTarget) (path rawQuery : string) : Outcome URL :=
  match Kind target with
  | MemberTargetDirect =>
      match resolveRobloxTarget path with
      | Val (host, rewritten) => Val (mkURL "https" "" None host rewritten false rawQuery "")
      | Fail e => Fail e
      | Panic msg => Panic msg
      end
  | MemberTargetStatic =>
      let rel := mkURL "" "" None "" path false rawQuery "" in
      match Base target with
      | Some base => Val (ResolveReference base rel)
      | None => Panic "invalid memory address or nil pointer dereference"
      end
  | MemberTargetUnknown => Fail errNoUpstreamTarget
  end.

(** [idx := util.ConsistentIndex(key, len(h.targets))] *)
Definition selectIndex (h : Handler) (path rawQuery : string) : Outcome Z :=
  let key := routingKey path rawQuery in
  Util.ConsistentIndex key (Z.of_nat (length (targets h))).

Definition chooseTarget (h : Handler) (path rawQuery : string) : Outcome URL :=
  if (length (targets h) =? 0)%nat then Fail errNoUpstreamTarget
  else
    match selectIndex h path rawQuery with
    | Val idx =>
        match targets h !! Z.to_nat idx with
        | Some target => targetURL target path rawQuery
        | None => Panic "index out of range"
        end
    | Fail e => Fail e
    | Panic msg => Panic msg
    end.

Definition pickTargetURL (h : Handler) (r : Request) : Outcome URL :=
  chooseTarget h (Path (URL_ r)) (RawQuery (URL_ r)).

(** *** The coalescing cache engine *)

Definition second : Z := 1000000000.

Definition storeWithTTL (h : Handler) (key payload : string) : Prog (option error) :=
  let ctx := WithTimeout Background (2 * second) in
  call (CacheSet ctx key payload (CacheTTL (cfg h))).

(** The closure handed to [sgroup.Do], in [readThroughCache] and in
    [launchRefresh]; they differ by the log message. *)
Definition fetchAndStore (h : Handler) (ctx : Ctx) (key : string) (fetch : FetchFn)
    (warning : string) : Prog Result :=
  let* r := call (Fetch fetch ctx) in
  match snd r with
  | Some err => Ret (EmptyString, Some err)
  | None =>
      let payload := fst r in
      let* serr := storeWithTTL h key payload in
      match serr with
      | Some err =>
          let* _ := call (Log LWarn warning [("key", key); ("error", err)]) in
          Ret (payload, None)
      | None => Ret (payload, None)
      end
  end.

(** The body of the goroutine of [launchRefresh]. *)
Definition refreshTask (h : Handler) (key : string) (fetch : FetchFn) : Prog unit :=
  let ctx := WithTimeout Background (RequestTimeout (cfg h)) in
  Do (key ++ ":refresh")
     (fetchAndStore h ctx key fetch "refresh cache store failed")
     (fun res =>
        match snd res with
        | Some err =>
            call (Log LDebug "background refresh failed" [("key", key); ("error", err)])
        | None => Ret tt
        end).

Definition launchRefresh (h : Handler) (key : string) (fetch : FetchFn) : Prog unit :=
  Go (refreshTask h key fetch) (Ret tt).

(** The miss path of [readThroughCache]: [res, err, _ := h.sgroup.Do(...)]
    and the two returns after it. *)
Definition afterFlight (res : Result) : Prog Result :=
  match snd res with
  | Some e => Ret (EmptyString, Some e)
  | None => Ret (fst res, None)
  end.

Definition coalescedFetch (h : Handler) (ctx : Ctx) (key : string) (fetch : FetchFn)
  : Prog Result :=
  Do key (fetchAndStore h ctx key fetch "cache store failed") afterFlight.

Definition readThroughCache (h : Handler) (ctx : Ctx) (key : string) (fetch : FetchFn)
  : Prog Result :=
  let* got := call (CacheGet ctx key) in
  let '(entry, ok, err) := got in
  match err with
  | Some e => Ret (EmptyString, Some e)
  | None =>
      if ok then
        let* age := call (Since (StoredAt entry)) in
        if age >? BackgroundRefreshAfter (cfg h) then
          let* _ := launchRefresh h key fetch in
          Ret (Payload entry, None)
        else Ret (Payload entry, None)
      else coalescedFetch h ctx key fetch
  end.

(** *** Request handlers *)

Definition invalidUserIdBody : string :=
  "{" ++ quoted "error" ++ ":" ++ quoted "Invalid or missing userId" ++ "}".

Definition handleUserLookup (h : Handler) (w : ResponseWriter) (r : Request)
    (userID : string) : Prog ResponseWriter :=
  if negb (isNumeric userID) then Ret (respondJSON w StatusBadRequest invalidUserIdBody)
  else
    let ctx := WithTimeout (ReqContext r) (RequestTimeout (cfg h)) in
    let* res := readThroughCache h ctx (userCacheKey userID) (fetchUserPayload userID) in
    match snd res with
    | Some err =>
        let* _ := call (Log LError "user lookup failed" [("userId", userID); ("error", err)]) in
        Ret (respondError w StatusInternalServerError (Some err))
    | None => Ret (respondCachedJSON w (fst res))
    end.

Section WithLib.
Variable lib : Lib.

Definition handleSearch (h : Handler) (w : ResponseWriter) (r : Request)
    (search : string) : Prog ResponseWriter :=
  let needle := Trim.TrimSpace search in
  if (String.length needle <? 3)%nat then Ret (respondJSON w StatusBadRequest "[]")
  else
    let ctx := WithTimeout (ReqContext r) (RequestTimeout (cfg h)) in
    let key := searchCacheKey (ToLower lib needle) in
    let* res := readThroughCache h ctx key (fetchSearchPayload needle) in
    match snd res with
    | Some err =>
        let* _ := call (Log LError "search failed" [("query", needle); ("error", err)]) in
        Ret (respondError w StatusInternalServerError (Some err))
    | None => Ret (respondCachedJSON w (fst res))
    end.

Definition handleProxy (h : Handler) (w : ResponseWriter) (r : Request)
  : Prog ResponseWriter :=
  match pickTargetURL h r with
  | Fail err => Ret (respondError w StatusBadGateway (Some err))
  | Panic msg => Crash msg
  | Val target =>
      let* done := Proxy.Do lib (forwarder h) w r target in
      match snd done with
      | Some err =>
          let* _ := call (Log LError "proxy request failed"
                            [("path", Path (URL_ r)); ("error", err)]) in
          Ret (respondError (fst done) StatusBadGateway (Some err))
      | None => Ret (fst done)
      end
  end.

Definition ServeHTTP (h : Handler) (w : ResponseWriter) (r : Request)
  : Prog ResponseWriter :=
  let q := Query r in
  let userID := Trim.TrimSpace (ValuesGet q "userId") in
  if negb (is_empty userID) then handleUserLookup h w r userID
  else
    let search := Trim.TrimSpace (ValuesGet q "search") in
    if negb (is_empty search) then handleSearch h w r search
    else handleProxy h w r.

End WithLib.

End Member.

(** ** Sequential reading of a program

    One goroutine runs alone: [sgroup.Do] finds no call in flight and runs
    the closure itself; a spawned goroutine is recorded, not run. *)

Module Seq.
Import HTTP Effects.

Inductive Event : Type :=
| EvCall {X : Type} (c : Call X) (x : X)   (* an external call and its answer *)
| EvFlight (key : string)                  (* [sgroup.Do] entered as leader *)
| EvSpawn (task : Prog unit).              (* a [go] statement *)

(** The collaborators: every call is answered from a world state. *)
Definition Env (W : Type) : Type := forall X : Type, Call X -> W -> X * W.

Definition is_fetch_call {X : Type} (c : Call X) : bool :=
  match c with
  | Fetch _ _ => true
  | _ => false
  end.

Definition is_fetch (ev : Event) : bool :=
  match ev with
  | EvCall c _ => is_fetch_call c
  | _ => false
  end.

Definition is_set (ev : Event) : bool :=
  match ev with
  | EvCall c _ => match c with CacheSet _ _ _ _ => true | _ => false end
  | _ => false
  end.

Definition is_spawn (ev : Event) : bool :=
  match ev with
  | EvSpawn _ => true
  | _ => false
  end.

Definition is_flight (ev : Event) : bool :=
  match ev with
  | EvFlight _ => true
  | _ => false
  end.

(** The key under which a program enters the singleflight group first. *)
Definition flightKey {R : Type} (p : Prog R) : option string :=
  match p with
  | Do key _ _ => Some key
  | _ => None
  end.

Section Run.
Context {W : Type} (env : Env W).

(** Result ([None] after a panic), final world, events in order. *)
Fixpoint run {R : Type} (p : Prog R) (w : W) : option R * W * list Event :=
  match p with
  | Ret r => (Some r, w, [])
  | Vis c k =>
      let '(x, w1) := env _ c w in
      let '(r, w2, t) := run (k x) w1 in
      (r, w2, EvCall c x :: t)
  | Do key fn k =>
      let '(res, w1, t1) := run fn w in
      match res with
      | Some v =>
          let '(r, w2, t2) := run (k v) w1 in
          (r, w2, EvFlight key :: t1 ++ t2)
      | None => (None, w1, EvFlight key :: t1)
      end
  | Go task k =>
      let '(r, w1, t) := run k w in
      (r, w1, EvSpawn task :: t)
  | Crash _ => (None, w, [])
  end.

End Run.

End Seq.

(** ** An in-memory world

    A store that keeps entries in a map and stamps them with the clock, a
    fetch closure that answers from a script, and switches that make the
    store fail.  It serves to run the programs on concrete inputs. *)

Module Mem.
Import HTTP Effects.

Record World : Type := mkWorld {
  store : gmap string Entry;
  clock : Z;
  script : list Result;       (* answers of the fetch closures, in call order *)
  getError : option error;    (* the store read fails with this error *)
  setError : option error;    (* the store write fails with this error *)
  upstream : Response + error (* the answer of the HTTP client *)
}.

Definition zeroEntry : Entry := mkEntry EmptyString 0.

Definition env : Seq.Env World :=
  fun X c =>
    match c in Call T return World -> T * World with
    | CacheGet _ key => fun w =>
        match getError w with
        | Some e => ((zeroEntry, false, Some e), w)
        | None =>
            match store w !! key with
            | Some entry => ((entry, true, None), w)
            | None => ((zeroEntry, false, None), w)
            end
        end
    | CacheSet _ key payload _ => fun w =>
        match setError w with
        | Some e => (Some e, w)
        | None =>
            (None, mkWorld (<[key := mkEntry payload (clock w)]> (store w)) (clock w)
                     (script w) (getError w) (setError w) (upstream w))
        end
    | Fetch _ _ => fun w =>
        match script w with
        | r :: rest =>
            (r, mkWorld (store w) (clock w) rest (getError w) (setError w) (upstream w))
        | [] => ((EmptyString, Some "fetch: script exhausted"), w)
        end
    | Since t => fun w => (clock w - t, w)
    | Log _ _ _ => fun w => (tt, w)
    | ClientDo _ => fun w => (upstream w, w)
    | CopyBuffer src => fun w => ((src, None), w)
    end.

Definition empty (answers : list Result) : World :=
  mkWorld ∅ 0 answers None None (inr "no upstream").

(** Stand-ins for the library functions: a request constructor that
    accepts every method, an address splitter that always fails, a plain
    rendering of URLs and the identity for lower-casing. *)
Definition lib : Lib :=
  mkLib
    (fun ctx method u body =>
       Val (mkRequest method u ∅ ∅ body 0 [] ∅ (NetURL.Host u) EmptyString false ctx))
    (fun _ => None)
    (fun u => NetURL.Scheme u ++ "://" ++ NetURL.Host u ++ NetURL.Path u)%string
    (fun s => s).

End Mem.

(** ** Interleaved reading: goroutines and the singleflight group

    A pool of goroutines shares the world and the map of calls in flight of
    the [singleflight.Group] (golang.org/x/sync, not part of the
    repository, modelled after its contract).  A goroutine at [sgroup.Do]
    becomes the leader when its key is not in the map and runs the closure;
    otherwise it waits.  When the leader's closure returns, the key leaves
    the map and every waiter on it resumes with the leader's result, in one
    step (the group does both under its mutex).  Every external call is one
    step.  A closure that itself enters the group is outside the model: such
    a goroutine does not move. *)

Module Conc.
Import HTTP Effects.

Inductive TState (R : Type) : Type :=
| SRun (p : Prog R)
| SLead (key : string) (fn : Prog Result) (k : Result -> Prog R)
| SWait (key : string) (k : Result -> Prog R).

Arguments SRun {R} p.
Arguments SLead {R} key fn k.
Arguments SWait {R} key k.

(** Goroutines serving a [readThroughCache] caller, and background tasks. *)
Inductive Thread : Type :=
| Caller (s : TState Result)
| Task (s : TState unit).

Inductive Act (W : Type) : Type :=
| ANone
| ALocal (t : Thread) (w : W) (ev : Seq.Event)
| ASpawn (t : Thread) (task : Prog unit)
| AEnter (key : string) (lead wait : Thread)
| ADone (key : string) (res : Result) (t : Thread).

Arguments ANone {W}.
Arguments ALocal {W} t w ev.
Arguments ASpawn {W} t task.
Arguments AEnter {W} key lead wait.
Arguments ADone {W} key res t.

Record Pool (W : Type) : Type := mkPool {
  threads : list Thread;
  world : W;
  inflight : gset string;
  log : list (nat * Seq.Event)
}.

Arguments mkPool {W} threads world inflight log.
Arguments threads {W} p.
Arguments world {W} p.
Arguments inflight {W} p.
Arguments log {W} p.

Section Step.
Context {W : Type} (env : Seq.Env W).

(** What a goroutine in state [s] does next. *)
Definition action {R : Type} (inj : TState R -> Thread) (s : TState R) (w : W) : Act W :=
  match s with
  | SRun p =>
      match p with
      | Ret _ => ANone
      | Crash _ => ANone
      | Vis c k =>
          let '(x, w1) := env _ c w in ALocal (inj (SRun (k x))) w1 (Seq.EvCall c x)
      | Do key fn k => AEnter key (inj (SLead key fn k)) (inj (SWait key k))
      | Go task k => ASpawn (inj (SRun k)) task
      end
  | SLead key fn k =>
      match fn with
      | Ret res => ADone key res (inj (SRun (k res)))
      | Vis c kk =>
          let '(x, w1) := env _ c w in ALocal (inj (SLead key (kk x) k)) w1 (Seq.EvCall c x)
      | Go task kk => ASpawn (inj (SLead key kk k)) task
      | Do _ _ _ => ANone
      | Crash _ => ANone
      end
  | SWait _ _ => ANone
  end.

Definition thread_action (t : Thread) (w : W) : Act W :=
  match t with
  | Caller s => action Caller s w
  | Task s => action Task s w
  end.

Definition wake_state {R : Type} (key : string) (res : Result) (s : TState R) : TState R :=
  match s with
  | SWait key' k => if decide (key' = key) then SRun (k res) else s
  | _ => s
  end.

(** A waiter on [key] resumes with [res]. *)
Definition wake (key : string) (res : Result) (t : Thread) : Thread :=
  match t with
  | Caller s => Caller (wake_state key res s)
  | Task s => Task (wake_state key res s)
  end.

(** Goroutine [i] takes one step; a goroutine that cannot move leaves the
    pool as it is. *)
Definition step (i : nat) (σ : Pool W) : Pool W :=
  match threads σ !! i with
  | None => σ
  | Some t =>
      match thread_action t (world σ) with
      | ANone => σ
      | ALocal t' w' ev =>
          mkPool (<[i := t']> (threads σ)) w' (inflight σ) (log σ ++ [(i, ev)])
      | ASpawn t' task =>
          mkPool (<[i := t']> (threads σ) ++ [Task (SRun task)]) (world σ) (inflight σ)
                 (log σ ++ [(i, Seq.EvSpawn task)])
      | AEnter key lead wait =>
          if decide (key ∈ inflight σ)
          then mkPool (<[i := wait]> (threads σ)) (world σ) (inflight σ) (log σ)
          else mkPool (<[i := lead]> (threads σ)) (world σ) ({[key]} ∪ inflight σ)
                      (log σ ++ [(i, Seq.EvFlight key)])
      | ADone key res t' =>
          mkPool (wake key res <$> <[i := t']> (threads σ)) (world σ)
                 (inflight σ ∖ {[key]}) (log σ)
      end
  end.

(** A schedule names the goroutine that moves at each step. *)
Definition exec (sched : list nat) (σ : Pool W) : Pool W :=
  fold_left (fun σ' i => step i σ') sched σ.

End Step.

(** How often the fetch closure has been invoked. *)
Definition fetches (l : list (nat * Seq.Event)) : nat :=
  length (List.filter (fun e => Seq.is_fetch (snd e)) l).

Definition fetch_count {W : Type} (σ : Pool W) : nat := fetches (log σ).

(** [ctxs] callers that have missed in the cache and stand at [sgroup.Do]
    for [key], one per request context; no call is in flight. *)
Definition callers (h : Member.Handler) (key : string) (fetch : FetchFn)
    (ctxs : list Ctx) : list Thread :=
  (fun ctx => Caller (SRun (Member.coalescedFetch h ctx key fetch))) <$> ctxs.

Definition start {W : Type} (h : Member.Handler) (key : string) (fetch : FetchFn)
    (ctxs : list Ctx) (w : W) : Pool W :=
  mkPool (callers h key fetch ctxs) w ∅ [].

(** The same callers one step earlier, on entry to [readThroughCache]. *)
Definition arrive {W : Type} (h : Member.Handler) (key : string) (fetch : FetchFn)
    (ctxs : list Ctx) (w : W) : Pool W :=
  mkPool ((fun ctx => Caller (SRun (Member.readThroughCache h ctx key fetch))) <$> ctxs)
         w ∅ [].

(** A straight-line program: at most [n] external calls, none of them a
    call of the fetch closure, then a return. *)
Fixpoint quiet {R : Type} (n : nat) (p : Prog R) {struct n} : Prop :=
  match p with
  | Ret _ => True
  | Vis c k =>
      match n with
      | O => False
      | S n' => Seq.is_fetch_call c = false /\ forall x, quiet n' (k x)
      end
  | _ => False
  end.

(** The result a caller has returned with. *)
Definition returned (t : Thread) : option Result :=
  match t with
  | Caller (SRun (Ret r)) => Some r
  | _ => None
  end.

(** The goroutine is inside [sgroup.Do] for [key], leading or waiting. *)
Definition inside (key : string) (t : Thread) : bool :=
  match t with
  | Caller (SLead key' _ _) => bool_decide (key' = key)
  | Caller (SWait key' _) => bool_decide (key' = key)
  | _ => false
  end.

(** *** States of the pool while one call for [key] is in flight *)

Section Flight.
Context {W : Type} (h : Member.Handler) (key : string) (fetch : FetchFn).

(** The caller has missed and stands at [sgroup.Do]. *)
Definition atDo (t : Thread) : Prop :=
  exists ctx, t = Caller (SRun (Member.coalescedFetch h ctx key fetch)).

Definition waiting (t : Thread) : Prop :=
  t = Caller (SWait key Member.afterFlight).

(** The caller leads the call: its closure has not started and no fetch
    has been made, or one fetch has been made and at most [m] quiet
    calls remain. *)
Definition leading (m : nat) (made : nat) (t : Thread) : Prop :=
  exists fn,
    t = Caller (SLead key fn Member.afterFlight) /\
    (m <= 3)%nat /\
    (((exists ctx, fn = Member.fetchAndStore h ctx key fetch "cache store failed") /\
      made = 0%nat /\ m = 3%nat) \/
     (quiet m fn /\ made = 1%nat)).

(** Goroutine [l] leads, the others stand at [sgroup.Do] or wait. *)
Definition Joining (n l m : nat) (σ : Pool W) : Prop :=
  length (threads σ) = n /\
  (exists t, threads σ !! l = Some t /\ leading m (fetch_count σ) t) /\
  (forall i t, threads σ !! i = Some t -> i <> l -> atDo t \/ waiting t) /\
  key ∈ inflight σ.

(** Goroutine [l] leads, all the others wait. *)
Definition Open (n l m : nat) (σ : Pool W) : Prop :=
  length (threads σ) = n /\
  (exists t, threads σ !! l = Some t /\ leading m (fetch_count σ) t) /\
  (forall i t, threads σ !! i = Some t -> i <> l -> waiting t) /\
  key ∈ inflight σ.

(** One fetch has been made and every caller has returned its result. *)
Definition Closed (n : nat) (σ : Pool W) : Prop :=
  length (threads σ) = n /\
  fetch_count σ = 1%nat /\
  exists res, Forall (fun t => returned t = Some res) (threads σ).

(** Some caller has returned. *)
Definition Returned (σ : Pool W) : Prop :=
  exists i r, threads σ !! i = Some (Caller (SRun (Ret r))).

End Flight.

End Conc.

(** ** Well-formed JSON text (RFC 8259), as a recogniser on bytes

    [value] consumes one JSON value from the front of its input and returns
    the rest.  Bytes above 127 are taken as parts of UTF-8 characters. *)

Module Json.
Import Strings HTTP.

Definition dquote : ascii := Member.dquote.
Definition backslash : ascii := ascii_of_N 92.

Definition is_ws (c : ascii) : bool :=
  Ascii.eqb c " " || (N_of_ascii c =? 9)%N || (N_of_ascii c =? 10)%N || (N_of_ascii c =? 13)%N.

Fixpoint skip_ws (s : string) : string :=
  match s with
  | String c rest => if is_ws c then skip_ws rest else s
  | EmptyString => s
  end.

Definition is_hex (c : ascii) : bool :=
  is_digit c || in_range "a" "f" c || in_range "A" "F" c.

Definition is_control (c : ascii) : bool := (N_of_ascii c <? 32)%N.

(** A byte that stands for itself inside a string literal. *)
Definition is_plain (c : ascii) : bool :=
  negb (Ascii.eqb c dquote) && negb (Ascii.eqb c backslash) && negb (is_control c).

(** The characters of a string after its opening quote, up to and
    including the closing quote. *)
Fixpoint scan_string (s : string) : option string :=
  match s with
  | EmptyString => None
  | String c rest =>
      if Ascii.eqb c dquote then Some rest
      else if Ascii.eqb c backslash then
        match rest with
        | String e rest' =>
            if Ascii.eqb e dquote || mem_byte e "\/bfnrt" then scan_string rest'
            else if Ascii.eqb e "u" then
              match rest' with
              | String h1 (String h2 (String h3 (String h4 rest''))) =>
                  if is_hex h1 && is_hex h2 && is_hex h3 && is_hex h4
                  then scan_string rest'' else None
              | _ => None
              end
            else None
        | EmptyString => None
        end
      else if is_control c then None
      else scan_string rest
  end.

Fixpoint skip_digits (s : string) : string :=
  match s with
  | String c rest => if is_digit c then skip_digits rest else s
  | EmptyString => s
  end.

(** One or more digits. *)
Definition digits1 (s : string) : option string :=
  match s with
  | String c rest => if is_digit c then Some (skip_digits rest) else None
  | EmptyString => None
  end.

Definition scan_number (s : string) : option string :=
  let s := match s with
           | String c rest => if Ascii.eqb c "-" then rest else s
           | EmptyString => s
           end in
  let int :=
    match s with
    | String c rest =>
        if Ascii.eqb c "0" then Some rest
        else if is_digit c then Some (skip_digits rest)
        else None
    | EmptyString => None
    end in
  match int with
  | None => None
  | Some s =>
      let frac :=
        match s with
        | String c rest => if Ascii.eqb c "." then digits1 rest else Some s
        | EmptyString => Some s
        end in
      match frac with
      | None => None
      | Some s =>
          match s with
          | String c rest =>
              if Ascii.eqb c "e" || Ascii.eqb c "E" then
                match rest with
                | String sign rest' =>
                    if Ascii.eqb sign "-" || Ascii.eqb sign "+" then digits1 rest'
                    else digits1 rest
                | EmptyString => None
                end
              else Some s
          | EmptyString => Some s
          end
      end
  end.

Fixpoint value (fuel : nat) (s : string) : option string :=
  match fuel with
  | O => None
  | S fuel' =>
      match s with
      | EmptyString => None
      | String c rest =>
          if Ascii.eqb c dquote then scan_string rest
          else if Ascii.eqb c "{" then
            match skip_ws rest with
            | String d rest' =>
                if Ascii.eqb d "}" then Some rest' else members fuel' (String d rest')
            | EmptyString => None
            end
          else if Ascii.eqb c "[" then
            match skip_ws rest with
            | String d rest' =>
                if Ascii.eqb d "]" then Some rest' else elements fuel' (String d rest')
            | EmptyString => None
            end
          else if Ascii.eqb c "t" then Trim.strip_prefix "rue" rest
          else if Ascii.eqb c "f" then Trim.strip_prefix "alse" rest
          else if Ascii.eqb c "n" then Trim.strip_prefix "ull" rest
          else scan_number s
      end
  end
with members (fuel : nat) (s : string) : option string :=
  match fuel with
  | O => None
  | S fuel' =>
      match s with
      | String c rest =>
          if Ascii.eqb c dquote then
            match scan_string rest with
            | Some r1 =>
                match skip_ws r1 with
                | String colon r2 =>
                    if Ascii.eqb colon ":" then
                      match value fuel' (skip_ws r2) with
                      | Some r3 =>
                          match skip_ws r3 with
                          | String d r4 =>
                              if Ascii.eqb d "," then members fuel' (skip_ws r4)
                              else if Ascii.eqb d "}" then Some r4
                              else None
                          | EmptyString => None
                          end
                      | None => None
                      end
                    else None
                | EmptyString => None
                end
            | None => None
            end
          else None
      | EmptyString => None
      end
  end
with elements (fuel : nat) (s : string) : option string :=
  match fuel with
  | O => None
  | S fuel' =>
      match value fuel' s with
      | Some r1 =>
          match skip_ws r1 with
          | String d r2 =>
              if Ascii.eqb d "," then elements fuel' (skip_ws r2)
              else if Ascii.eqb d "]" then Some r2
              else None
          | EmptyString => None
          end
      | None => None
      end
  end.

(** [ws value ws] and nothing else. *)
Definition well_formed (s : string) : bool :=
  match value (S (String.length s)) (skip_ws s) with
  | Some rest => is_empty (skip_ws rest)
  | None => false
  end.

End Json.

(** ** strings: trimming by a one-byte cutset, folding of ASCII case *)

Module Cutset.
Import Strings HTTP.

(** [strings.TrimLeft(s, cutset)] for a cutset of the single byte [c]. *)
Fixpoint TrimLeft (s : string) (c : ascii) : string :=
  match s with
  | String d rest => if Ascii.eqb d c then TrimLeft rest c else s
  | EmptyString => s
  end.

(** [strings.TrimRight(s, cutset)] for a cutset of the single byte [c]. *)
Fixpoint TrimRight (s : string) (c : ascii) : string :=
  match s with
  | EmptyString => EmptyString
  | String d rest =>
      match TrimRight rest c with
      | EmptyString => if Ascii.eqb d c then EmptyString else String d EmptyString
      | kept => String d kept
      end
  end.

(** [strings.Trim(s, cutset)]: the right side first, then the left side. *)
Definition Trim (s : string) (c : ascii) : string := TrimLeft (TrimRight s c) c.

Definition fold_byte (c : ascii) : ascii := if is_upper c then to_lower c else c.

Fixpoint fold_case (s : string) : string :=
  match s with
  | EmptyString => EmptyString
  | String c rest => String (fold_byte c) (fold_case rest)
  end.

(** [strings.EqualFold(s, t)] for a [t] made of ASCII bytes whose letters
    have no case variant outside ASCII (every letter but k and s): the two
    strings are equal up to the case of ASCII letters.  A byte above 127 in
    [s] never matches. *)
Definition EqualFold (s t : string) : bool := String.eqb (fold_case s) (fold_case t).

End Cutset.

(** ** internal/upstream/pool.go: the round-robin pool *)

Module RoundRobin.
Import NetURL Upstream.

Record Pool : Type := mkPool {
  targets : list Target;
  cursor : Z          (* [atomic.Uint64] *)
}.

Definition uint64 (z : Z) : Z := z mod 2 ^ 64.

(** [int(x)] for a [uint64]: the same 64 bits read as a signed integer. *)
Definition int_of_uint64 (u : Z) : Z := if u <? 2 ^ 63 then u else u - 2 ^ 64.

Definition NewPool (urls : list URL) : Pool := mkPool (map mkTarget urls) 0.

(** [Next]: [idx := int(p.cursor.Add(1)-1) % len(p.targets)], then
    [p.targets[idx]].  The remainder has the sign of the dividend; a zero
    divisor and an index outside the slice panic.  The pool is returned with
    its cursor advanced. *)
Definition Next (p : Pool) : Outcome Target * Pool :=
  let added := uint64 (cursor p + 1) in
  let p' := mkPool (targets p) added in
  let n := Z.of_nat (length (targets p)) in
  if n =? 0 then (Panic "runtime error: integer divide by zero", p')
  else
    let idx := Z.rem (int_of_uint64 (uint64 (added - 1))) n in
    if idx <? 0 then (Panic "runtime error: index out of range", p')
    else
      match targets p !! Z.to_nat idx with
      | Some t => (Val t, p')
      | None => (Panic "runtime error: index out of range", p')
      end.

Definition Len (p : Pool) : Z := Z.of_nat (length (targets p)).

(** The pool after [k] calls of [Next]. *)
Definition after (k : nat) (p : Pool) : Pool := Nat.iter k (fun q => snd (Next q)) p.

End RoundRobin.

(** ** internal/upstream: parsing of the configured targets

    [url.Parse] and the [%q] verb of [fmt] are library code; the parsers are
    modelled over any implementation of them. *)

Module Parsers.
Import Strings NetURL Upstream Cutset.

Section WithParse.
Variable Parse : string -> URL + error.
Variable Quote : string -> string.

(** The loop of [ParseMemberTargets]; [targets] is the slice built so far. *)
Fixpoint memberLoop (raw : list string) (targets : list MemberTarget)
  : Outcome (list MemberTarget) :=
  match raw with
  | [] => Val targets
  | v :: rest =>
      if EqualFold v "direct://"
      then memberLoop rest (targets ++ [mkMemberTarget MemberTargetDirect None])%list
      else
        match Parse v with
        | inr err => Fail ("parse member target " ++ Quote v ++ ": " ++ err)
        | inl u =>
            if negb (String.eqb (Scheme u) "http") && negb (String.eqb (Scheme u) "https")
            then Fail ("member target " ++ Quote v ++ " must use http or https scheme")
            else
              let u := with_path u (TrimRight (Path u) slash) in
              memberLoop rest (targets ++ [mkMemberTarget MemberTargetStatic (Some u)])%list
        end
  end.

Definition ParseMemberTargets (raw : list string) : Outcome (list MemberTarget) :=
  if (length raw =? 0)%nat then Fail "no member targets provided"
  else memberLoop raw [].

(** The loop of [ParseProviderTargets]. *)
Fixpoint providerLoop (raw : list string) (upstreams : list URL) : Outcome (list URL) :=
  match raw with
  | [] => Val upstreams
  | v :: rest =>
      match Parse v with
      | inr err => Fail ("parse provider target " ++ Quote v ++ ": " ++ err)
      | inl u =>
          if negb (String.eqb (Scheme u) "http") && negb (String.eqb (Scheme u) "https")
          then Fail ("provider target " ++ Quote v ++ " must use http or https scheme")
          else providerLoop rest (upstreams ++ [u])%list
      end
  end.

Definition ParseProviderTargets (raw : list string) : Outcome (list URL) :=
  if (length raw =? 0)%nat then Fail "no provider targets provided"
  else providerLoop raw [].

(** What the member parser makes of the raw entry [v]. *)
Definition memberOf (v : string) (t : MemberTarget) : Prop :=
  if EqualFold v "direct://"
  then t = mkMemberTarget MemberTargetDirect None
  else exists u,
      Parse v = inl u /\
      (Scheme u = "http" \/ Scheme u = "https")%string /\
      t = mkMemberTarget MemberTargetStatic (Some (with_path u (TrimRight (Path u) slash))).

(** Why the member parser rejects the raw entry [v], with error [e]. *)
Definition memberError (v : string) (e : error) : Prop :=
  EqualFold v "direct://" = false /\
  ((exists err, Parse v = inr err /\
                e = ("parse member target " ++ Quote v ++ ": " ++ err)%string) \/
   (exists u, Parse v = inl u /\ Scheme u <> "http"%string /\ Scheme u <> "https"%string /\
              e = ("member target " ++ Quote v ++ " must use http or https scheme")%string)).

End WithParse.

End Parsers.

(** ** internal/server/member: construction and the upstream JSON fetch *)

Module MemberFetch.
Import Strings NetURL HTTP Effects Upstream Cutset Member.

Definition userAgent : string := "RobloxProxyCluster/1.0".

(** What [fetchJSON] leaves to its caller: the body the decoder has read
    into [dest] without error, or the error returned. *)
Inductive Fetched : Type :=
| Decoded (body : string)
| Failed (err : error).

(** The first lines of [fetchJSON]: the trimmed service name and the path
    asked of the selector. *)
Definition servicePath (service path : string) : string * string :=
  let service := Trim service slash in
  let basePath := "/" ++ service in
  let basePath :=
    if is_empty path then basePath
    else TrimRight basePath slash ++ "/" ++ TrimLeft path slash in
  (service, basePath).

Section WithLib.
Variable lib : Lib.
Variable Parse : string -> URL + error.                 (* [url.Parse] *)
Variable Quote : string -> string.                      (* the [%q] verb *)
Variable Encode : gmap string (list string) -> string.  (* [url.Values.Encode] *)
Variable Decode : string -> option error.               (* [json.Decoder.Decode] *)

(** [New]; the list [cfg.MemberClusters] and whether the client is not nil
    are passed apart from the other settings. *)
Definition New (cfg : Config) (memberClusters : list string) (client : bool)
  : Outcome Handler :=
  match Parsers.ParseMemberTargets Parse Quote memberClusters with
  | Val targets => Val (mkHandler cfg (Proxy.mkForwarder client (RequestTimeout cfg)) targets)
  | Fail err => Fail err
  | Panic msg => Panic msg
  end.

Definition fetchJSON (h : Handler) (ctx : Ctx) (service path : string)
    (params : option (gmap string (list string))) : Prog Fetched :=
  let '(service, basePath) := servicePath service path in
  let rawQuery :=
    match params with
    | Some values => Encode values
    | None => EmptyString
    end in
  match chooseTarget h basePath rawQuery with
  | Fail err => Ret (Failed err)
  | Panic msg => Crash msg
  | Val target =>
      let* _ := call (Log LInfo "fetching JSON"
                        [("service", service); ("path", basePath); ("query", rawQuery);
                         ("target", URLString lib target)]) in
      match NewRequestWithContext lib ctx "GET" target None with
      | Fail err => Ret (Failed err)
      | Panic msg => Crash msg
      | Val req =>
          let header := Set_ (ReqHeader req) "User-Agent" userAgent in
          let header := Set_ header "Accept" contentTypeJSON in
          let req := mkRequest (Method req) (URL_ req) (Query req) header (ReqBody req)
                       (ContentLength req) (TransferEncoding req) (Trailer req)
                       (ReqHost req) (RemoteAddr req) (TLS req) (ReqContext req) in
          if negb (Proxy.Client (forwarder h))
          then Crash "runtime error: invalid memory address or nil pointer dereference"
          else
            let* res := call (ClientDo req) in
            match res with
            | inr err => Ret (Failed err)
            | inl resp =>
                match RespBody resp with
                | None => Crash "runtime error: invalid memory address or nil pointer dereference"
                | Some body =>
                    if (StatusCode resp <? 200) || (StatusCode resp >=? 300)
                    then Ret (Failed ("roblox request failed: " ++ Status resp))
                    else
                      match Decode body with
                      | Some err => Ret (Failed err)
                      | None => Ret (Decoded body)
                      end
                end
            end
      end
  end.

End WithLib.

End MemberFetch.

(** ** What a program returns, whatever its collaborators answer *)

Module Leaves.
Import HTTP Effects.

(** Whatever the collaborators answer and whatever result the group hands
    back, [p] ends by returning a value that satisfies [P]; no panic is
    raised in [p], in a closure it hands to the group or in a goroutine it
    starts. *)
Fixpoint always {R : Type} (P : R -> Prop) (p : Prog R) : Prop :=
  match p with
  | Ret r => P r
  | Vis c k => forall x, always P (k x)
  | Do _ fn k => always (fun _ => True) fn /\ forall res, always P (k res)
  | Go task k => always (fun _ => True) task /\ always P k
  | Crash _ => False
  end.

(** The status line and headers of an answer of the lookup routes written
    to [w]: a status among [codes], the JSON content type, the open CORS
    header, and the caching header on status 200 only. *)
Definition lookupAnswer (w w' : ResponseWriter) (codes : list Z) : Prop :=
  exists status sent,
    wSent w' = Some (status, sent) /\
    status ∈ codes /\
    sent !! "Content-Type"%string = Some ["application/json"%string] /\
    sent !! "Access-Control-Allow-Origin"%string = Some ["*"%string] /\
    sent !! "Cache-Control"%string =
      if status =? 200 then Some ["max-age=18000"%string]
      else wHeader w !! "Cache-Control"%string.

End Leaves.

(** ** internal/app: the instrumented handler

    [time.Now()] is read off the model's clock as the time since its
    instant 0; the rendering of a duration in a log attribute is library
    code. *)

Module App.
Import NetURL HTTP Effects.

Section WithFormat.
Variable FormatDuration : Z -> string.

(** The handler function [instrumentHandler] returns, for the inner
    handler [next] and the role read as a string. *)
Definition instrumentHandler (next : ResponseWriter -> Request -> Prog ResponseWriter)
    (role : string) (w : ResponseWriter) (r : Request) : Prog ResponseWriter :=
  let* start := call (Since 0) in
  let w := HeaderSet w "X-Proxy-Role" role in
  let* w := next w r in
  let* dur := call (Since start) in
  let* _ := call (Log LDebug "handled request"
                    [("method", Method r); ("path", Path (URL_ r));
                     ("remote", RemoteAddr r); ("duration", FormatDuration dur);
                     ("role", role)]) in
  Ret w.

End WithFormat.

End App.

(** ** A world in which the copy of the upstream body breaks off

    As the in-memory world, but [io.CopyBuffer] writes [copied] and then
    fails with [e]. *)

Module Broken.
Import Effects.

Definition env (copied : string) (e : error) : Seq.Env Mem.World :=
  fun X c =>
    match c in Call T return Mem.World -> T * Mem.World with
    | CopyBuffer _ => fun w => ((copied, Some e), w)
    | other => Mem.env _ other
    end.

End Broken.

(** * Properties *)

(** ** Sanity checks of the embedding on known values *)

Example fnv_empty : Util.Sum32a "" = 0x811c9dc5.
Proof. reflexivity. Qed.

Example fnv_a : Util.Sum32a "a" = 0xe40c292c.
Proof. reflexivity. Qed.

Example fnv_foobar : Util.Sum32a "foobar" = 0xbf9cf968.
Proof. reflexivity. Qed.

Example resolvePath_abs : NetURL.resolvePath "/api" "/users/v1/users/5" = "/users/v1/users/5".
Proof. reflexivity. Qed.

Example resolvePath_rel : NetURL.resolvePath "/a/b" "c/./d/../e" = "/a/c/e".
Proof. reflexivity. Qed.

Example resolvePath_dots : NetURL.resolvePath "" "/a/b/../../../c/." = "/c/".
Proof. reflexivity. Qed.

Example resolvePath_double : NetURL.resolvePath "" "//a" = "//a".
Proof. reflexivity. Qed.

Example joinURLPath_plain : Upstream.joinURLPath "/api" "/users/v1" = "/api/users/v1".
Proof. reflexivity. Qed.

Example joinURLPath_trailing : Upstream.joinURLPath "/api/" "users" = "/api/users".
Proof. reflexivity. Qed.

Example canonical_lower : HTTP.CanonicalMIMEHeaderKey "transfer-encoding" = "Transfer-Encoding".
Proof. reflexivity. Qed.

Example canonical_mixed : HTTP.CanonicalMIMEHeaderKey "x-FORWARDED-for" = "X-Forwarded-For".
Proof. reflexivity. Qed.

Example canonical_space : HTTP.CanonicalMIMEHeaderKey "keep alive" = "keep alive".
Proof. reflexivity. Qed.

Example trim_both : Trim.TrimSpace "  12 3 " = "12 3".
Proof. reflexivity. Qed.

Example trim_nbsp : Trim.TrimSpace (Trim.bytes [0xC2; 0xA0; 0x31; 0xE3; 0x80; 0x80]%N) = "1".
Proof. reflexivity. Qed.

Example trim_blank : Trim.TrimSpace "   " = "".
Proof. reflexivity. Qed.

Example json_userid : Json.well_formed Member.invalidUserIdBody = true.
Proof. reflexivity. Qed.

Example json_nested :
  Json.well_formed "{ 'a' : [1, -2.5e+3, true, null, {}], 'b' : [] }" = false.
Proof. reflexivity. Qed.

Example json_array : Json.well_formed " [1, -2.5e+3, true, null, {}, [ ], 0.5] " = true.
Proof. reflexivity. Qed.

Example json_trailing : Json.well_formed "[1,]" = false.
Proof. reflexivity. Qed.

Example json_escapes :
  Json.well_formed (Member.errorBody "tab \t, solidus \/, reverse solidus \\, \u00e9") = true /\
  Json.well_formed (Member.errorBody "no such escape: \x01") = false.
Proof. split; reflexivity. Qed.

Example json_object :
  Json.well_formed
    ("{" ++ Member.quoted "a\né" ++ ": [" ++ Member.quoted "x" ++ ", {"
         ++ Member.quoted "b" ++ ":false}] }") = true.
Proof. reflexivity. Qed.

(** ** Shard index *)

Section ShardIndex.
Import Util.

Lemma byte_val_range (c : ascii) : 0 <= byte_val c < 256.
Proof.
  unfold byte_val. pose proof (N_ascii_bounded c) as Hb. lia.
Qed.

Lemma uint32_range (z : Z) : 0 <= uint32 z < 2 ^ 32.
Proof. unfold uint32. apply Z.mod_pos_bound. lia. Qed.

Lemma fnv_write_range (data : string) :
  forall hash, 0 <= hash < 2 ^ 32 -> 0 <= fnv_write hash data < 2 ^ 32.
Proof.
  induction data as [| c rest IH]; intros hash Hh; simpl.
  - exact Hh.
  - apply IH, uint32_range.
Qed.

Lemma Sum32a_range (key : string) : 0 <= Sum32a key < 2 ^ 32.
Proof. unfold Sum32a, offset32. apply fnv_write_range. lia. Qed.

Lemma ConsistentIndex_nonpositive (key : string) (buckets : Z) :
  buckets <= 0 -> ConsistentIndex key buckets = Val 0.
Proof.
  intros Hle. unfold ConsistentIndex.
  destruct (Z.leb_spec buckets 0) as [_ | Hgt]; [reflexivity | lia].
Qed.

Lemma ConsistentIndex_small (key : string) (buckets : Z) :
  0 < buckets < 2 ^ 32 ->
  ConsistentIndex key buckets = Val (Sum32a key mod buckets).
Proof.
  intros [Hpos Hlt]. unfold ConsistentIndex.
  destruct (Z.leb_spec buckets 0) as [Hle | _]; [lia |].
  cbv zeta. unfold uint32. rewrite Z.mod_small by lia.
  destruct (Z.eqb_spec buckets 0) as [Hz | _]; [lia | reflexivity].
Qed.

Lemma ConsistentIndex_in_range (key : string) (buckets : Z) :
  0 < buckets < 2 ^ 32 ->
  exists i, ConsistentIndex key buckets = Val i /\ 0 <= i < buckets.
Proof.
  intros Hb. exists (Sum32a key mod buckets). split.
  - apply ConsistentIndex_small, Hb.
  - apply Z.mod_pos_bound. lia.
Qed.

(** A bucket count whose low 32 bits are zero passes the guard and then
    divides by zero. *)
Lemma ConsistentIndex_wraps (key : string) (m : Z) :
  0 < m ->
  ConsistentIndex key (m * 2 ^ 32) = Panic "runtime error: integer divide by zero".
Proof.
  intros Hm. unfold ConsistentIndex.
  destruct (Z.leb_spec (m * 2 ^ 32) 0) as [Hle | _]; [lia |].
  cbv zeta. unfold uint32. rewrite Z.mod_mul by lia. reflexivity.
Qed.

End ShardIndex.

(** C10, at the failing input: with a bucket count of 2^32 the function
    gets past its guard against non-positive counts, truncates the count to
    the 32-bit value zero and panics on the remainder, for every key; it
    returns no index at all. *)
Theorem ConsistentIndex_divides_by_zero (key : string) :
  Util.ConsistentIndex key 4294967296 = Panic "runtime error: integer divide by zero".
Proof.
  change 4294967296 with (1 * 2 ^ 32). apply ConsistentIndex_wraps. lia.
Qed.

(** ** Target selection *)

Section TargetSelection.
Import Util Upstream Member.

Lemma selectIndex_small (h : Handler) (path rawQuery : string) :
  0 < Z.of_nat (length (targets h)) < 2 ^ 32 ->
  selectIndex h path rawQuery =
    Val (Sum32a (routingKey path rawQuery) mod Z.of_nat (length (targets h))).
Proof. intros Hn. unfold selectIndex. apply ConsistentIndex_small, Hn. Qed.

Lemma selectIndex_length (h : Handler) (path rawQuery : string) (n : Z) :
  Z.of_nat (length (targets h)) = n ->
  selectIndex h path rawQuery = ConsistentIndex (routingKey path rawQuery) n.
Proof. intros <-. reflexivity. Qed.

End TargetSelection.

(** C4, as amended: for a target list of size N with 0 < N < 2^32 the index
    chosen for a request is the 32-bit FNV-1a hash of the routing key (the
    path, then a question mark and the query when the query is not empty)
    reduced modulo N; it is a position of the list, and [chooseTarget]
    resolves the target at that position.  The choice depends on the key
    and the target list only: a handler with the same list makes the same
    choice. *)
Theorem chooseTarget_selects_fnv_mod (h : Member.Handler) (path rawQuery : string) :
  0 < Z.of_nat (length (Member.targets h)) < 2 ^ 32 ->
  let key := if Strings.is_empty rawQuery then path else (path ++ "?" ++ rawQuery)%string in
  let idx := Util.Sum32a key mod Z.of_nat (length (Member.targets h)) in
  Member.selectIndex h path rawQuery = Val idx /\
  (exists target,
      Member.targets h !! Z.to_nat idx = Some target /\
      Member.chooseTarget h path rawQuery = Member.targetURL target path rawQuery) /\
  (forall h' : Member.Handler,
      Member.targets h' = Member.targets h ->
      Member.chooseTarget h' path rawQuery = Member.chooseTarget h path rawQuery).
Proof.
  intros Hn key idx.
  assert (Hsel : Member.selectIndex h path rawQuery = Val idx)
    by (apply selectIndex_small, Hn).
  split; [exact Hsel |]. split.
  - assert (Hidx : 0 <= idx < Z.of_nat (length (Member.targets h)))
      by (apply Z.mod_pos_bound; lia).
    destruct (lookup_lt_is_Some_2 (Member.targets h) (Z.to_nat idx)) as [target Ht]; [lia |].
    exists target. split; [exact Ht |].
    unfold Member.chooseTarget. rewrite Hsel, Ht.
    destruct (Nat.eqb_spec (length (Member.targets h)) 0) as [Hz | _]; [lia | reflexivity].
  - intros h' Hsame. unfold Member.chooseTarget, Member.selectIndex.
    rewrite Hsame. reflexivity.
Qed.

(** C4 at a concrete handler: three static targets, one request. *)
Lemma chooseTarget_selects_fnv_mod_witness :
  let u := fun host => NetURL.mkURL "http" "" None host "" false "" "" in
  let t := fun host => Upstream.mkMemberTarget Upstream.MemberTargetStatic (Some (u host)) in
  let h := Member.mkHandler (Member.mkConfig 0 0 0) (Proxy.mkForwarder true 0)
             [t "cluster-a"; t "cluster-b"; t "cluster-c"] in
  Member.selectIndex h "/users/v1/users/5" "" = Val 1 /\
  Member.chooseTarget h "/users/v1/users/5" "" =
    Val (NetURL.mkURL "http" "" None "cluster-b" "/users/v1/users/5" false "" "").
Proof.
  intros u t h.
  destruct (chooseTarget_selects_fnv_mod h "/users/v1/users/5" "")
    as [Hsel [[target [Ht Hc]] _]].
  - simpl. lia.
  - split.
    + rewrite Hsel. reflexivity.
    + rewrite Hc. vm_compute in Ht. injection Ht as <-. reflexivity.
Defined.

(** C4 as stated fails: with 2^32 + 1 targets the bucket count is truncated
    to 1 and index 0 is selected for the empty key, whose hash modulo the
    list size is 2166136261. *)
Lemma selectIndex_beyond_uint32 :
  ~ (forall (h : Member.Handler) (path rawQuery : string),
        Member.targets h <> [] ->
        Member.selectIndex h path rawQuery =
          Val (Util.Sum32a (Member.routingKey path rawQuery)
                 mod Z.of_nat (length (Member.targets h)))).
Proof.
  intros Hclaim.
  set (n := Z.to_nat 4294967297).
  set (h := Member.mkHandler (Member.mkConfig 0 0 0) (Proxy.mkForwarder true 0)
              (replicate n (Upstream.mkMemberTarget Upstream.MemberTargetDirect None))).
  assert (Hlen : Z.of_nat (length (Member.targets h)) = 4294967297).
  { unfold h. cbn [Member.targets]. rewrite length_replicate. unfold n. apply Z2Nat.id. lia. }
  assert (Hne : Member.targets h <> []).
  { intros Hnil. rewrite Hnil in Hlen. cbn [length] in Hlen. lia. }
  specialize (Hclaim h EmptyString EmptyString Hne).
  rewrite Hlen in Hclaim.
  rewrite (selectIndex_length h _ _ _ Hlen) in Hclaim.
  vm_compute in Hclaim. discriminate Hclaim.
Qed.

(** ** Static targets *)

Section StaticTargets.
Import Strings NetURL.

(** A reference path that starts with a slash replaces the base path. *)
Lemma resolvePath_absolute (base ref : string) :
  resolvePath base (String slash ref) = resolvePath EmptyString (String slash ref).
Proof. reflexivity. Qed.

Lemma ResolveReference_absolute_path (u : URL) (path rawQuery : string) :
  let rel := mkURL "" "" None "" (String slash path) false rawQuery "" in
  Path (ResolveReference u rel) = resolvePath EmptyString (String slash path) /\
  Path (ResolveReference (with_path u EmptyString) rel) = Path (ResolveReference u rel).
Proof. split; reflexivity. Qed.

End StaticTargets.

(** C5, on the code: for a static target the selector resolves the request
    against the base with [ResolveReference].  For every base URL and every
    request path that starts with a slash the resolved URL keeps the base's
    scheme and host and the request's query, and its path is the request
    path with its dot segments removed: the base URL's own path takes no
    part in it.  At the failing input, the static target
    [http://cluster-a/api] and the request [/users/v1/users/5?limit=10], the
    selector resolves [http://cluster-a/users/v1/users/5?limit=10]; the join
    of base path and request path is what [Target.Resolve] of the provider
    pool computes on the same input, [http://cluster-a/api/users/v1/users/5]. *)
Theorem chooseTarget_static_drops_base_path :
  (forall (cfg : Member.Config) (fwd : Proxy.Forwarder) (base : NetURL.URL)
          (p rawQuery : string),
      let h := Member.mkHandler cfg fwd
                 [Upstream.mkMemberTarget Upstream.MemberTargetStatic (Some base)] in
      exists u,
        Member.chooseTarget h (String "/" p) rawQuery = Val u /\
        NetURL.Scheme u = NetURL.Scheme base /\
        NetURL.Host u = NetURL.Host base /\
        NetURL.RawQuery u = rawQuery /\
        NetURL.Path u = NetURL.resolvePath EmptyString (String "/" p)) /\
  (let base := NetURL.mkURL "http" "" None "cluster-a" "/api" false "" "" in
   let h := Member.mkHandler (Member.mkConfig 0 0 0) (Proxy.mkForwarder true 0)
              [Upstream.mkMemberTarget Upstream.MemberTargetStatic (Some base)] in
   Member.chooseTarget h "/users/v1/users/5" "limit=10" =
     Val (NetURL.mkURL "http" "" None "cluster-a" "/users/v1/users/5" false "limit=10" "") /\
   Upstream.Resolve (Upstream.mkTarget base) "/users/v1/users/5" "limit=10" =
     NetURL.mkURL "http" "" None "cluster-a" "/api/users/v1/users/5" false "limit=10" "").
Proof.
  split.
  - intros cfg fwd base p rawQuery h.
    assert (Hidx : Member.selectIndex h (String "/" p) rawQuery = Val 0).
    { unfold Member.selectIndex, h. cbn [Member.targets length].
      rewrite ConsistentIndex_small by (cbn; lia).
      change (Z.of_nat 1) with 1. rewrite Z.mod_1_r. reflexivity. }
    exists (NetURL.ResolveReference base
              (NetURL.mkURL "" "" None "" (String "/" p) false rawQuery "")).
    split.
    + unfold Member.chooseTarget. rewrite Hidx. reflexivity.
    + repeat split; reflexivity.
  - split; reflexivity.
Qed.

(** ** The coalescing cache engine, one caller at a time *)

Section Engine.
Import HTTP Effects Member Seq.
Context {W : Type} (env : Env W).

Lemma run_fetchAndStore_error h ctx key fetch warning w payload e w1 :
  env _ (Fetch fetch ctx) w = ((payload, Some e), w1) ->
  run env (fetchAndStore h ctx key fetch warning) w =
    (Some (EmptyString, Some e), w1, [EvCall (Fetch fetch ctx) (payload, Some e)]).
Proof.
  intros Hf. unfold fetchAndStore, call. cbn [bind run]. rewrite Hf. reflexivity.
Qed.

Lemma run_coalescedFetch_error h ctx key fetch w payload e w1 :
  env _ (Fetch fetch ctx) w = ((payload, Some e), w1) ->
  run env (coalescedFetch h ctx key fetch) w =
    (Some (EmptyString, Some e), w1,
     [EvFlight key; EvCall (Fetch fetch ctx) (payload, Some e)]).
Proof.
  intros Hf. unfold coalescedFetch. cbn [run].
  rewrite (run_fetchAndStore_error _ _ _ _ _ _ _ _ _ Hf). reflexivity.
Qed.

(** On a miss the engine enters the group and calls the fetch closure,
    whatever happens next. *)
Lemma run_miss_fetches h ctx key fetch w entry w1 :
  env _ (CacheGet ctx key) w = ((entry, false, None), w1) ->
  exists rest,
    snd (run env (readThroughCache h ctx key fetch) w) =
      EvCall (CacheGet ctx key) (entry, false, None)
        :: EvFlight key
        :: EvCall (Fetch fetch ctx) (fst (env _ (Fetch fetch ctx) w1))
        :: rest.
Proof.
  intros Hg. unfold readThroughCache, coalescedFetch, fetchAndStore, call.
  cbn [bind run]. rewrite Hg. cbn [bind run].
  destruct (env _ (Fetch fetch ctx) w1) as [[payload ferr] w2] eqn:Hf.
  cbn [fst snd].
  destruct ferr as [e |]; cbn [bind run fst snd].
  - eexists. reflexivity.
  - unfold storeWithTTL, call. cbn [bind run].
    destruct (env _ (CacheSet _ key payload _) w2) as [serr w3].
    destruct serr as [e |]; cbn [bind run fst snd].
    + destruct (env _ (Log _ _ _) w3) as [u w4]. cbn. eexists. reflexivity.
    + eexists. reflexivity.
Qed.

(** The goroutine of [launchRefresh], run alone: it enters the group, calls
    the fetch closure and, when that succeeds, writes the payload. *)
Lemma run_refreshTask h key fetch payload ferr serr w w1 w2 :
  let fetched := Fetch fetch (WithTimeout Background (RequestTimeout (cfg h))) in
  let stored := CacheSet (WithTimeout Background (2 * second)) key payload (CacheTTL (cfg h)) in
  let missed := fun e => Log LDebug "background refresh failed"
                           [("key", key); ("error", e)]%string in
  let warned := fun e => Log LWarn "refresh cache store failed"
                           [("key", key); ("error", e)]%string in
  env _ fetched w = ((payload, ferr), w1) ->
  env _ stored w1 = (serr, w2) ->
  run env (refreshTask h key fetch) w =
    match ferr with
    | Some e =>
        (Some tt, snd (env _ (missed e) w1),
         [EvFlight (key ++ ":refresh"); EvCall fetched (payload, Some e);
          EvCall (missed e) tt])
    | None =>
        (Some tt,
         match serr with
         | Some e => snd (env _ (warned e) w2)
         | None => w2
         end,
         [EvFlight (key ++ ":refresh"); EvCall fetched (payload, None);
          EvCall stored serr]
         ++ match serr with
            | Some e => [EvCall (warned e) tt]
            | None => []
            end)%list
    end.
Proof.
  intros fetched stored missed warned Hfetch Hset.
  unfold refreshTask, fetchAndStore, storeWithTTL, call.
  cbn [bind run]. fold fetched. rewrite Hfetch.
  destruct ferr as [e |]; cbn [bind run fst snd].
  - unfold missed. destruct (env _ (Log _ _ _) w1) as [[] w3]. reflexivity.
  - fold stored. rewrite Hset.
    destruct serr as [e |]; cbn [bind run fst snd]; [| reflexivity].
    unfold warned. destruct (env _ (Log _ _ _) w2) as [[] w3]. reflexivity.
Qed.

(** The first step of that goroutine among others: it waits when a call
    under its group key is in flight, and leads the call otherwise. *)
Lemma step_refreshTask h key fetch (σ : Conc.Pool W) (i : nat) :
  let closure := fetchAndStore h (WithTimeout Background (RequestTimeout (cfg h))) key fetch
                   "refresh cache store failed" in
  let done := fun res : Result =>
                match snd res with
                | Some err =>
                    call (Log LDebug "background refresh failed"
                            [("key", key); ("error", err)]%string)
                | None => Ret tt
                end in
  Conc.threads σ !! i = Some (Conc.Task (Conc.SRun (refreshTask h key fetch))) ->
  Conc.step env i σ =
    if decide ((key ++ ":refresh")%string ∈ Conc.inflight σ)
    then Conc.mkPool
           (<[i := Conc.Task (Conc.SWait (key ++ ":refresh") done)]> (Conc.threads σ))
           (Conc.world σ) (Conc.inflight σ) (Conc.log σ)
    else Conc.mkPool
           (<[i := Conc.Task (Conc.SLead (key ++ ":refresh") closure done)]> (Conc.threads σ))
           (Conc.world σ) ({[(key ++ ":refresh")%string]} ∪ Conc.inflight σ)
           (Conc.log σ ++ [(i, EvFlight (key ++ ":refresh"))]).
Proof.
  intros closure done Hth. unfold Conc.step. rewrite Hth.
  unfold refreshTask. cbn [Conc.thread_action Conc.action].
  destruct (decide ((key ++ ":refresh")%string ∈ Conc.inflight σ)); reflexivity.
Qed.

End Engine.

(** C6: when the store read fails with an error, [readThroughCache] returns
    that error at once.  The read is the only event of the call: the fetch
    closure is not invoked, the group is not entered, nothing is spawned and
    nothing is written; the world is as the read left it. *)
Theorem readThroughCache_store_error
    (W : Type) (env : Seq.Env W) (w w1 : W) (h : Member.Handler) (ctx : HTTP.Ctx)
    (key : string) (fetch : Effects.FetchFn) (entry : Effects.Entry) (ok : bool) (e : error) :
  env _ (Effects.CacheGet ctx key) w = ((entry, ok, Some e), w1) ->
  Seq.run env (Member.readThroughCache h ctx key fetch) w =
    (Some (EmptyString, Some e), w1,
     [Seq.EvCall (Effects.CacheGet ctx key) (entry, ok, Some e)]).
Proof.
  intros Hg. unfold Member.readThroughCache, Effects.call.
  cbn [Effects.bind Seq.run]. rewrite Hg. reflexivity.
Qed.

(** C6 on the in-memory world with a failing store read. *)
Lemma readThroughCache_store_error_witness :
  let w := Mem.mkWorld ∅ 0 [("fresh", None)] (Some "redis: connection refused") None
             (inr "no upstream") in
  let h := Member.mkHandler (Member.mkConfig 60 30 5) (Proxy.mkForwarder true 5) [] in
  Seq.run Mem.env
    (Member.readThroughCache h (HTTP.RequestContext 0) "roblox:user:1"
       (Effects.fetchUserPayload "1")) w =
    (Some (EmptyString, Some "redis: connection refused"), w,
     [Seq.EvCall (Effects.CacheGet (HTTP.RequestContext 0) "roblox:user:1")
        (Mem.zeroEntry, false, Some "redis: connection refused")]).
Proof.
  intros w h.
  apply (readThroughCache_store_error Mem.World Mem.env w w h). reflexivity.
Defined.

(** C1: on a cache hit [readThroughCache] returns the stored payload.  The
    call reads the store and the clock and does nothing else in the fresh
    case; in the stale case ([age > BackgroundRefreshAfter]) it also spawns
    one goroutine, the background refresh.  In neither case does the caller
    invoke the fetch closure, enter the group or write to the store.

    The spawned goroutine is the one that refreshes the entry.  Run in any
    world, it enters the singleflight group under the key followed by
    [":refresh"], calls the fetch closure under a background context of its
    own and, when the fetch succeeds, writes the payload to the store under
    the key itself with the configured TTL; a failed fetch writes nothing.
    Among other goroutines it is deduplicated by that group key: when a call
    under the key followed by [":refresh"] is in flight it waits for that
    call and makes none of its own, and otherwise it leads the call. *)
Theorem readThroughCache_hit
    (W : Type) (env : Seq.Env W) (w w1 w2 : W) (h : Member.Handler) (ctx : HTTP.Ctx)
    (key : string) (fetch : Effects.FetchFn) (entry : Effects.Entry) (age : Z) :
  env _ (Effects.CacheGet ctx key) w = ((entry, true, None), w1) ->
  env _ (Effects.Since (Effects.StoredAt entry)) w1 = (age, w2) ->
  let stale := age >? Member.BackgroundRefreshAfter (Member.cfg h) in
  let trace := snd (Seq.run env (Member.readThroughCache h ctx key fetch) w) in
  let refresh := Member.refreshTask h key fetch in
  let background := HTTP.WithTimeout HTTP.Background
                      (Member.RequestTimeout (Member.cfg h)) in
  let fetched := Effects.Fetch fetch background in
  let stored := fun payload =>
                  Effects.CacheSet (HTTP.WithTimeout HTTP.Background (2 * Member.second))
                    key payload (Member.CacheTTL (Member.cfg h)) in
  let missed := fun e => Effects.Log Effects.LDebug "background refresh failed"
                           [("key", key); ("error", e)]%string in
  let warned := fun e => Effects.Log Effects.LWarn "refresh cache store failed"
                           [("key", key); ("error", e)]%string in
  let closure := Member.fetchAndStore h background key fetch "refresh cache store failed" in
  let done := fun res : Effects.Result =>
                match snd res with
                | Some e => Effects.call (missed e)
                | None => Effects.Ret tt
                end in
  fst (Seq.run env (Member.readThroughCache h ctx key fetch) w) =
    (Some (Effects.Payload entry, None), w2) /\
  trace =
    ([Seq.EvCall (Effects.CacheGet ctx key) (entry, true, None);
      Seq.EvCall (Effects.Since (Effects.StoredAt entry)) age]
     ++ (if stale then [Seq.EvSpawn refresh] else []))%list /\
  Seq.flightKey refresh = Some (key ++ ":refresh")%string /\
  List.filter Seq.is_fetch trace = [] /\
  List.filter Seq.is_set trace = [] /\
  List.filter Seq.is_flight trace = [] /\
  List.filter Seq.is_spawn trace = (if stale then [Seq.EvSpawn refresh] else []) /\
  (forall (v v1 v2 : W) (payload : string) (ferr serr : option error),
      env _ fetched v = ((payload, ferr), v1) ->
      env _ (stored payload) v1 = (serr, v2) ->
      Seq.run env refresh v =
        match ferr with
        | Some e =>
            (Some tt, snd (env _ (missed e) v1),
             [Seq.EvFlight (key ++ ":refresh"); Seq.EvCall fetched (payload, Some e);
              Seq.EvCall (missed e) tt])
        | None =>
            (Some tt,
             match serr with
             | Some e => snd (env _ (warned e) v2)
             | None => v2
             end,
             [Seq.EvFlight (key ++ ":refresh"); Seq.EvCall fetched (payload, None);
              Seq.EvCall (stored payload) serr]
             ++ match serr with
                | Some e => [Seq.EvCall (warned e) tt]
                | None => []
                end)%list
        end) /\
  (forall (σ : Conc.Pool W) (i : nat),
      Conc.threads σ !! i = Some (Conc.Task (Conc.SRun refresh)) ->
      Conc.step env i σ =
        if decide ((key ++ ":refresh")%string ∈ Conc.inflight σ)
        then Conc.mkPool
               (<[i := Conc.Task (Conc.SWait (key ++ ":refresh") done)]> (Conc.threads σ))
               (Conc.world σ) (Conc.inflight σ) (Conc.log σ)
        else Conc.mkPool
               (<[i := Conc.Task (Conc.SLead (key ++ ":refresh") closure done)]>
                  (Conc.threads σ))
               (Conc.world σ) ({[(key ++ ":refresh")%string]} ∪ Conc.inflight σ)
               (Conc.log σ ++ [(i, Seq.EvFlight (key ++ ":refresh"))])).
Proof.
  intros Hg Hs stale trace refresh background fetched stored missed warned closure done.
  assert (Hcaller :
    Seq.run env (Member.readThroughCache h ctx key fetch) w =
      (Some (Effects.Payload entry, None), w2,
       ([Seq.EvCall (Effects.CacheGet ctx key) (entry, true, None);
         Seq.EvCall (Effects.Since (Effects.StoredAt entry)) age]
        ++ (if stale then [Seq.EvSpawn refresh] else []))%list)).
  { unfold Member.readThroughCache, Member.launchRefresh, Effects.call.
    cbn [Effects.bind Seq.run]. rewrite Hg. cbn [Effects.bind Seq.run]. rewrite Hs.
    fold stale. destruct stale; reflexivity. }
  subst trace. rewrite Hcaller. cbn [fst snd].
  split; [reflexivity |]. split; [reflexivity |]. split; [reflexivity |].
  split; [destruct stale; reflexivity |]. split; [destruct stale; reflexivity |].
  split; [destruct stale; reflexivity |]. split; [destruct stale; reflexivity |].
  split.
  - intros v v1 v2 payload ferr serr Hfetch Hset.
    exact (run_refreshTask env h key fetch payload ferr serr v v1 v2 Hfetch Hset).
  - intros σ i Hth. exact (step_refreshTask env h key fetch σ i Hth).
Qed.

(** C1 on the in-memory world: an entry 40 units old with a threshold of
    30 is served as it is and one refresh is spawned; the caller leaves the
    world untouched, and the spawned refresh, once run, replaces the entry
    by what the fetch closure returns. *)
Lemma readThroughCache_hit_witness :
  let entry := Effects.mkEntry "cached" 60 in
  let w := Mem.mkWorld {["roblox:user:1" := entry]} 100 [("fetched"%string, None)] None None
             (inr "no upstream") in
  let h := Member.mkHandler (Member.mkConfig 60 30 5) (Proxy.mkForwarder true 5) [] in
  let call := Member.readThroughCache h (HTTP.RequestContext 0) "roblox:user:1"
                (Effects.fetchUserPayload "1") in
  let refresh := Member.refreshTask h "roblox:user:1" (Effects.fetchUserPayload "1") in
  fst (Seq.run Mem.env call w) = (Some ("cached", None), w) /\
  List.filter Seq.is_spawn (snd (Seq.run Mem.env call w)) = [Seq.EvSpawn refresh] /\
  List.filter Seq.is_fetch (snd (Seq.run Mem.env call w)) = [] /\
  Mem.store (snd (fst (Seq.run Mem.env refresh w))) !! "roblox:user:1"%string =
    Some (Effects.mkEntry "fetched" 100) /\
  length (List.filter Seq.is_fetch (snd (Seq.run Mem.env refresh w))) = 1%nat.
Proof.
  intros entry w h call refresh.
  destruct (readThroughCache_hit Mem.World Mem.env w w w h (HTTP.RequestContext 0)
              "roblox:user:1" (Effects.fetchUserPayload "1") entry 40)
    as (Hres & _ & _ & Hfetch & _ & _ & Hspawn & Hrefresh & _).
  - reflexivity.
  - reflexivity.
  - split; [exact Hres |]. split; [exact Hspawn |]. split; [exact Hfetch |].
    fold refresh in Hrefresh. subst refresh.
    rewrite (Hrefresh w
               (Mem.mkWorld {["roblox:user:1" := entry]} 100 [] None None (inr "no upstream"))
               (Mem.mkWorld (<["roblox:user:1" := Effects.mkEntry "fetched" 100]>
                               {["roblox:user:1" := entry]})
                  100 [] None None (inr "no upstream"))
               "fetched" None None eq_refl eq_refl).
    cbn [fst snd Mem.store]. split; vm_compute; reflexivity.
Defined.

(** C2: on a miss, when the fetch closure returns an error, that error is
    returned to the caller; the events of the call are the store read, the
    entry into the group and the fetch, so [Set] is not invoked and the
    world is as the read and the fetch left it.  A later call for the same
    key that again finds no entry in the store invokes the fetch closure
    again. *)
Theorem readThroughCache_fetch_error
    (W : Type) (env : Seq.Env W) (w w1 w2 : W) (h : Member.Handler) (ctx : HTTP.Ctx)
    (key : string) (fetch : Effects.FetchFn) (entry : Effects.Entry)
    (payload : string) (e : error) :
  env _ (Effects.CacheGet ctx key) w = ((entry, false, None), w1) ->
  env _ (Effects.Fetch fetch ctx) w1 = ((payload, Some e), w2) ->
  Seq.run env (Member.readThroughCache h ctx key fetch) w =
    (Some (EmptyString, Some e), w2,
     [Seq.EvCall (Effects.CacheGet ctx key) (entry, false, None);
      Seq.EvFlight key;
      Seq.EvCall (Effects.Fetch fetch ctx) (payload, Some e)]) /\
  List.filter Seq.is_set
    (snd (Seq.run env (Member.readThroughCache h ctx key fetch) w)) = [] /\
  forall (ctx' : HTTP.Ctx) (entry' : Effects.Entry) (w3 : W),
    env _ (Effects.CacheGet ctx' key) w2 = ((entry', false, None), w3) ->
    exists rest,
      snd (Seq.run env (Member.readThroughCache h ctx' key fetch) w2) =
        Seq.EvCall (Effects.CacheGet ctx' key) (entry', false, None)
          :: Seq.EvFlight key
          :: Seq.EvCall (Effects.Fetch fetch ctx') (fst (env _ (Effects.Fetch fetch ctx') w3))
          :: rest.
Proof.
  intros Hg Hf.
  assert (Hrun : Seq.run env (Member.readThroughCache h ctx key fetch) w =
    (Some (EmptyString, Some e), w2,
     [Seq.EvCall (Effects.CacheGet ctx key) (entry, false, None);
      Seq.EvFlight key;
      Seq.EvCall (Effects.Fetch fetch ctx) (payload, Some e)])).
  { unfold Member.readThroughCache, Effects.call. cbn [Effects.bind Seq.run].
    rewrite Hg. cbn [Effects.bind].
    rewrite (run_coalescedFetch_error env h ctx key fetch w1 payload e w2 Hf).
    reflexivity. }
  split; [exact Hrun |]. split.
  - rewrite Hrun. reflexivity.
  - intros ctx' entry' w3 Hg'. apply run_miss_fetches, Hg'.
Qed.

(** C2 on the in-memory world: the fetch closure fails on its first call and
    succeeds on its second; the store holds no entry after the first lookup
    and the fetched payload after the second. *)
Lemma readThroughCache_fetch_error_witness :
  let w := Mem.empty [(EmptyString, Some "roblox request failed: 500"); ("{}", None)] in
  let h := Member.mkHandler (Member.mkConfig 60 30 5) (Proxy.mkForwarder true 5) [] in
  let call := Member.readThroughCache h (HTTP.RequestContext 0) "roblox:user:1"
                (Effects.fetchUserPayload "1") in
  let w2 := snd (fst (Seq.run Mem.env call w)) in
  fst (fst (Seq.run Mem.env call w)) = Some (EmptyString, Some "roblox request failed: 500") /\
  List.filter Seq.is_set (snd (Seq.run Mem.env call w)) = [] /\
  Mem.store w2 !! "roblox:user:1" = None /\
  fst (fst (Seq.run Mem.env call w2)) = Some ("{}", None) /\
  Mem.store (snd (fst (Seq.run Mem.env call w2))) !! "roblox:user:1" =
    Some (Effects.mkEntry "{}" 0).
Proof.
  intros w h call w2.
  destruct (readThroughCache_fetch_error Mem.World Mem.env w w
              (Mem.empty [("{}", None)]) h (HTTP.RequestContext 0) "roblox:user:1"
              (Effects.fetchUserPayload "1") Mem.zeroEntry EmptyString
              "roblox request failed: 500")
    as (Hrun & Hset & _).
  - reflexivity.
  - reflexivity.
  - subst w2 call. rewrite Hrun. cbn [fst snd].
    split; [reflexivity |]. split; [reflexivity |].
    split; [reflexivity |]. split; vm_compute; reflexivity.
Defined.

(** ** Responses *)

Section Responses.
Import Strings HTTP Member.

Lemma respondJSON_fresh (w : ResponseWriter) (status : Z) (payload : string) :
  wSent w = None ->
  wBody w = EmptyString ->
  statusOf (respondJSON w status payload) = Some status /\
  wBody (respondJSON w status payload) = payload.
Proof.
  intros Hs Hb. unfold respondJSON, Write, WriteHeader, HeaderSet, statusOf.
  cbn [wSent wHeader wBody]. rewrite Hs. cbn [wSent wHeader wBody]. rewrite Hb.
  split; reflexivity.
Qed.

Lemma append_cons (c : ascii) (s t : string) :
  (String c s ++ t)%string = String c (s ++ t)%string.
Proof. reflexivity. Qed.

Lemma mem_byte_append (c : ascii) (s t : string) :
  mem_byte c (s ++ t)%string = mem_byte c s || mem_byte c t.
Proof.
  induction s as [| d s' IH]; [reflexivity |].
  rewrite append_cons. cbn [mem_byte]. rewrite IH. apply orb_assoc.
Qed.

Lemma ReplaceAll_removes (msg : string) (old : ascii) (new : string) :
  mem_byte old new = false ->
  mem_byte old (ReplaceAll msg old new) = false.
Proof.
  intros Hnew. induction msg as [| c rest IH]; [reflexivity |].
  cbn [ReplaceAll]. destruct (Ascii.eqb c old) eqn:Hc.
  - rewrite mem_byte_append, Hnew, IH. reflexivity.
  - cbn [mem_byte]. rewrite (Ascii.eqb_sym old c), Hc. exact IH.
Qed.

Lemma sanitizeError_plain (msg : string) :
  all_bytes (fun c => negb (Ascii.eqb c Json.backslash) && negb (Json.is_control c)) msg = true ->
  all_bytes Json.is_plain (sanitizeError (Some msg)) = true.
Proof.
  unfold sanitizeError. induction msg as [| c rest IH]; intros Hp; [reflexivity |].
  cbn [all_bytes] in Hp. apply andb_prop in Hp as [Hc Hrest].
  cbn [ReplaceAll]. destruct (Ascii.eqb c dquote) eqn:Hq.
  - change ("'" ++ ReplaceAll rest dquote "'")%string
      with (String "'" (ReplaceAll rest dquote "'")).
    cbn [all_bytes]. rewrite (IH Hrest). reflexivity.
  - cbn [all_bytes]. rewrite (IH Hrest).
    unfold Json.is_plain. change Json.dquote with dquote. rewrite Hq.
    cbn [negb andb]. rewrite Hc. reflexivity.
Qed.

Lemma scan_string_plain (m rest : string) :
  all_bytes Json.is_plain m = true ->
  Json.scan_string (m ++ String Json.dquote rest) = Some rest.
Proof.
  induction m as [| c m' IH]; intros Hp.
  - reflexivity.
  - cbn [all_bytes] in Hp. apply andb_prop in Hp as [Hc Hm].
    unfold Json.is_plain in Hc. apply andb_prop in Hc as [Hc Hctl].
    apply andb_prop in Hc as [Hq Hb].
    apply negb_true_iff in Hq, Hb, Hctl.
    rewrite append_cons. cbn [Json.scan_string]. rewrite Hq, Hb, Hctl. apply IH, Hm.
Qed.

Lemma value_error_object (n : nat) (tail : string) :
  Json.scan_string tail = Some "}"%string ->
  Json.value (S (S (S n)))
    (String "{" (String dquote (String "e" (String "r" (String "r" (String "o" (String "r"
      (String dquote (String ":" (String dquote tail)))))))))) = Some EmptyString.
Proof.
  intros Htail.
  transitivity (match Json.scan_string tail with
                | Some r3 =>
                    match Json.skip_ws r3 with
                    | String d r4 =>
                        if Ascii.eqb d "," then Json.members (S n) (Json.skip_ws r4)
                        else if Ascii.eqb d "}" then Some r4 else None
                    | EmptyString => None
                    end
                | None => None
                end).
  - reflexivity.
  - rewrite Htail. reflexivity.
Qed.

Lemma errorBody_well_formed (m : string) :
  all_bytes Json.is_plain m = true -> Json.well_formed (errorBody m) = true.
Proof.
  intros Hp. unfold Json.well_formed.
  assert (Hbody : errorBody m =
    String "{" (String dquote (String "e" (String "r" (String "r" (String "o" (String "r"
      (String dquote (String ":" (String dquote (m ++ String dquote "}"))))))))))%string)
    by reflexivity.
  rewrite Hbody. clear Hbody.
  change (Json.skip_ws (String "{" ?x)) with (String "{" x).
  cbn [String.length].
  rewrite value_error_object by (apply scan_string_plain, Hp).
  reflexivity.
Qed.

End Responses.

(** C9: an error response is meant to carry a JSON object with the one
    member [error], whose value is the message of the underlying error.
    [respondError] sends the text [errorBody m] under the content type
    [application/json], where [m] is the message as [sanitizeError] leaves
    it: every double quote replaced by an apostrophe, nothing escaped, so
    that a backslash or a control byte of the message reaches the body
    unchanged.  The body is well-formed JSON when the message holds neither.
    It is not well-formed for the error of the store read of the search
    [a], double quote, [b]: the store's message renders the key with [%q],
    which puts a backslash before the inner quote, and the body then holds a
    backslash followed by an apostrophe, an escape JSON does not have.  The
    request [GET /?search=a%22b] is answered with that body and status 500
    when the store read fails.  A message that ends in a backslash gives a
    body whose string never closes. *)
Theorem respondError_body_not_json :
  let key := ("roblox:search:a" ++ String Member.dquote "b")%string in
  let rendered :=
    ("roblox:search:a" ++ String Json.backslash (String Member.dquote "b"))%string in
  let storeError :=
    ("redis get " ++ Member.quoted rendered ++ ": connection refused")%string in
  let r := HTTP.mkRequest "GET" (NetURL.mkURL "" "" None "" "/" false "search=a%22b" "")
             {["search" := [("a" ++ String Member.dquote "b")%string]]} ∅ None 0 [] ∅
             "proxy.local" "10.0.0.1:4242" false (HTTP.RequestContext 0) in
  let h := Member.mkHandler (Member.mkConfig 60 30 5) (Proxy.mkForwarder true 5)
             [Upstream.mkMemberTarget Upstream.MemberTargetDirect None] in
  let world := Mem.mkWorld ∅ 0 [] (Some storeError) None (inr "no upstream") in
  (forall (status : Z) (msg : error),
      let w := Member.respondError HTTP.newWriter status (Some msg) in
      Member.sanitizeError (Some msg) = Strings.ReplaceAll msg Member.dquote "'" /\
      HTTP.wBody w = Member.errorBody (Member.sanitizeError (Some msg)) /\
      (exists sent,
          HTTP.wSent w = Some (status, sent) /\
          HTTP.Get sent "Content-Type" = "application/json"%string) /\
      (HTTP.all_bytes
         (fun c => negb (Ascii.eqb c Json.backslash) && negb (Json.is_control c)) msg = true ->
       Json.well_formed (HTTP.wBody w) = true)) /\
  Member.searchCacheKey
    (ToLower Mem.lib (Trim.TrimSpace (HTTP.ValuesGet (HTTP.Query r) "search"))) = key /\
  Member.sanitizeError (Some storeError) =
    "redis get 'roblox:search:a\'b': connection refused"%string /\
  Json.well_formed
    (HTTP.wBody (Member.respondError HTTP.newWriter 500 (Some storeError))) = false /\
  fst (fst (Seq.run Mem.env (Member.ServeHTTP Mem.lib h HTTP.newWriter r) world)) =
    Some (Member.respondError HTTP.newWriter 500 (Some storeError)) /\
  Json.well_formed
    (HTTP.wBody (Member.respondError HTTP.newWriter 500
                   (Some ("abc" ++ String Json.backslash EmptyString)%string))) = false.
Proof.
  intros key rendered storeError r h world. split.
  - intros status msg w. split; [reflexivity |].
    destruct (respondJSON_fresh HTTP.newWriter status
                (Member.errorBody (Member.sanitizeError (Some msg))) eq_refl eq_refl)
      as [_ Hbody].
    split; [exact Hbody |]. split.
    + eexists. split; [reflexivity |]. vm_compute. reflexivity.
    + intros Hp. etransitivity; [exact (f_equal Json.well_formed Hbody) |].
      apply errorBody_well_formed. apply (sanitizeError_plain msg Hp).
  - split; [vm_compute; reflexivity |]. split; [vm_compute; reflexivity |].
    split; [vm_compute; reflexivity |]. split; [vm_compute; reflexivity |].
    vm_compute. reflexivity.
Qed.

(** ** Dispatch on the [userId] parameter *)

Section Dispatch.
Import Strings HTTP Member.

Lemma is_empty_false (s : string) : s <> EmptyString -> is_empty s = false.
Proof. destruct s; [congruence | reflexivity]. Qed.

Lemma isNumeric_nonempty (v : string) : isNumeric v = true -> is_empty v = false.
Proof. destruct v; [discriminate | reflexivity]. Qed.

End Dispatch.

(** C7, as amended: let [userID] be the first value of the [userId] query
    parameter with surrounding white space trimmed.  When [userID] is not
    empty and is not made of decimal digits only, the handler does nothing
    but answer with status 400 and the body
    [{"error":"Invalid or missing userId"}].  When [userID] is a non-empty
    string of decimal digits, the handler performs the entity lookup: it goes
    through [readThroughCache] under the key ["roblox:user:" ++ userID].
    When [userID] is empty (the parameter is absent, empty or blank) the
    request is dispatched on its [search] parameter, as a search or as a
    passthrough. *)
Theorem ServeHTTP_userId
    (lib : Lib) (h : Member.Handler) (w : HTTP.ResponseWriter) (r : HTTP.Request) :
  let userID := Trim.TrimSpace (HTTP.ValuesGet (HTTP.Query r) "userId") in
  (userID <> EmptyString -> Member.isNumeric userID = false ->
     Member.ServeHTTP lib h w r =
       Effects.Ret (Member.respondJSON w 400 Member.invalidUserIdBody) /\
     (HTTP.wSent w = None -> HTTP.wBody w = EmptyString ->
        HTTP.statusOf (Member.respondJSON w 400 Member.invalidUserIdBody) = Some 400 /\
        HTTP.wBody (Member.respondJSON w 400 Member.invalidUserIdBody) =
          Member.errorBody "Invalid or missing userId")) /\
  (Member.isNumeric userID = true ->
     exists k,
       Member.ServeHTTP lib h w r =
         Effects.bind
           (Member.readThroughCache h
              (HTTP.WithTimeout (HTTP.ReqContext r) (Member.RequestTimeout (Member.cfg h)))
              ("roblox:user:" ++ userID)%string (Effects.fetchUserPayload userID)) k) /\
  (userID = EmptyString ->
     Member.ServeHTTP lib h w r =
       let search := Trim.TrimSpace (HTTP.ValuesGet (HTTP.Query r) "search") in
       if negb (Strings.is_empty search) then Member.handleSearch lib h w r search
       else Member.handleProxy lib h w r).
Proof.
  intros userID. split; [| split].
  - intros Hne Hnum. split.
    + unfold Member.ServeHTTP. fold userID. rewrite (is_empty_false _ Hne).
      cbn [negb]. unfold Member.handleUserLookup. rewrite Hnum. reflexivity.
    + intros Hs Hb. apply respondJSON_fresh; assumption.
  - intros Hnum. eexists.
    unfold Member.ServeHTTP. fold userID. rewrite (isNumeric_nonempty _ Hnum).
    cbn [negb]. unfold Member.handleUserLookup. rewrite Hnum. cbn [negb].
    reflexivity.
  - intros Hempty. unfold Member.ServeHTTP. fold userID. rewrite Hempty. reflexivity.
Qed.

(** C7 on the request [GET /?userId=abc]. *)
Lemma ServeHTTP_userId_witness :
  let r := HTTP.mkRequest "GET" (NetURL.mkURL "" "" None "" "/" false "userId=abc" "")
             {["userId" := ["abc"%string]]} ∅ None 0 [] ∅ "proxy.local" "10.0.0.1:4242"
             false (HTTP.RequestContext 0) in
  let h := Member.mkHandler (Member.mkConfig 60 30 5) (Proxy.mkForwarder true 5)
             [Upstream.mkMemberTarget Upstream.MemberTargetDirect None] in
  exists w,
    Member.ServeHTTP Mem.lib h HTTP.newWriter r = Effects.Ret w /\
    HTTP.statusOf w = Some 400 /\
    HTTP.wBody w = Member.errorBody "Invalid or missing userId".
Proof.
  intros r h.
  destruct (ServeHTTP_userId Mem.lib h HTTP.newWriter r) as [Hbad _].
  destruct Hbad as [Hrun Hresp].
  - vm_compute. discriminate.
  - vm_compute. reflexivity.
  - destruct Hresp as [Hstatus Hbody]; [reflexivity | reflexivity |].
    eexists. split; [exact Hrun |]. split; [exact Hstatus | exact Hbody].
Defined.

(** C7 as stated fails: for [GET /?userId=] the parameter is present and is
    not a non-empty string of digits, yet the request is treated as a
    passthrough; with a direct target and the path [/] it is answered with
    status 502. *)
Lemma ServeHTTP_blank_userId_passes :
  ~ (forall (lib : Lib) (h : Member.Handler) (r : HTTP.Request) (v : string),
        HTTP.Query r !! "userId"%string = Some [v] ->
        Member.isNumeric v = false ->
        Member.ServeHTTP lib h HTTP.newWriter r =
          Effects.Ret (Member.respondJSON HTTP.newWriter 400 Member.invalidUserIdBody)).
Proof.
  intros Hclaim.
  set (r := HTTP.mkRequest "GET" (NetURL.mkURL "" "" None "" "/" false "userId=" "")
              {["userId" := [EmptyString]]} ∅ None 0 [] ∅ "proxy.local" "10.0.0.1:4242"
              false (HTTP.RequestContext 0)).
  set (h := Member.mkHandler (Member.mkConfig 60 30 5) (Proxy.mkForwarder true 5)
              [Upstream.mkMemberTarget Upstream.MemberTargetDirect None]).
  assert (Hpresent : HTTP.Query r !! "userId"%string = Some [EmptyString])
    by (vm_compute; reflexivity).
  specialize (Hclaim Mem.lib h r EmptyString Hpresent eq_refl).
  apply (f_equal (fun p => match p with
                           | Effects.Ret w => HTTP.statusOf w
                           | _ => None
                           end)) in Hclaim.
  vm_compute in Hclaim. discriminate Hclaim.
Qed.

(** ** Hop-by-hop headers *)

Section HopHeaders.
Import Strings HTTP Proxy.

Lemma canonCase_cons (upper : bool) (c : ascii) (s : string) :
  canonCase upper (String c s) =
    String (adjust upper c) (canonCase (Ascii.eqb (adjust upper c) "-") s).
Proof. reflexivity. Qed.

Lemma adjust_valid (upper : bool) (c : ascii) :
  validHeaderFieldByte c = true -> validHeaderFieldByte (adjust upper c) = true.
Proof.
  destruct upper; destruct c as [[] [] [] [] [] [] [] []]; intros H;
    first [exact H | reflexivity].
Qed.

Lemma adjust_idem (upper : bool) (c : ascii) :
  adjust upper (adjust upper c) = adjust upper c.
Proof.
  destruct upper; destruct c as [[] [] [] [] [] [] [] []]; reflexivity.
Qed.

Lemma canonCase_valid (s : string) :
  forall upper, all_bytes validHeaderFieldByte s = true ->
                all_bytes validHeaderFieldByte (canonCase upper s) = true.
Proof.
  induction s as [| c rest IH]; intros upper Hv; [reflexivity |].
  cbn [all_bytes] in Hv. apply andb_prop in Hv as [Hc Hrest].
  rewrite canonCase_cons. cbn [all_bytes].
  rewrite (adjust_valid upper c Hc), (IH _ Hrest). reflexivity.
Qed.

Lemma canonCase_idem (s : string) :
  forall upper, canonCase upper (canonCase upper s) = canonCase upper s.
Proof.
  induction s as [| c rest IH]; intros upper; [reflexivity |].
  rewrite !canonCase_cons, adjust_idem, IH. reflexivity.
Qed.

Lemma Canonical_idem (s : string) :
  CanonicalMIMEHeaderKey (CanonicalMIMEHeaderKey s) = CanonicalMIMEHeaderKey s.
Proof.
  unfold CanonicalMIMEHeaderKey.
  destruct (all_bytes validHeaderFieldByte s) eqn:Hv.
  - rewrite (canonCase_valid s true Hv). apply canonCase_idem.
  - rewrite Hv. reflexivity.
Qed.

(** *** Maps with canonical keys *)

Lemma canonicalKeys_empty : canonicalKeys ∅.
Proof. intros k [v Hk]. rewrite lookup_empty in Hk. discriminate. Qed.

Lemma canonicalKeys_insert (h : Header) (key : string) (vv : list string) :
  canonicalKeys h -> canonicalKeys (<[CanonicalMIMEHeaderKey key := vv]> h).
Proof.
  intros Hh k Hk.
  destruct (decide (CanonicalMIMEHeaderKey key = k)) as [<- | Hne].
  - apply Canonical_idem.
  - rewrite lookup_insert_ne in Hk by exact Hne. apply Hh, Hk.
Qed.

Lemma canonicalKeys_Add (h : Header) (key value : string) :
  canonicalKeys h -> canonicalKeys (Add h key value).
Proof. apply canonicalKeys_insert. Qed.

Lemma canonicalKeys_Set (h : Header) (key value : string) :
  canonicalKeys h -> canonicalKeys (Set_ h key value).
Proof. apply canonicalKeys_insert. Qed.

Lemma canonicalKeys_Del (h : Header) (key : string) :
  canonicalKeys h -> canonicalKeys (Del h key).
Proof.
  intros Hh k Hk. apply Hh. unfold Del in Hk.
  destruct Hk as [v Hv]. apply lookup_delete_Some in Hv as [_ Hv]. eauto.
Qed.

Lemma canonicalKeys_Add_all (key : string) (vv : list string) :
  forall d, canonicalKeys d -> canonicalKeys (fold_left (fun d' v => Add d' key v) vv d).
Proof.
  induction vv as [| v vv IH]; intros d Hd; [exact Hd |].
  cbn [fold_left]. apply IH, canonicalKeys_Add, Hd.
Qed.

Lemma canonicalKeys_copyHeaders (dst src : Header) :
  canonicalKeys dst -> canonicalKeys (copyHeaders dst src).
Proof.
  intros Hd. unfold copyHeaders.
  apply (map_fold_weak_ind (fun (acc : Header) (_ : Header) => canonicalKeys acc)).
  - exact Hd.
  - intros k vv m acc _ Hacc. apply canonicalKeys_Add_all, Hacc.
Qed.

Lemma canonicalKeys_delHop (h : Header) :
  canonicalKeys h -> canonicalKeys (delHopHeaders h).
Proof.
  unfold delHopHeaders. generalize hopHeaders. intros l. revert h.
  induction l as [| k l IH]; intros h Hh; [exact Hh |].
  cbn [fold_left]. apply IH, canonicalKeys_Del, Hh.
Qed.

(** *** What the deletion loop leaves *)

Lemma fold_Del_lookup (l : list string) :
  forall (h : Header) (k : string),
    k ∈ CanonicalMIMEHeaderKey <$> l -> fold_left Del l h !! k = None.
Proof.
  induction l as [| d l IH]; intros h k Hin.
  - cbn in Hin. apply elem_of_nil in Hin. contradiction.
  - cbn [fold_left]. cbn in Hin. apply elem_of_cons in Hin as [-> | Hin].
    + clear IH. assert (Hgone : Del h d !! CanonicalMIMEHeaderKey d = None)
        by apply lookup_delete_eq.
      revert Hgone. generalize (Del h d). induction l as [| e l IHl]; intros g Hg.
      * exact Hg.
      * cbn [fold_left]. apply IHl. unfold Del.
        destruct (decide (CanonicalMIMEHeaderKey e = CanonicalMIMEHeaderKey d)) as [-> | Hne].
        -- apply lookup_delete_eq.
        -- rewrite lookup_delete_ne by exact Hne. exact Hg.
    + apply IH, Hin.
Qed.

Lemma hopHeaders_canonical (name : string) :
  name ∈ hopHeaders -> CanonicalMIMEHeaderKey name = name.
Proof.
  unfold hopHeaders. intros Hin.
  repeat (apply elem_of_cons in Hin as [-> | Hin]; [reflexivity |]).
  apply elem_of_nil in Hin. contradiction.
Qed.

Lemma delHopHeaders_lookup (h : Header) (name : string) :
  name ∈ hopHeaders -> delHopHeaders h !! name = None.
Proof.
  intros Hin. apply fold_Del_lookup.
  rewrite <- (hopHeaders_canonical name Hin).
  apply list_elem_of_fmap_2, Hin.
Qed.

Lemma absent_not_appears (h : Header) (name : string) :
  canonicalKeys h ->
  h !! CanonicalMIMEHeaderKey name = None ->
  ~ appears h name.
Proof.
  intros Hh Hnone [k [Hk Hcanon]].
  rewrite (Hh k Hk) in Hcanon. subst k.
  destruct Hk as [v Hv]. congruence.
Qed.


Lemma Set_lookup_hop (h : Header) (key value name : string) :
  name ∈ hopHeaders ->
  key ∈ ["X-Forwarded-For"; "X-Forwarded-Proto"; "X-Forwarded-Host"]%string ->
  Set_ h key value !! name = h !! name.
Proof.
  intros Hname Hkey. unfold Set_. apply lookup_insert_ne.
  unfold hopHeaders in Hname.
  repeat (apply elem_of_cons in Hkey as [-> | Hkey]);
    try (apply elem_of_nil in Hkey; contradiction);
    repeat (apply elem_of_cons in Hname as [-> | Hname]);
    try (apply elem_of_nil in Hname; contradiction);
    intros Heq; vm_compute in Heq; discriminate Heq.
Qed.

Section WithLib.
Variable lib : Lib.

Lemma setForwardedHeaders_hop (header : Header) (r : Request) (name : string) :
  name ∈ hopHeaders ->
  setForwardedHeaders lib header r !! name = header !! name.
Proof.
  intros Hname. unfold setForwardedHeaders.
  rewrite Set_lookup_hop by (first [exact Hname | repeat constructor]).
  destruct (is_empty (Get (ReqHeader r) "X-Forwarded-Proto"));
    [rewrite Set_lookup_hop by (first [exact Hname | repeat constructor]) |];
    destruct (negb (is_empty _)); try reflexivity;
    destruct (is_empty (Get header "X-Forwarded-For"));
    rewrite Set_lookup_hop by (first [exact Hname | repeat constructor]); reflexivity.
Qed.

Lemma canonicalKeys_setForwardedHeaders (header : Header) (r : Request) :
  canonicalKeys header -> canonicalKeys (setForwardedHeaders lib header r).
Proof.
  intros Hh. unfold setForwardedHeaders.
  apply canonicalKeys_Set.
  destruct (is_empty (Get (ReqHeader r) "X-Forwarded-Proto"));
    [apply canonicalKeys_Set |];
    destruct (negb (is_empty _)); try exact Hh;
    destruct (is_empty (Get header "X-Forwarded-For"));
    apply canonicalKeys_Set, Hh.
Qed.

(** The header map of the outbound request. *)
Lemma cloneRequestWithURL_header (ctx : Ctx) (r : Request) (target : NetURL.URL)
    (upstreamReq : Request) :
  cloneRequestWithURL lib ctx r target = Val upstreamReq ->
  exists fresh,
    NewRequestWithContext lib ctx (Method r) target (ReqBody r) = Val fresh /\
    ReqHeader upstreamReq =
      setForwardedHeaders lib
        (delHopHeaders (copyHeaders (ReqHeader fresh) (ReqHeader r))) r.
Proof.
  unfold cloneRequestWithURL.
  destruct (NewRequestWithContext lib ctx (Method r) target (ReqBody r)) as [fresh | e | msg];
    intros Heq; try discriminate Heq.
  injection Heq as <-. exists fresh. split; reflexivity.
Qed.

(** The headers relayed by [Do], when it has written a status line. *)
Lemma Do_relays {W : Type} (env : Seq.Env W) (world world' : W) (f : Forwarder)
    (w w' : ResponseWriter) (r : Request) (target : NetURL.URL)
    (err : option error) (trace : list Seq.Event) :
  wSent w = None ->
  Seq.run env (Do lib f w r target) world = (Some (w', err), world', trace) ->
  wSent w' = None \/
  exists reqResp,
    wHeader w' = delHopHeaders (copyHeaders (wHeader w) (RespHeader reqResp)) /\
    wSent w' = Some (StatusCode reqResp, wHeader w').
Proof.
  intros Hfresh. unfold Do.
  destruct (Client f); cbn [negb].
  2:{ cbn [Seq.run]. intros Heq. injection Heq as <- _ _ _. left. exact Hfresh. }
  unfold Effects.call. cbn [Effects.bind Seq.run].
  destruct (env _ (Effects.Log _ _ _) world) as [u world1].
  destruct (cloneRequestWithURL lib _ r target) as [upstreamReq | e | msg].
  - cbn [Effects.bind Seq.run].
    destruct (env _ (Effects.ClientDo upstreamReq) world1) as [[reqResp | e] world2].
    + destruct (RespBody reqResp) as [body |].
      * cbn [Effects.bind Seq.run].
        destruct (env _ (Effects.CopyBuffer body) world2) as [cp world3].
        cbn [Seq.run]. intros Heq. injection Heq as <- _ _ _.
        right. exists reqResp. unfold Write, WriteHeader. cbn [wSent wHeader wBody].
        rewrite Hfresh. cbn [wSent wHeader wBody]. split; reflexivity.
      * cbn [Seq.run]. intros Heq. injection Heq as <- _ _ _.
        right. exists reqResp. unfold WriteHeader. cbn [wSent wHeader wBody].
        rewrite Hfresh. cbn [wSent wHeader wBody]. split; reflexivity.
    + cbn [Seq.run]. intros Heq. injection Heq as <- _ _ _. left. exact Hfresh.
  - cbn [Seq.run]. intros Heq. injection Heq as <- _ _ _. left. exact Hfresh.
  - cbn [Seq.run]. intros Heq. discriminate Heq.
Qed.

End WithLib.

End HopHeaders.

(** C8: none of the nine hop-by-hop headers is left in either direction.
    The header map of the outbound request built by [cloneRequestWithURL]
    has no entry under any of the nine names, whatever the inbound request
    carries; and when [Forwarder.Do] writes the status line to a writer on
    which nothing was sent before, the headers sent with it have no entry
    under any of the nine names, whatever the upstream response carries.  If
    moreover the maps the forwarder starts from have their keys in canonical
    form (as every map filled through [Add] and [Set] has), the header is
    absent under every spelling.  (The fields [TransferEncoding] and
    [Trailer] of the request are copied apart from the header map.) *)
Theorem hop_headers_not_forwarded (lib : Lib) :
  (forall ctx r target upstreamReq name,
      Proxy.cloneRequestWithURL lib ctx r target = Val upstreamReq ->
      name ∈ Proxy.hopHeaders ->
      HTTP.ReqHeader upstreamReq !! name = None /\
      ((forall fresh,
           NewRequestWithContext lib ctx (HTTP.Method r) target (HTTP.ReqBody r) = Val fresh ->
           HTTP.canonicalKeys (HTTP.ReqHeader fresh)) ->
       ~ HTTP.appears (HTTP.ReqHeader upstreamReq) name)) /\
  (forall (W : Type) (env : Seq.Env W) (world world' : W) f w w' r target err trace
          status sent name,
      HTTP.wSent w = None ->
      Seq.run env (Proxy.Do lib f w r target) world = (Some (w', err), world', trace) ->
      HTTP.wSent w' = Some (status, sent) ->
      name ∈ Proxy.hopHeaders ->
      sent !! name = None /\
      (HTTP.canonicalKeys (HTTP.wHeader w) -> ~ HTTP.appears sent name)).
Proof.
  split.
  - intros ctx r target upstreamReq name Hclone Hname.
    destruct (cloneRequestWithURL_header lib ctx r target upstreamReq Hclone)
      as [fresh [Hnew Hheader]].
    assert (Hgone : HTTP.ReqHeader upstreamReq !! name = None).
    { rewrite Hheader, setForwardedHeaders_hop by exact Hname.
      apply delHopHeaders_lookup, Hname. }
    split; [exact Hgone |]. intros Hcanon.
    apply absent_not_appears.
    + rewrite Hheader.
      apply canonicalKeys_setForwardedHeaders, canonicalKeys_delHop,
        canonicalKeys_copyHeaders, (Hcanon fresh Hnew).
    + rewrite (hopHeaders_canonical name Hname). exact Hgone.
  - intros W env world world' f w w' r target err trace status sent name
           Hfresh Hrun Hsent Hname.
    destruct (Do_relays lib env world world' f w w' r target err trace Hfresh Hrun)
      as [Hnone | [reqResp [Hheader Hsent']]].
    + rewrite Hnone in Hsent. discriminate Hsent.
    + rewrite Hsent' in Hsent. injection Hsent as _ <-. rewrite Hheader.
      split; [apply delHopHeaders_lookup, Hname |]. intros Hcanon.
      apply absent_not_appears.
      * apply canonicalKeys_delHop, canonicalKeys_copyHeaders, Hcanon.
      * rewrite (hopHeaders_canonical name Hname). apply delHopHeaders_lookup, Hname.
Qed.

(** C8 on a request that carries [connection] and [Te] and an upstream
    response that carries [Keep-Alive] and [Transfer-Encoding]. *)
Lemma hop_headers_not_forwarded_witness :
  let target := NetURL.mkURL "http" "" None "cluster-a" "/users/v1/users/5" false "" "" in
  let r := HTTP.mkRequest "GET" (NetURL.mkURL "" "" None "" "/users/v1/users/5" false "" "")
             ∅ {["connection" := ["keep-alive"%string]; "Te" := ["trailers"%string];
                "Accept" := ["*/*"%string]]}
             None 0 [] ∅ "proxy.local" "10.0.0.1:4242" false (HTTP.RequestContext 0) in
  let reqResp := HTTP.mkResponse "200 OK" 200
                   {["Keep-Alive" := ["timeout=5"%string];
                     "Transfer-Encoding" := ["chunked"%string];
                     "Content-Type" := ["text/plain"%string]]} (Some "hello") in
  let world := Mem.mkWorld ∅ 0 [] None None (inl reqResp) in
  let f := Proxy.mkForwarder true 5 in
  (exists upstreamReq,
      Proxy.cloneRequestWithURL Mem.lib (HTTP.RequestContext 0) r target = Val upstreamReq /\
      HTTP.ReqHeader upstreamReq !! "Connection"%string = None /\
      ~ HTTP.appears (HTTP.ReqHeader upstreamReq) "Connection") /\
  (exists w' sent,
      fst (fst (Seq.run Mem.env (Proxy.Do Mem.lib f HTTP.newWriter r target) world)) =
        Some (w', None) /\
      HTTP.wSent w' = Some (200, sent) /\
      HTTP.wBody w' = "hello"%string /\
      sent !! "Keep-Alive"%string = None /\
      ~ HTTP.appears sent "Keep-Alive").
Proof.
  intros target r reqResp world f.
  destruct (hop_headers_not_forwarded Mem.lib) as [Hout Hin].
  split.
  - eexists. split; [reflexivity |].
    edestruct Hout as [Hgone Hnever]; [reflexivity | | split; [exact Hgone |]].
    + repeat constructor.
    + apply Hnever. intros fresh Hnew. injection Hnew as <-. apply canonicalKeys_empty.
  - eexists. eexists. split; [reflexivity |]. split; [reflexivity |]. split; [reflexivity |].
    edestruct Hin with (W := Mem.World) (env := Mem.env) (world := world) (f := f)
                       (w := HTTP.newWriter) (r := r) (target := target)
                       (name := "Keep-Alive"%string) as [Hgone Hnever].
    + reflexivity.
    + reflexivity.
    + reflexivity.
    + repeat constructor.
    + split; [exact Hgone | apply Hnever, canonicalKeys_empty].
Defined.

(** ** Concurrent callers of one key *)

Section StepEquations.
Import HTTP Effects Conc.
Context {W : Type} (env : Seq.Env W).

Lemma step_none (i : nat) (σ : Pool W) (t : Thread) :
  threads σ !! i = Some t ->
  thread_action env t (world σ) = ANone ->
  step env i σ = σ.
Proof. intros Ht Ha. unfold step. rewrite Ht, Ha. reflexivity. Qed.

Lemma step_out_of_range (i : nat) (σ : Pool W) :
  threads σ !! i = None -> step env i σ = σ.
Proof. intros Ht. unfold step. rewrite Ht. reflexivity. Qed.

Lemma step_local (i : nat) (σ : Pool W) (t t' : Thread) (w' : W) (ev : Seq.Event) :
  threads σ !! i = Some t ->
  thread_action env t (world σ) = ALocal t' w' ev ->
  step env i σ =
    mkPool (<[i := t']> (threads σ)) w' (inflight σ) (log σ ++ [(i, ev)]).
Proof. intros Ht Ha. unfold step. rewrite Ht, Ha. reflexivity. Qed.

Lemma step_enter_lead (i : nat) (σ : Pool W) (t lead wait : Thread) (key : string) :
  threads σ !! i = Some t ->
  thread_action env t (world σ) = AEnter key lead wait ->
  key ∉ inflight σ ->
  step env i σ =
    mkPool (<[i := lead]> (threads σ)) (world σ) ({[key]} ∪ inflight σ)
           (log σ ++ [(i, Seq.EvFlight key)]).
Proof.
  intros Ht Ha Hk. unfold step. rewrite Ht, Ha.
  destruct (decide (key ∈ inflight σ)); [contradiction | reflexivity].
Qed.

Lemma step_enter_wait (i : nat) (σ : Pool W) (t lead wait : Thread) (key : string) :
  threads σ !! i = Some t ->
  thread_action env t (world σ) = AEnter key lead wait ->
  key ∈ inflight σ ->
  step env i σ = mkPool (<[i := wait]> (threads σ)) (world σ) (inflight σ) (log σ).
Proof.
  intros Ht Ha Hk. unfold step. rewrite Ht, Ha.
  destruct (decide (key ∈ inflight σ)); [reflexivity | contradiction].
Qed.

Lemma step_done (i : nat) (σ : Pool W) (t t' : Thread) (key : string) (res : Result) :
  threads σ !! i = Some t ->
  thread_action env t (world σ) = ADone key res t' ->
  step env i σ =
    mkPool (wake key res <$> <[i := t']> (threads σ)) (world σ)
           (inflight σ ∖ {[key]}) (log σ).
Proof. intros Ht Ha. unfold step. rewrite Ht, Ha. reflexivity. Qed.

Lemma exec_cons (i : nat) (sched : list nat) (σ : Pool W) :
  exec env (i :: sched) σ = exec env sched (step env i σ).
Proof. reflexivity. Qed.

Lemma exec_app (p rest : list nat) (σ : Pool W) :
  exec env (p ++ rest) σ = exec env rest (exec env p σ).
Proof. unfold exec. apply fold_left_app. Qed.

Lemma fetches_snoc (l : list (nat * Seq.Event)) (i : nat) (ev : Seq.Event) :
  fetches (l ++ [(i, ev)]) = (fetches l + if Seq.is_fetch ev then 1 else 0)%nat.
Proof.
  unfold fetches. rewrite List.filter_app, length_app. cbn [List.filter snd].
  destruct (Seq.is_fetch ev); reflexivity.
Qed.

(** A caller whose store read misses moves to [sgroup.Do]. *)
Lemma miss_step (i : nat) (σ : Pool W) (h : Member.Handler) (ctx : Ctx) (key : string)
    (fetch : FetchFn) (entry : Entry) (w' : W) :
  threads σ !! i = Some (Caller (SRun (Member.readThroughCache h ctx key fetch))) ->
  env _ (CacheGet ctx key) (world σ) = ((entry, false, None), w') ->
  step env i σ =
    mkPool (<[i := Caller (SRun (Member.coalescedFetch h ctx key fetch))]> (threads σ)) w'
           (inflight σ)
           (log σ ++ [(i, Seq.EvCall (CacheGet ctx key) (entry, false, None))]).
Proof.
  intros Hi Hget. apply (step_local i σ _ _ _ _ Hi).
  cbn. rewrite Hget. reflexivity.
Qed.

(** A caller that has returned stays as it is. *)
Lemma returned_stable (j i : nat) (σ : Pool W) (r : Result) :
  threads σ !! i = Some (Caller (SRun (Ret r))) ->
  threads (step env j σ) !! i = Some (Caller (SRun (Ret r))).
Proof.
  intros Hi. unfold step.
  destruct (threads σ !! j) as [t |] eqn:Hj; [| exact Hi].
  assert (Hkeep : forall t', j <> i -> <[j := t']> (threads σ) !! i
                                      = Some (Caller (SRun (Ret r)))).
  { intros t' Hne. rewrite list_lookup_insert_ne by exact Hne. exact Hi. }
  destruct (decide (j = i)) as [-> | Hne].
  - rewrite Hi in Hj. injection Hj as <-. cbn. exact Hi.
  - destruct (thread_action env t (world σ)) as [| t' w' ev | t' task | k lead wait | k res t'];
      cbn [threads].
    + exact Hi.
    + apply Hkeep, Hne.
    + rewrite lookup_app_l by (rewrite length_insert; eapply lookup_lt_Some, Hi).
      apply Hkeep, Hne.
    + destruct (decide (k ∈ inflight σ)); cbn [threads]; apply Hkeep, Hne.
    + rewrite list_lookup_fmap, (Hkeep t' Hne). reflexivity.
Qed.

End StepEquations.

Section Coalescing.
Import HTTP Effects Conc.
Context {W : Type} (env : Seq.Env W).
Context (h : Member.Handler) (key : string) (fetch : FetchFn).

Lemma afterFlight_returns (res : Result) :
  exists r, Member.afterFlight res = Ret r.
Proof.
  unfold Member.afterFlight. destruct (snd res); eexists; reflexivity.
Qed.

(** The closure calls the fetch closure first; what follows is quiet. *)
Lemma fetchAndStore_shape (ctx : Ctx) (warning : string) :
  exists k,
    Member.fetchAndStore h ctx key fetch warning = Vis (Fetch fetch ctx) k /\
    forall x, quiet 2 (k x).
Proof.
  eexists. split; [reflexivity |].
  intros [payload [e |]]; cbn; [exact I |].
  split; [reflexivity |]. intros [e |]; cbn; [| exact I].
  split; [reflexivity |]. intros []. exact I.
Qed.

Lemma quiet_weaken {R : Type} (n : nat) :
  forall (m : nat) (p : Prog R), (n <= m)%nat -> quiet n p -> quiet m p.
Proof.
  induction n as [| n IH]; intros m p Hle Hq.
  - destruct p; try contradiction. destruct m; exact I.
  - destruct p; try contradiction.
    + destruct m; exact I.
    + destruct m as [| m]; [lia |]. cbn in *. destruct Hq as [Hc Hk].
      split; [exact Hc |]. intros x. apply IH; [lia | apply Hk].
Qed.

(** One step of the leader: a call of its closure, or the completion. *)
Lemma leader_step (l m : nat) (σ : Pool W) (t : Thread) :
  threads σ !! l = Some t ->
  leading h key fetch m (fetch_count σ) t ->
  (exists t' w' ev m',
      step env l σ =
        mkPool (<[l := t']> (threads σ)) w' (inflight σ) (log σ ++ [(l, ev)]) /\
      (m' < m)%nat /\
      leading h key fetch m' (fetches (log σ ++ [(l, ev)])) t') \/
  (exists res,
      fetch_count σ = 1%nat /\
      step env l σ =
        mkPool (wake key res <$> <[l := Caller (SRun (Member.afterFlight res))]> (threads σ))
               (world σ) (inflight σ ∖ {[key]}) (log σ)).
Proof.
  intros Hl [fn [-> [Hm3 [[[ctx ->] [Hmade ->]] | [Hq Hmade]]]]].
  - left.
    destruct (fetchAndStore_shape ctx "cache store failed") as [k [Hshape Hk]].
    rewrite Hshape in Hl.
    destruct (env _ (Fetch fetch ctx) (world σ)) as [x w1] eqn:He.
    exists (Caller (SLead key (k x) Member.afterFlight)), w1,
           (Seq.EvCall (Fetch fetch ctx) x), 2%nat.
    split; [| split; [lia |]].
    + apply (step_local env l σ _ _ _ _ Hl). cbn. rewrite He. reflexivity.
    + eexists. split; [reflexivity |]. split; [lia |]. right. split; [apply Hk |].
      rewrite fetches_snoc. unfold fetch_count in Hmade. rewrite Hmade. reflexivity.
  - destruct fn as [res | X c k | | |]; try (destruct m; contradiction).
    + right. exists res. split; [exact Hmade |].
      apply (step_done env l σ _ _ _ _ Hl). reflexivity.
    + left. destruct m as [| m']; [contradiction |]. destruct Hq as [Hc Hk].
      destruct (env _ c (world σ)) as [x w1] eqn:He.
      exists (Caller (SLead key (k x) Member.afterFlight)), w1, (Seq.EvCall c x), m'.
      split; [| split; [lia |]].
      * apply (step_local env l σ _ _ _ _ Hl). cbn. rewrite He. reflexivity.
      * eexists. split; [reflexivity |]. split; [lia |]. right. split; [apply Hk |].
        rewrite fetches_snoc. cbn [Seq.is_fetch]. rewrite Hc.
        unfold fetch_count in Hmade. rewrite Hmade. reflexivity.
Qed.

End Coalescing.

Section Phases.
Import HTTP Effects Conc.
Context {W : Type} (env : Seq.Env W).
Context (h : Member.Handler) (key : string) (fetch : FetchFn).

Lemma waiting_stuck (j : nat) (σ : Pool W) (t : Thread) :
  threads σ !! j = Some t -> waiting key t -> step env j σ = σ.
Proof. intros Hj ->. apply (step_none env j σ _ Hj). reflexivity. Qed.

Lemma returned_inv (t : Thread) (res : Result) :
  returned t = Some res -> t = Caller (SRun (Ret res)).
Proof.
  destruct t as [[p | |] | s]; try discriminate.
  destruct p; try discriminate. cbn. intros Heq. injection Heq as ->. reflexivity.
Qed.

Lemma closed_step (n j : nat) (σ : Pool W) :
  Closed n σ -> step env j σ = σ.
Proof.
  intros (_ & _ & res & Hall).
  destruct (threads σ !! j) as [t |] eqn:Hj; [| apply step_out_of_range, Hj].
  rewrite Forall_lookup in Hall. specialize (Hall j t Hj).
  apply returned_inv in Hall. subst t.
  apply (step_none env j σ _ Hj). reflexivity.
Qed.

Lemma closed_exec (n : nat) (rest : list nat) (σ : Pool W) :
  Closed n σ -> exec env rest σ = σ.
Proof.
  intros Hc. induction rest as [| j rest IH]; [reflexivity |].
  rewrite exec_cons, (closed_step n j σ Hc). exact IH.
Qed.

(** The completion step returns the leader's result to every caller. *)
Lemma completion_closes (n l m : nat) (σ : Pool W) (res : Result) :
  Open h key fetch n l m σ ->
  fetch_count σ = 1%nat ->
  Closed n
    (mkPool (wake key res <$> <[l := Caller (SRun (Member.afterFlight res))]> (threads σ))
            (world σ) (inflight σ ∖ {[key]}) (log σ)).
Proof.
  intros (Hlen & (t & Hl & _) & Hothers & _) Hmade.
  split; [| split].
  - cbn [threads]. rewrite length_fmap, length_insert. exact Hlen.
  - exact Hmade.
  - destruct (afterFlight_returns res) as [r Hr]. exists r.
    cbn [threads]. apply Forall_lookup. intros i t' Hi.
    rewrite list_lookup_fmap in Hi.
    destruct (decide (i = l)) as [-> | Hne].
    + rewrite list_lookup_insert_eq in Hi by (eapply lookup_lt_Some, Hl).
      cbn in Hi. injection Hi as <-. rewrite Hr. reflexivity.
    + rewrite list_lookup_insert_ne in Hi by congruence.
      destruct (threads σ !! i) as [t0 |] eqn:Hi0; [| discriminate Hi].
      cbn in Hi. injection Hi as <-.
      rewrite (Hothers i t0 Hi0 Hne). cbn.
      destruct (decide (key = key)) as [_ | Hk]; [| contradiction].
      rewrite Hr. reflexivity.
Qed.

Lemma open_step (n l m j : nat) (σ : Pool W) :
  Open h key fetch n l m σ ->
  Closed n (step env j σ) \/
  exists m', (m' <= m)%nat /\ (j = l -> (m' < m)%nat) /\ Open h key fetch n l m' (step env j σ).
Proof.
  intros Hopen. pose proof Hopen as (Hlen & (t & Hl & Hlead) & Hothers & Hin).
  destruct (decide (j = l)) as [-> | Hne].
  - destruct (leader_step env h key fetch l m σ t Hl Hlead)
      as [(t' & w' & ev & m' & Hstep & Hlt & Hlead') | (res & Hmade & Hstep)].
    + right. exists m'. split; [lia |]. split; [intros _; exact Hlt |].
      rewrite Hstep. split; [| split; [| split]]; cbn [threads inflight].
      * rewrite length_insert. exact Hlen.
      * exists t'. split; [| exact Hlead'].
        apply list_lookup_insert_eq. eapply lookup_lt_Some, Hl.
      * intros i t0 Hi Hil. rewrite list_lookup_insert_ne in Hi by congruence.
        apply (Hothers i t0 Hi Hil).
      * exact Hin.
    + left. rewrite Hstep. apply (completion_closes n l m σ res Hopen Hmade).
  - right. exists m. split; [lia |]. split; [intros Heq; contradiction |].
    destruct (threads σ !! j) as [t0 |] eqn:Hj.
    + rewrite (waiting_stuck j σ t0 Hj (Hothers j t0 Hj Hne)). exact Hopen.
    + rewrite (step_out_of_range env j σ Hj). exact Hopen.
Qed.

Lemma open_exec (n l : nat) (rest : list nat) :
  forall (m : nat) (σ : Pool W),
    Open h key fetch n l m σ ->
    Closed n (exec env rest σ) \/
    exists m', (m' + count_occ Nat.eq_dec rest l <= m)%nat /\ Open h key fetch n l m' (exec env rest σ).
Proof.
  induction rest as [| j rest IH]; intros m σ Hopen.
  - right. exists m. split; [cbn; lia | exact Hopen].
  - rewrite exec_cons.
    destruct (open_step n l m j σ Hopen) as [Hclosed | (m1 & Hle & Hlt & Hopen1)].
    + left. rewrite (closed_exec n rest _ Hclosed). exact Hclosed.
    + destruct (IH m1 _ Hopen1) as [Hclosed | (m' & Hcount & Hopen')]; [left; exact Hclosed |].
      right. exists m'. split; [| exact Hopen'].
      cbn [count_occ]. destruct (Nat.eq_dec j l) as [Heq | Hne]; [specialize (Hlt Heq) |]; lia.
Qed.

End Phases.

Section Joiners.
Import HTTP Effects Conc.
Context {W : Type} (env : Seq.Env W).
Context (h : Member.Handler) (key : string) (fetch : FetchFn).

Lemma returned_step (j : nat) (σ : Pool W) :
  Returned σ -> Returned (step env j σ).
Proof.
  intros (i & r & Hi). exists i, r. apply returned_stable, Hi.
Qed.

Lemma joining_step (n l m j : nat) (σ : Pool W) :
  Joining h key fetch n l m σ ->
  Returned (step env j σ) \/
  exists m', Joining h key fetch n l m' (step env j σ).
Proof.
  intros (Hlen & (t & Hl & Hlead) & Hothers & Hin).
  destruct (decide (j = l)) as [-> | Hne].
  - destruct (leader_step env h key fetch l m σ t Hl Hlead)
      as [(t' & w' & ev & m' & Hstep & Hlt & Hlead') | (res & Hmade & Hstep)].
    + right. exists m'. rewrite Hstep.
      split; [| split; [| split]]; cbn [threads inflight].
      * rewrite length_insert. exact Hlen.
      * exists t'. split; [| exact Hlead'].
        apply list_lookup_insert_eq. eapply lookup_lt_Some, Hl.
      * intros i t0 Hi Hil. rewrite list_lookup_insert_ne in Hi by congruence.
        apply (Hothers i t0 Hi Hil).
      * exact Hin.
    + left. rewrite Hstep. destruct (afterFlight_returns res) as [r Hr].
      exists l, r. cbn [threads]. rewrite list_lookup_fmap.
      rewrite list_lookup_insert_eq by (eapply lookup_lt_Some, Hl).
      cbn. rewrite Hr. reflexivity.
  - right. exists m.
    destruct (threads σ !! j) as [t0 |] eqn:Hj.
    2:{ rewrite (step_out_of_range env j σ Hj).
        split; [exact Hlen |]. split; [exists t; split; assumption |].
        split; assumption. }
    destruct (Hothers j t0 Hj Hne) as [[ctx ->] | Hwait].
    + rewrite (step_enter_wait env j σ _
                 (Caller (SLead key (Member.fetchAndStore h ctx key fetch "cache store failed")
                            Member.afterFlight))
                 (Caller (SWait key Member.afterFlight)) key Hj eq_refl Hin).
      split; [| split; [| split]]; cbn [threads inflight].
      * rewrite length_insert. exact Hlen.
      * exists t. split; [| exact Hlead].
        rewrite list_lookup_insert_ne by exact Hne. exact Hl.
      * intros i t1 Hi Hil. destruct (decide (i = j)) as [-> | Hij].
        -- rewrite list_lookup_insert_eq in Hi by (eapply lookup_lt_Some, Hj).
           injection Hi as <-. right. reflexivity.
        -- rewrite list_lookup_insert_ne in Hi by congruence.
           apply (Hothers i t1 Hi Hil).
      * exact Hin.
    + rewrite (waiting_stuck env key j σ t0 Hj Hwait).
      split; [exact Hlen |]. split; [exists t; split; assumption |].
      split; assumption.
Qed.

Lemma start_step (ctxs : list Ctx) (w : W) (j : nat) :
  step env j (start h key fetch ctxs w) = start h key fetch ctxs w \/
  Joining h key fetch (length ctxs) j 3 (step env j (start h key fetch ctxs w)).
Proof.
  set (σ0 := start h key fetch ctxs w).
  destruct (ctxs !! j) as [ctx |] eqn:Hctx.
  - right.
    assert (Hj : threads σ0 !! j =
                 Some (Caller (SRun (Member.coalescedFetch h ctx key fetch)))).
    { unfold σ0, start, callers. cbn [threads]. rewrite list_lookup_fmap, Hctx. reflexivity. }
    rewrite (step_enter_lead env j σ0 _
               (Caller (SLead key (Member.fetchAndStore h ctx key fetch "cache store failed")
                          Member.afterFlight))
               (Caller (SWait key Member.afterFlight)) key Hj eq_refl)
      by (unfold σ0, start; cbn [inflight]; set_solver).
    split; [| split; [| split]]; cbn [threads inflight].
    + rewrite length_insert. unfold σ0, start, callers. cbn [threads].
      apply length_fmap.
    + eexists. split.
      * apply list_lookup_insert_eq. eapply lookup_lt_Some, Hj.
      * eexists. split; [reflexivity |]. split; [lia |]. left.
        split; [exists ctx; reflexivity |]. split; reflexivity.
    + intros i t Hi Hij. rewrite list_lookup_insert_ne in Hi by congruence.
      left. unfold σ0, start, callers in Hi. cbn [threads] in Hi.
      rewrite list_lookup_fmap in Hi.
      destruct (ctxs !! i) as [ctx' |]; [| discriminate Hi].
      cbn in Hi. injection Hi as <-. exists ctx'. reflexivity.
    + set_solver.
  - left. apply step_out_of_range. unfold σ0, start, callers. cbn [threads].
    rewrite list_lookup_fmap, Hctx. reflexivity.
Qed.

(** What a schedule can reach from the start. *)
Lemma prefix_states (ctxs : list Ctx) (w : W) (p : list nat) :
  forall σ,
    (σ = start h key fetch ctxs w \/
     (exists l m, Joining h key fetch (length ctxs) l m σ) \/
     Returned σ) ->
    exec env p σ = start h key fetch ctxs w \/
    (exists l m, Joining h key fetch (length ctxs) l m (exec env p σ)) \/
    Returned (exec env p σ).
Proof.
  induction p as [| j p IH]; intros σ Hσ; [exact Hσ |].
  rewrite exec_cons. apply IH.
  destruct Hσ as [-> | [(l & m & Hjoin) | Hret]].
  - destruct (start_step ctxs w j) as [-> | Hjoin]; [left; reflexivity |].
    right. left. eauto.
  - destruct (joining_step (length ctxs) l m j σ Hjoin) as [Hret | [m' Hjoin']].
    + right. right. exact Hret.
    + right. left. eauto.
  - right. right. apply returned_step, Hret.
Qed.

(** When every caller is inside the group, one leads and the others wait. *)
Lemma all_inside_open (ctxs : list Ctx) (w : W) (p : list nat) :
  ctxs <> [] ->
  Forall (fun t => inside key t = true)
         (threads (exec env p (start h key fetch ctxs w))) ->
  exists l m, (m <= 3)%nat /\
    Open h key fetch (length ctxs) l m (exec env p (start h key fetch ctxs w)).
Proof.
  intros Hne Hall. rewrite Forall_lookup in Hall.
  destruct (prefix_states ctxs w p (start h key fetch ctxs w) (or_introl eq_refl))
    as [Heq | [(l & m & Hjoin) | (i & r & Hi)]].
  - exfalso. rewrite Heq in Hall.
    destruct ctxs as [| ctx ctxs]; [contradiction |].
    specialize (Hall 0%nat _ eq_refl). discriminate Hall.
  - destruct Hjoin as (Hlen & (t & Hl & Hlead) & Hothers & Hin).
    exists l, m. split; [destruct Hlead as (fn & _ & Hm3 & _); exact Hm3 |].
    split; [exact Hlen |]. split; [| split; [| exact Hin]].
    + exists t. split; assumption.
    + intros i t0 Hi Hil. destruct (Hothers i t0 Hi Hil) as [[ctx ->] | Hwait]; [| exact Hwait].
      specialize (Hall i _ Hi). discriminate Hall.
  - exfalso. specialize (Hall i _ Hi). discriminate Hall.
Qed.

End Joiners.

Section OneRound.
Import HTTP Effects Conc.
Context {W : Type} (env : Seq.Env W).
Context (h : Member.Handler) (key : string) (fetch : FetchFn).

Lemma inside_lead (fn : Prog Result) (k : Result -> Prog Result) :
  inside key (Caller (SLead key fn k)) = true.
Proof. cbn. apply bool_decide_eq_true_2. reflexivity. Qed.

Lemma inside_wait (k : Result -> Prog Result) :
  inside key (Caller (SWait key k)) = true.
Proof. cbn. apply bool_decide_eq_true_2. reflexivity. Qed.

(** After the first [j] callers have each taken their step into the group
    they are inside it, and the others still stand at its door. *)
Lemma round_prefix (ctxs : list Ctx) (w : W) (j : nat) :
  (j <= length ctxs)%nat ->
  let σ := exec env (seq 0 j) (start h key fetch ctxs w) in
  length (threads σ) = length ctxs /\
  (forall i t, threads σ !! i = Some t -> (i < j)%nat -> inside key t = true) /\
  (forall i t, threads σ !! i = Some t -> (j <= i)%nat -> atDo h key fetch t) /\
  (key ∈ inflight σ <-> (0 < j)%nat).
Proof.
  induction j as [| j IH]; intros Hj σ.
  - subst σ. cbn [seq exec fold_left]. unfold start, callers. cbn [threads inflight].
    split; [apply length_fmap |]. split; [intros i t _ Hlt; lia |]. split.
    + intros i t Hi _. rewrite list_lookup_fmap in Hi.
      destruct (ctxs !! i) as [ctx |]; [| discriminate Hi].
      cbn in Hi. injection Hi as <-. exists ctx. reflexivity.
    + split; [intros Hin; set_solver | lia].
  - subst σ. rewrite seq_S, exec_app. cbn [Nat.add].
    destruct (IH ltac:(lia)) as (Hlen & Hin & Hout & Hflight).
    set (σ := exec env (seq 0 j) (start h key fetch ctxs w)) in *.
    change (exec env [j] σ) with (step env j σ).
    destruct (lookup_lt_is_Some_2 (threads σ) j ltac:(lia)) as [t Ht].
    destruct (Hout j t Ht ltac:(lia)) as [ctx ->].
    assert (Hothers : forall t' i t0,
               <[j := t']> (threads σ) !! i = Some t0 -> i <> j -> threads σ !! i = Some t0).
    { intros t' i t0 Hi Hne. rewrite list_lookup_insert_ne in Hi by congruence. exact Hi. }
    destruct (decide (key ∈ inflight σ)) as [Hk | Hk].
    + rewrite (step_enter_wait env j σ _
                 (Caller (SLead key (Member.fetchAndStore h ctx key fetch "cache store failed")
                            Member.afterFlight))
                 (Caller (SWait key Member.afterFlight)) key Ht eq_refl Hk).
      cbn [threads inflight]. split; [rewrite length_insert; exact Hlen |].
      split; [| split].
      * intros i t0 Hi Hlt. destruct (decide (i = j)) as [-> | Hne].
        -- rewrite list_lookup_insert_eq in Hi by lia. injection Hi as <-. apply inside_wait.
        -- apply (Hin i t0 (Hothers _ i t0 Hi Hne)). lia.
      * intros i t0 Hi Hle. apply (Hout i t0); [apply (Hothers _ i t0 Hi) |]; lia.
      * split; [intros _; lia | intros _; exact Hk].
    + rewrite (step_enter_lead env j σ _
                 (Caller (SLead key (Member.fetchAndStore h ctx key fetch "cache store failed")
                            Member.afterFlight))
                 (Caller (SWait key Member.afterFlight)) key Ht eq_refl Hk).
      cbn [threads inflight]. split; [rewrite length_insert; exact Hlen |].
      split; [| split].
      * intros i t0 Hi Hlt. destruct (decide (i = j)) as [-> | Hne].
        -- rewrite list_lookup_insert_eq in Hi by lia. injection Hi as <-. apply inside_lead.
        -- apply (Hin i t0 (Hothers _ i t0 Hi Hne)). lia.
      * intros i t0 Hi Hle. apply (Hout i t0); [apply (Hothers _ i t0 Hi) |]; lia.
      * split; [intros _; lia | intros _].
        apply elem_of_union. left. apply elem_of_singleton. reflexivity.
Qed.

(** One step of every caller in turn brings them all inside the group. *)
Lemma round_joins (ctxs : list Ctx) (w : W) :
  Forall (fun t => inside key t = true)
         (threads (exec env (seq 0 (length ctxs)) (start h key fetch ctxs w))).
Proof.
  destruct (round_prefix ctxs w (length ctxs) (Nat.le_refl _)) as (Hlen & Hin & _).
  apply Forall_lookup. intros i t Hi. apply (Hin i t Hi).
  rewrite <- Hlen. eapply lookup_lt_Some, Hi.
Qed.

End OneRound.

(** C3, as amended: take any number of callers of [readThroughCache] for one
    key that have all missed in the cache, and a schedule after which every
    one of them is inside [sgroup.Do] at the same moment (one leading, the
    others waiting).  Then, however the goroutines are scheduled from there
    on, the fetch closure is invoked at most once; as soon as the leader has
    been scheduled four times, or any caller has returned, it has been
    invoked exactly once and every caller has returned with one and the same
    result, the payload or the error of that single invocation. *)
Theorem coalesced_callers_share_one_fetch
    (W : Type) (env : Seq.Env W) (w : W) (h : Member.Handler) (key : string)
    (fetch : Effects.FetchFn) (ctxs : list HTTP.Ctx) (p : list nat) :
  ctxs <> [] ->
  Forall (fun t => Conc.inside key t = true)
         (Conc.threads (Conc.exec env p (Conc.start h key fetch ctxs w))) ->
  exists l, (l < length ctxs)%nat /\
    forall rest,
      let σ := Conc.exec env rest (Conc.exec env p (Conc.start h key fetch ctxs w)) in
      (Conc.fetch_count σ <= 1)%nat /\
      length (Conc.threads σ) = length ctxs /\
      ((4 <= count_occ Nat.eq_dec rest l)%nat \/
       Exists (fun t => Conc.returned t <> None) (Conc.threads σ) ->
       Conc.fetch_count σ = 1%nat /\
       exists res, Forall (fun t => Conc.returned t = Some res) (Conc.threads σ)).
Proof.
  intros Hne Hall.
  destruct (all_inside_open env h key fetch ctxs w p Hne Hall) as (l & m & Hm & Hopen).
  exists l. split.
  - destruct Hopen as (Hlen & (t & Hl & _) & _). rewrite <- Hlen.
    eapply lookup_lt_Some, Hl.
  - intros rest σ. subst σ.
    destruct (open_exec env h key fetch (length ctxs) l rest m _ Hopen)
      as [(Hlen & Hmade & Hres) | (m' & Hcount & Hopen')].
    + split; [lia |]. split; [exact Hlen |]. intros _. split; [exact Hmade | exact Hres].
    + destruct Hopen' as (Hlen & (t & Hl & Hlead) & Hothers & _).
      split; [| split; [exact Hlen |]].
      * destruct Hlead as (fn & _ & _ & [(_ & Hmade & _) | (_ & Hmade)]); rewrite Hmade; lia.
      * intros [Hsteps | Hret]; [lia |]. exfalso.
        apply Exists_exists in Hret as (t0 & Hin & Hsome).
        apply list_elem_of_lookup in Hin as (i & Hi).
        destruct (decide (i = l)) as [-> | Hil].
        -- rewrite Hl in Hi. injection Hi as <-.
           destruct Hlead as (fn & -> & _). apply Hsome. reflexivity.
        -- rewrite (Hothers i t0 Hi Hil) in Hsome. apply Hsome. reflexivity.
Qed.

(** C3 on three callers: the second one leads, the others join before it
    has fetched, then the leader runs to completion. *)
Lemma coalesced_callers_share_one_fetch_witness :
  let h := Member.mkHandler (Member.mkConfig 60 30 5) (Proxy.mkForwarder true 5) [] in
  let ctxs := [HTTP.RequestContext 0; HTTP.RequestContext 1; HTTP.RequestContext 2] in
  let σ0 := Conc.start h "roblox:user:1" (Effects.fetchUserPayload "1") ctxs
              (Mem.empty [("{}", None); ("never", None)]) in
  let σ := Conc.exec Mem.env [1; 1; 1]%nat (Conc.exec Mem.env [1; 0; 2; 1]%nat σ0) in
  Conc.fetch_count σ = 1%nat /\
  Forall (fun t => Conc.returned t = Some ("{}", None)) (Conc.threads σ).
Proof.
  intros h ctxs σ0 σ.
  destruct (coalesced_callers_share_one_fetch Mem.World Mem.env
              (Mem.empty [("{}", None); ("never", None)]) h "roblox:user:1"
              (Effects.fetchUserPayload "1") ctxs [1; 0; 2; 1]%nat)
    as (l & _ & Hrest).
  - discriminate.
  - vm_compute. repeat constructor.
  - destruct (Hrest [1; 1; 1]%nat) as (_ & _ & Hdone).
    destruct Hdone as [Hmade _].
    + right. vm_compute. apply Exists_cons_hd. discriminate.
    + split; [exact Hmade |]. vm_compute. repeat constructor.
Defined.

(** C3 as stated fails: two callers have missed; the first leads, fetches,
    stores and completes before the second enters the group; the second then
    leads a call of its own.  The fetch closure runs twice and the callers
    return different payloads. *)
Lemma late_caller_fetches_again :
  ~ (forall (h : Member.Handler) (key : string) (fetch : Effects.FetchFn)
            (ctxs : list HTTP.Ctx) (w : Mem.World) (sched : list nat),
        (2 <= length ctxs)%nat ->
        let σ := Conc.exec Mem.env sched (Conc.start h key fetch ctxs w) in
        Forall (fun t => Conc.returned t <> None) (Conc.threads σ) ->
        Conc.fetch_count σ = 1%nat /\
        exists res, Forall (fun t => Conc.returned t = Some res) (Conc.threads σ)).
Proof.
  intros Hclaim.
  destruct (Hclaim (Member.mkHandler (Member.mkConfig 60 30 5) (Proxy.mkForwarder true 5) [])
              "roblox:user:1" (Effects.fetchUserPayload "1")
              [HTTP.RequestContext 0; HTTP.RequestContext 1]
              (Mem.empty [("a", None); ("b", None)])
              [0; 0; 0; 0; 1; 1; 1; 1]%nat) as [Hmade _].
  - cbn. lia.
  - vm_compute. repeat constructor; discriminate.
  - vm_compute in Hmade. discriminate Hmade.
Qed.


(** Two callers from their entry into [readThroughCache], on an empty
    store: when both are inside the group together one fetch serves both;
    when the first completes before the second enters the group, the second
    fetches again. *)
Example two_callers_joined :
  let h := Member.mkHandler (Member.mkConfig 60 30 5) (Proxy.mkForwarder true 5) [] in
  let σ := Conc.exec Mem.env [0; 1; 0; 1; 0; 0; 0]%nat
             (Conc.arrive h "roblox:user:1" (Effects.fetchUserPayload "1")
                [HTTP.RequestContext 0; HTTP.RequestContext 1]
                (Mem.empty [("a", None); ("b", None)])) in
  Conc.fetch_count σ = 1%nat /\
  map Conc.returned (Conc.threads σ) = [Some ("a", None); Some ("a", None)].
Proof. vm_compute. split; reflexivity. Qed.

Example two_callers_apart :
  let h := Member.mkHandler (Member.mkConfig 60 30 5) (Proxy.mkForwarder true 5) [] in
  let σ := Conc.exec Mem.env [0; 1; 0; 0; 0; 0; 1; 1; 1; 1]%nat
             (Conc.arrive h "roblox:user:1" (Effects.fetchUserPayload "1")
                [HTTP.RequestContext 0; HTTP.RequestContext 1]
                (Mem.empty [("a", None); ("b", None)])) in
  Conc.fetch_count σ = 2%nat /\
  map Conc.returned (Conc.threads σ) = [Some ("a", None); Some ("b", None)].
Proof. vm_compute. split; reflexivity. Qed.

(** * Further properties of the code *)

(** ** Sanity checks of the added definitions *)

Example EqualFold_direct :
  Cutset.EqualFold "Direct://" "direct://" = true /\
  Cutset.EqualFold "direct:/" "direct://" = false.
Proof. split; reflexivity. Qed.

Example TrimRight_slashes : Cutset.TrimRight "/api//" "/" = "/api"%string.
Proof. reflexivity. Qed.

Example TrimRight_only_slashes : Cutset.TrimRight "//" "/" = EmptyString.
Proof. reflexivity. Qed.

Example servicePath_users :
  MemberFetch.servicePath "/users/" "//v1/users/5" = ("users"%string, "/users/v1/users/5"%string).
Proof. reflexivity. Qed.

Example int_of_uint64_top : RoundRobin.int_of_uint64 (2 ^ 64 - 1) = -1.
Proof. reflexivity. Qed.

(** ** The shard index, for every bucket count *)

(** X1: [ConsistentIndex] never returns an error.  When it returns an index,
    either the bucket count is not positive and the index is 0, or the index
    is a position below the bucket count; it panics exactly when the bucket
    count is a positive multiple of 2^32. *)
Theorem ConsistentIndex_outcomes (key : string) (buckets : Z) :
  match Util.ConsistentIndex key buckets with
  | Val i =>
      (buckets <= 0 /\ i = 0) \/
      (0 < buckets /\ buckets mod 2 ^ 32 <> 0 /\ 0 <= i < buckets /\
       i = Util.Sum32a key mod (buckets mod 2 ^ 32))
  | Panic _ => 0 < buckets /\ buckets mod 2 ^ 32 = 0
  | Fail _ => False
  end.
Proof.
  unfold Util.ConsistentIndex, Util.uint32.
  destruct (Z.leb_spec buckets 0) as [Hle | Hpos].
  - left. split; [exact Hle | reflexivity].
  - cbv zeta. destruct (Z.eqb_spec (buckets mod 2 ^ 32) 0) as [Hz | Hnz].
    + split; [exact Hpos | exact Hz].
    + right. split; [exact Hpos |]. split; [exact Hnz |]. split; [| reflexivity].
      assert (Hm : 0 <= buckets mod 2 ^ 32 < 2 ^ 32) by (apply Z.mod_pos_bound; lia).
      assert (Hle : buckets mod 2 ^ 32 <= buckets) by (apply Z.mod_le; lia).
      assert (Hi : 0 <= Util.Sum32a key mod (buckets mod 2 ^ 32) < buckets mod 2 ^ 32)
        by (apply Z.mod_pos_bound; lia).
      lia.
Qed.

(** ** Joining of URL paths *)

Section JoinPaths.
Import Strings Upstream.

Lemma ensureLeadingSlash_first (path : string) :
  exists rest, ensureLeadingSlash path = String slash rest.
Proof.
  destruct path as [| c rest]; [exists EmptyString; reflexivity |].
  unfold ensureLeadingSlash. cbn [first_byte].
  destruct (Ascii.eqb_spec c slash) as [-> | _]; eexists; reflexivity.
Qed.

Lemma ensureLeadingSlash_nonempty (c : ascii) (rest : string) :
  ensureLeadingSlash (String c rest) =
    if Ascii.eqb c slash then String c rest else String slash (String c rest).
Proof. reflexivity. Qed.

Lemma last_byte_cons (c d : ascii) (s : string) :
  last_byte (String c (String d s)) = last_byte (String d s).
Proof. reflexivity. Qed.

Lemma last_byte_snoc (s : string) (c : ascii) :
  last_byte (s ++ String c EmptyString) = Some c.
Proof.
  induction s as [| d s IH]; [reflexivity |].
  rewrite append_cons. destruct s as [| e s']; [reflexivity |].
  rewrite append_cons in *. rewrite last_byte_cons. exact IH.
Qed.

Lemma last_byte_ensure (path : string) :
  path <> EmptyString -> last_byte (ensureLeadingSlash path) = last_byte path.
Proof.
  destruct path as [| c rest]; [congruence | intros _].
  rewrite ensureLeadingSlash_nonempty.
  destruct (Ascii.eqb c slash); [reflexivity | apply last_byte_cons].
Qed.

Lemma ensure_snoc (path tail : string) :
  path <> EmptyString ->
  ensureLeadingSlash (path ++ tail) = (ensureLeadingSlash path ++ tail)%string.
Proof.
  destruct path as [| c rest]; [congruence | intros _].
  rewrite append_cons, !ensureLeadingSlash_nonempty.
  destruct (Ascii.eqb c slash); reflexivity.
Qed.

Lemma append_assoc (a b c : string) : ((a ++ b) ++ c = a ++ b ++ c)%string.
Proof.
  induction a as [| x a IH]; [reflexivity |].
  rewrite !append_cons, IH. reflexivity.
Qed.

Lemma is_empty_append (a b : string) :
  is_empty (a ++ b) = is_empty a && is_empty b.
Proof. destruct a; reflexivity. Qed.

End JoinPaths.

(** X2: whatever the base path and the request path, [joinURLPath] returns a
    path that starts with a slash; in particular it is never empty. *)
Theorem joinURLPath_leading_slash (basePath reqPath : string) :
  exists rest, Upstream.joinURLPath basePath reqPath = String Strings.slash rest.
Proof.
  unfold Upstream.joinURLPath.
  destruct (Strings.is_empty basePath).
  - destruct (Strings.is_empty reqPath); [exists EmptyString; reflexivity |].
    apply ensureLeadingSlash_first.
  - destruct (Strings.is_empty reqPath); [apply ensureLeadingSlash_first |].
    cbv zeta.
    destruct (ensureLeadingSlash_first basePath) as [b ->].
    destruct (Strings.last_byte (String Strings.slash b)) as [c |];
      [destruct (Ascii.eqb c Strings.slash) |]; eexists; apply append_cons.
Qed.

(** X3: one slash at the seam.  For a base path that is not empty and does
    not end in a slash and a request path that is not empty and does not
    start with one, the join is the base (with a leading slash), a slash and
    the request path;
    a trailing slash on the base, a leading slash on the request path, or
    both, give the same result. *)
Theorem joinURLPath_one_slash (basePath reqPath : string) (b r : ascii) :
  Strings.last_byte basePath = Some b -> b <> Strings.slash ->
  Strings.first_byte reqPath = Some r -> r <> Strings.slash ->
  let joined := (Upstream.ensureLeadingSlash basePath ++ "/" ++ reqPath)%string in
  Upstream.joinURLPath basePath reqPath = joined /\
  Upstream.joinURLPath basePath ("/" ++ reqPath) = joined /\
  Upstream.joinURLPath (basePath ++ "/") reqPath = joined /\
  Upstream.joinURLPath (basePath ++ "/") ("/" ++ reqPath) = joined.
Proof.
  intros Hb Hbne Hr Hrne joined. subst joined.
  assert (Hbase : basePath <> EmptyString) by (intros ->; discriminate Hb).
  destruct reqPath as [| r0 req]; [discriminate Hr |].
  cbn [Strings.first_byte] in Hr. injection Hr as ->.
  assert (Hreq : Upstream.ensureLeadingSlash (String r req) = String "/" (String r req)).
  { rewrite ensureLeadingSlash_nonempty.
    destruct (Ascii.eqb_spec r Strings.slash) as [Heq | _]; [contradiction | reflexivity]. }
  assert (Hlast : Strings.last_byte (Upstream.ensureLeadingSlash basePath) = Some b)
    by (rewrite last_byte_ensure by exact Hbase; exact Hb).
  assert (Hlast' : Strings.last_byte (Upstream.ensureLeadingSlash (basePath ++ "/"))
                   = Some Strings.slash).
  { rewrite ensure_snoc by exact Hbase. apply last_byte_snoc. }
  assert (Hnb : Ascii.eqb b Strings.slash = false) by (apply Ascii.eqb_neq; exact Hbne).
  assert (He : Strings.is_empty basePath = false) by (apply is_empty_false, Hbase).
  assert (He' : Strings.is_empty (basePath ++ "/") = false)
    by (rewrite is_empty_append, He; reflexivity).
  unfold Upstream.joinURLPath.
  rewrite He, He'. change ("/" ++ String r req)%string with (String "/" (String r req)).
  cbn [Strings.is_empty]. cbv zeta.
  rewrite Hlast, Hlast', Hnb, Hreq, Ascii.eqb_refl.
  change (Upstream.ensureLeadingSlash (String "/" (String r req)))
    with (String "/" (String r req)).
  cbn [Strings.tail].
  rewrite ensure_snoc by exact Hbase.
  repeat split; try reflexivity; apply append_assoc.
Qed.

(** X3 on the base [/api] and the request path [users/v1]. *)
Lemma joinURLPath_one_slash_witness :
  Upstream.joinURLPath "/api" "users/v1" = "/api/users/v1"%string /\
  Upstream.joinURLPath "/api" "/users/v1" = "/api/users/v1"%string /\
  Upstream.joinURLPath "/api/" "users/v1" = "/api/users/v1"%string /\
  Upstream.joinURLPath "/api/" "/users/v1" = "/api/users/v1"%string.
Proof.
  apply (joinURLPath_one_slash "/api" "users/v1" "i" "u").
  - reflexivity.
  - discriminate.
  - reflexivity.
  - discriminate.
Defined.

(** ** The round-robin pool *)

Section RoundRobinPool.
Import NetURL Upstream RoundRobin.

Lemma Next_advances (p : Pool) :
  snd (Next p) = mkPool (targets p) (uint64 (cursor p + 1)).
Proof.
  unfold Next. cbv zeta.
  destruct (Z.of_nat (length (targets p)) =? 0); [reflexivity |].
  destruct (_ <? 0); [reflexivity |].
  destruct (targets p !! _); reflexivity.
Qed.

Lemma uint64_back (c : Z) :
  0 <= c < 2 ^ 64 -> uint64 (uint64 (c + 1) - 1) = c.
Proof.
  intros Hc. unfold uint64. rewrite Zminus_mod_idemp_l.
  replace (c + 1 - 1) with c by lia. apply Z.mod_small, Hc.
Qed.

Lemma after_cursor (ts : list Target) (k : nat) :
  Z.of_nat k < 2 ^ 64 ->
  after k (mkPool ts 0) = mkPool ts (Z.of_nat k).
Proof.
  induction k as [| k IH]; intros Hk; [reflexivity |].
  change (after (S k) (mkPool ts 0)) with (snd (Next (after k (mkPool ts 0)))).
  rewrite IH by lia. rewrite Next_advances. cbn [targets cursor]. f_equal.
  unfold uint64. rewrite Z.mod_small by lia. lia.
Qed.

Lemma Next_low (ts : list Target) (c : Z) :
  0 <= c < 2 ^ 63 -> ts <> [] ->
  exists t,
    ts !! Z.to_nat (c mod Z.of_nat (length ts)) = Some t /\
    Next (mkPool ts c) = (Val t, mkPool ts (c + 1)).
Proof.
  intros Hc Hne.
  assert (Hn : 0 < Z.of_nat (length ts)) by (destruct ts; [congruence | cbn; lia]).
  assert (Hidx : 0 <= c mod Z.of_nat (length ts) < Z.of_nat (length ts))
    by (apply Z.mod_pos_bound; lia).
  destruct (lookup_lt_is_Some_2 ts (Z.to_nat (c mod Z.of_nat (length ts)))) as [t Ht]; [lia |].
  exists t. split; [exact Ht |].
  unfold Next. cbn [targets cursor]. cbv zeta.
  destruct (Z.eqb_spec (Z.of_nat (length ts)) 0) as [Hz | _]; [lia |].
  rewrite uint64_back by lia.
  unfold int_of_uint64. destruct (Z.ltb_spec c (2 ^ 63)) as [_ | Hge]; [| lia].
  rewrite Z.rem_mod_nonneg by lia.
  destruct (Z.ltb_spec (c mod Z.of_nat (length ts)) 0) as [Hneg | _]; [lia |].
  rewrite Ht. f_equal. f_equal. unfold uint64. apply Z.mod_small. lia.
Qed.

End RoundRobinPool.

(** X4: round robin.  On a pool built from a non-empty list of URLs the call
    number [k] of [Next] (counting from 0, below 2^63) returns the target of
    the URL at position [k mod n], where [n] is the length of the list, and
    leaves the cursor at [k + 1]. *)
Theorem Next_round_robin (urls : list NetURL.URL) (k : nat) :
  urls <> [] ->
  Z.of_nat k < 2 ^ 63 ->
  exists u,
    urls !! (k mod length urls)%nat = Some u /\
    RoundRobin.Next (RoundRobin.after k (RoundRobin.NewPool urls)) =
      (Val (Upstream.mkTarget u),
       RoundRobin.mkPool (map Upstream.mkTarget urls) (Z.of_nat k + 1)) /\
    RoundRobin.Len (RoundRobin.NewPool urls) = Z.of_nat (length urls).
Proof.
  intros Hne Hk. unfold RoundRobin.NewPool.
  rewrite after_cursor by lia.
  destruct (Next_low (map Upstream.mkTarget urls) (Z.of_nat k)) as [t [Ht Hnext]].
  - lia.
  - destruct urls; [congruence | discriminate].
  - rewrite length_map in Ht. rewrite <- Nat2Z.inj_mod, Nat2Z.id in Ht.
    change (map Upstream.mkTarget urls) with (Upstream.mkTarget <$> urls) in Ht.
    rewrite list_lookup_fmap in Ht.
    destruct (urls !! (k mod length urls)%nat) as [u |] eqn:Hu; [| discriminate Ht].
    cbn in Ht. injection Ht as <-.
    exists u. split; [reflexivity |]. split; [exact Hnext |].
    unfold RoundRobin.Len. cbn [RoundRobin.targets]. rewrite length_map. reflexivity.
Qed.

(** X4 on three URLs: the fifth call (number 4) returns the second one. *)
Lemma Next_round_robin_witness :
  let u := fun host => NetURL.mkURL "http" "" None host "" false "" "" in
  let urls := [u "cluster-a"; u "cluster-b"; u "cluster-c"] in
  fst (RoundRobin.Next (RoundRobin.after 4 (RoundRobin.NewPool urls))) =
    Val (Upstream.mkTarget (u "cluster-b")).
Proof.
  intros u urls.
  destruct (Next_round_robin urls 4) as [t [Ht [Hnext _]]].
  - discriminate.
  - cbn. lia.
  - rewrite Hnext. cbn [fst]. cbn in Ht. injection Ht as <-. reflexivity.
Defined.

(** X5: every outcome of [Next].  For a cursor within the 64 bits, [Next]
    advances the cursor by one (modulo 2^64) and never returns an error
    value.  It panics in two cases only: on a pool without targets (which
    [NewPool] builds from an empty list) it divides by zero; and once the
    cursor has reached 2^63, where its conversion to [int] is negative, it
    indexes out of range unless the number of targets divides the distance
    of the cursor to 2^64.  Otherwise it returns the target at position
    [cursor mod n] (below 2^63) or the first target. *)
Theorem Next_outcomes (ts : list Upstream.Target) (c : Z) :
  0 <= c < 2 ^ 64 ->
  let n := Z.of_nat (length ts) in
  RoundRobin.cursor (snd (RoundRobin.Next (RoundRobin.mkPool ts c))) = (c + 1) mod 2 ^ 64 /\
  RoundRobin.targets (snd (RoundRobin.Next (RoundRobin.mkPool ts c))) = ts /\
  match fst (RoundRobin.Next (RoundRobin.mkPool ts c)) with
  | Val t =>
      (c < 2 ^ 63 /\ ts !! Z.to_nat (c mod n) = Some t) \/
      (2 ^ 63 <= c /\ (2 ^ 64 - c) mod n = 0 /\ ts !! 0%nat = Some t)
  | Panic msg =>
      (ts = [] /\ msg = "runtime error: integer divide by zero"%string) \/
      (ts <> [] /\ 2 ^ 63 <= c /\ (2 ^ 64 - c) mod n <> 0 /\
       msg = "runtime error: index out of range"%string)
  | Fail _ => False
  end.
Proof.
  intros Hc n.
  split; [rewrite Next_advances; reflexivity |].
  split; [rewrite Next_advances; reflexivity |].
  destruct ts as [| t0 ts']; [left; split; reflexivity |].
  set (ts := t0 :: ts') in *.
  assert (Hne : ts <> []) by discriminate.
  assert (Hn : 0 < n) by (subst n ts; cbn [length]; lia).
  destruct (Z.ltb_spec c (2 ^ 63)) as [Hlow | Hhigh].
  - destruct (Next_low ts c ltac:(lia) Hne) as [t [Ht Hnext]].
    rewrite Hnext. cbn [fst]. left. split; [exact Hlow | exact Ht].
  - unfold RoundRobin.Next. cbn [RoundRobin.targets RoundRobin.cursor]. cbv zeta.
    fold n. destruct (Z.eqb_spec n 0) as [Hz | _]; [lia |].
    rewrite uint64_back by lia.
    unfold RoundRobin.int_of_uint64.
    destruct (Z.ltb_spec c (2 ^ 63)) as [Hlt | _]; [lia |].
    replace (c - 2 ^ 64) with (- (2 ^ 64 - c)) by lia.
    rewrite Z.rem_opp_l by lia. rewrite Z.rem_mod_nonneg by lia.
    assert (Hm : 0 <= (2 ^ 64 - c) mod n < n) by (apply Z.mod_pos_bound; lia).
    destruct (Z.eqb_spec ((2 ^ 64 - c) mod n) 0) as [Hzero | Hrem].
    + rewrite Hzero. cbn [Z.opp Z.ltb Z.compare Z.to_nat].
      subst ts. cbn [lookup list_lookup fst].
      right. split; [exact Hhigh |]. split; reflexivity.
    + destruct (Z.ltb_spec (- ((2 ^ 64 - c) mod n)) 0) as [_ | Hge]; [| lia].
      cbn [fst]. right. repeat split; assumption.
Qed.

(** X5 on three targets, at the first cursor value past the signed range. *)
Lemma Next_outcomes_witness :
  let t := Upstream.mkTarget (NetURL.mkURL "http" "" None "cluster-a" "" false "" "") in
  fst (RoundRobin.Next (RoundRobin.mkPool [t; t; t] (2 ^ 63))) =
    Panic "runtime error: index out of range" /\
  fst (RoundRobin.Next (RoundRobin.NewPool [])) =
    Panic "runtime error: integer divide by zero" /\
  RoundRobin.cursor (snd (RoundRobin.Next (RoundRobin.mkPool [t; t; t] (2 ^ 64 - 1)))) = 0.
Proof.
  intros t. split; [reflexivity |]. split; [reflexivity |].
  destruct (Next_outcomes [t; t; t] (2 ^ 64 - 1)) as [Hcursor _]; [lia |].
  rewrite Hcursor. reflexivity.
Defined.

(** ** Parsing of the configured targets *)

Section ParsedTargets.
Import Strings NetURL Upstream Cutset Parsers.
Context (Parse : string -> URL + error) (Quote : string -> string).

Lemma TrimRight_last (s : string) (c : ascii) : last_byte (TrimRight s c) <> Some c.
Proof.
  induction s as [| d rest IH]; [discriminate |].
  cbn [TrimRight]. destruct (TrimRight rest c) as [| e kept] eqn:Hk.
  - destruct (Ascii.eqb_spec d c) as [-> | Hne]; [discriminate |].
    cbn. congruence.
  - rewrite last_byte_cons. exact IH.
Qed.

Lemma scheme_test (u : URL) :
  negb (String.eqb (Scheme u) "http") && negb (String.eqb (Scheme u) "https") =
    negb (bool_decide (Scheme u = "http"%string \/ Scheme u = "https"%string)).
Proof.
  destruct (String.eqb_spec (Scheme u) "http") as [Hh | Hh];
    destruct (String.eqb_spec (Scheme u) "https") as [Hs | Hs]; cbn;
    symmetry; first [ apply negb_false_iff, bool_decide_eq_true_2; tauto
                    | apply negb_true_iff, bool_decide_eq_false_2; tauto ].
Qed.

Lemma memberLoop_outcome (raw : list string) :
  forall acc,
    match memberLoop Parse Quote raw acc with
    | Val ts => exists new, ts = (acc ++ new)%list /\ Forall2 (memberOf Parse) raw new
    | Fail e => exists v, v ∈ raw /\ memberError Parse Quote v e
    | Panic _ => False
    end.
Proof.
  induction raw as [| v rest IH]; intros acc.
  - cbn [memberLoop]. exists []. split; [symmetry; apply app_nil_r | constructor].
  - cbn [memberLoop]. destruct (EqualFold v "direct://") eqn:Hd.
    + specialize (IH (acc ++ [mkMemberTarget MemberTargetDirect None])%list).
      destruct (memberLoop Parse Quote rest _) as [ts | e | msg]; [| | exact IH].
      * destruct IH as [new [-> Hnew]]. eexists (_ :: new). split.
        -- rewrite <- app_assoc. reflexivity.
        -- constructor; [| exact Hnew]. unfold memberOf. rewrite Hd. reflexivity.
      * destruct IH as [w [Hw He]]. exists w. split; [right; exact Hw | exact He].
    + destruct (Parse v) as [u | err] eqn:Hp.
      * rewrite scheme_test. case_bool_decide as Hs; cbn [negb].
        -- specialize (IH (acc ++ [mkMemberTarget MemberTargetStatic
                                      (Some (with_path u (TrimRight (Path u) slash)))])%list).
           destruct (memberLoop Parse Quote rest _) as [ts | e | msg]; [| | exact IH].
           ++ destruct IH as [new [-> Hnew]]. eexists (_ :: new). split.
              ** rewrite <- app_assoc. reflexivity.
              ** constructor; [| exact Hnew]. unfold memberOf. rewrite Hd.
                 exists u. split; [exact Hp |]. split; [exact Hs | reflexivity].
           ++ destruct IH as [w [Hw He]]. exists w. split; [right; exact Hw | exact He].
        -- exists v. split; [left |]. split; [exact Hd |]. right.
           exists u. split; [exact Hp |]. repeat split; tauto.
      * exists v. split; [left |]. split; [exact Hd |]. left.
        exists err. split; [exact Hp | reflexivity].
Qed.

Lemma providerLoop_outcome (raw : list string) :
  forall acc,
    match providerLoop Parse Quote raw acc with
    | Val us =>
        exists new, us = (acc ++ new)%list /\
          Forall2 (fun v u => Parse v = inl u /\
                              (Scheme u = "http" \/ Scheme u = "https")%string) raw new
    | Fail e =>
        exists v, v ∈ raw /\
          ((exists err, Parse v = inr err /\
                        e = ("parse provider target " ++ Quote v ++ ": " ++ err)%string) \/
           (exists u, Parse v = inl u /\
                      Scheme u <> "http"%string /\ Scheme u <> "https"%string /\
                      e = ("provider target " ++ Quote v
                             ++ " must use http or https scheme")%string))
    | Panic _ => False
    end.
Proof.
  induction raw as [| v rest IH]; intros acc.
  - cbn [providerLoop]. exists []. split; [symmetry; apply app_nil_r | constructor].
  - cbn [providerLoop]. destruct (Parse v) as [u | err] eqn:Hp.
    + rewrite scheme_test. case_bool_decide as Hs; cbn [negb].
      * specialize (IH (acc ++ [u])%list).
        destruct (providerLoop Parse Quote rest _) as [us | e | msg]; [| | exact IH].
        -- destruct IH as [new [-> Hnew]]. exists (u :: new). split.
           ++ rewrite <- app_assoc. reflexivity.
           ++ constructor; [split; [exact Hp | exact Hs] | exact Hnew].
        -- destruct IH as [w [Hw He]]. exists w. split; [right; exact Hw | exact He].
      * exists v. split; [left |]. right.
        exists u. split; [exact Hp |]. repeat split; tauto.
    + exists v. split; [left |]. left. exists err. split; [exact Hp | reflexivity].
Qed.

(** The targets of a successful parse, one by one. *)
Lemma ParseMemberTargets_Val (raw : list string) (ts : list MemberTarget) :
  ParseMemberTargets Parse Quote raw = Val ts ->
  raw <> [] /\ Forall2 (memberOf Parse) raw ts.
Proof.
  unfold ParseMemberTargets. destruct raw as [| v rest]; [discriminate |].
  cbn [length Nat.eqb]. intros Hr.
  pose proof (memberLoop_outcome (v :: rest) []) as Hout. rewrite Hr in Hout.
  destruct Hout as [new [-> Hnew]]. split; [discriminate | exact Hnew].
Qed.

Lemma memberOf_kinds (v : string) (t : MemberTarget) :
  memberOf Parse v t ->
  (Kind t = MemberTargetDirect /\ Base t = None) \/
  (Kind t = MemberTargetStatic /\
   exists u, Base t = Some u /\ (Scheme u = "http" \/ Scheme u = "https")%string /\
             last_byte (Path u) <> Some slash).
Proof.
  unfold memberOf. destruct (EqualFold v "direct://").
  - intros ->. left. split; reflexivity.
  - intros [u [_ [Hs ->]]]. right. split; [reflexivity |].
    eexists. split; [reflexivity |]. split; [exact Hs | apply TrimRight_last].
Qed.

End ParsedTargets.

(** X6: [ParseMemberTargets] never panics, and its outcome is read off the
    raw entries.  It returns a list exactly when the input is not empty and
    every entry is accepted; the list then has one target per entry, in
    order: a direct target (with no base) for an entry equal to [direct://]
    up to letter case, and for any other entry a static target whose base
    is the parsed URL, of scheme http or https, with the slashes at the end
    of its path removed, so that the base path never ends in a slash.  It
    returns an error for the empty input, and otherwise the error of an
    entry that does not parse or has another scheme; no partial list is
    returned. *)
Theorem ParseMemberTargets_outcome
    (Parse : string -> NetURL.URL + error) (Quote : string -> string) (raw : list string) :
  match Parsers.ParseMemberTargets Parse Quote raw with
  | Val ts =>
      raw <> [] /\
      Forall2 (fun v t =>
        if Cutset.EqualFold v "direct://"
        then t = Upstream.mkMemberTarget Upstream.MemberTargetDirect None
        else exists u,
            Parse v = inl u /\
            (NetURL.Scheme u = "http" \/ NetURL.Scheme u = "https")%string /\
            t = Upstream.mkMemberTarget Upstream.MemberTargetStatic
                  (Some (NetURL.with_path u (Cutset.TrimRight (NetURL.Path u) Strings.slash))) /\
            Strings.last_byte (Cutset.TrimRight (NetURL.Path u) Strings.slash)
              <> Some Strings.slash) raw ts
  | Fail e =>
      (raw = [] /\ e = "no member targets provided"%string) \/
      exists v, v ∈ raw /\ Cutset.EqualFold v "direct://" = false /\
        ((exists err, Parse v = inr err /\
                      e = ("parse member target " ++ Quote v ++ ": " ++ err)%string) \/
         (exists u, Parse v = inl u /\
                    NetURL.Scheme u <> "http"%string /\ NetURL.Scheme u <> "https"%string /\
                    e = ("member target " ++ Quote v
                           ++ " must use http or https scheme")%string))
  | Panic _ => False
  end.
Proof.
  unfold Parsers.ParseMemberTargets. destruct raw as [| v rest].
  - left. split; reflexivity.
  - cbn [length Nat.eqb].
    pose proof (memberLoop_outcome Parse Quote (v :: rest) []) as Hout.
    destruct (Parsers.memberLoop Parse Quote (v :: rest) []) as [ts | e | msg];
      [| | exact Hout].
    + destruct Hout as [new [-> Hnew]]. split; [discriminate |].
      cbn [app]. eapply Forall2_impl; [exact Hnew |].
      intros w t. unfold Parsers.memberOf.
      destruct (Cutset.EqualFold w "direct://"); [tauto |].
      intros [u [Hp [Hs ->]]]. exists u.
      split; [exact Hp |]. split; [exact Hs |]. split; [reflexivity |].
      apply TrimRight_last.
    + right. destruct Hout as [w [Hw [Hd He]]]. exists w.
      split; [exact Hw |]. split; [exact Hd | exact He].
Qed.

(** X7: [ParseProviderTargets] never panics.  It returns a list exactly
    when the input is not empty and every entry parses to a URL of scheme
    http or https; the list then holds the parsed URLs, one per entry, in
    order and unchanged (a path is not trimmed here).  Otherwise it returns
    an error and no list. *)
Theorem ParseProviderTargets_outcome
    (Parse : string -> NetURL.URL + error) (Quote : string -> string) (raw : list string) :
  match Parsers.ParseProviderTargets Parse Quote raw with
  | Val us =>
      raw <> [] /\
      Forall2 (fun v u => Parse v = inl u /\
                          (NetURL.Scheme u = "http" \/ NetURL.Scheme u = "https")%string)
              raw us
  | Fail e =>
      (raw = [] /\ e = "no provider targets provided"%string) \/
      exists v, v ∈ raw /\
        ((exists err, Parse v = inr err /\
                      e = ("parse provider target " ++ Quote v ++ ": " ++ err)%string) \/
         (exists u, Parse v = inl u /\
                    NetURL.Scheme u <> "http"%string /\ NetURL.Scheme u <> "https"%string /\
                    e = ("provider target " ++ Quote v
                           ++ " must use http or https scheme")%string))
  | Panic _ => False
  end.
Proof.
  unfold Parsers.ParseProviderTargets. destruct raw as [| v rest].
  - left. split; reflexivity.
  - cbn [length Nat.eqb].
    pose proof (providerLoop_outcome Parse Quote (v :: rest) []) as Hout.
    destruct (Parsers.providerLoop Parse Quote (v :: rest) []) as [us | e | msg];
      [| | exact Hout].
    + destruct Hout as [new [-> Hnew]]. split; [discriminate | exact Hnew].
    + right. exact Hout.
Qed.

(** ** Direct targets: the Roblox host read off the path *)

Section DirectTargets.
Import Strings NetURL HTTP Upstream Cutset Member.

Lemma Split_nonempty (s : string) (c : ascii) : Split s c <> [].
Proof.
  destruct s as [| d rest]; [discriminate |].
  cbn [Split]. destruct (Ascii.eqb d c); [discriminate |].
  destruct (Split rest c); discriminate.
Qed.

Lemma mem_byte_cons_false (c d : ascii) (s : string) :
  mem_byte c (String d s) = false -> Ascii.eqb d c = false /\ mem_byte c s = false.
Proof.
  cbn [mem_byte]. intros H. apply orb_false_elim in H as [Hd Hs].
  rewrite Ascii.eqb_sym. split; assumption.
Qed.

Lemma Split_no_sep (a : string) (c : ascii) : mem_byte c a = false -> Split a c = [a].
Proof.
  induction a as [| d a IH]; intros Hm; [reflexivity |].
  apply mem_byte_cons_false in Hm as [Hd Ha].
  cbn [Split]. rewrite Hd, (IH Ha). reflexivity.
Qed.

Lemma Split_app (a rest : string) (c : ascii) :
  mem_byte c a = false -> Split (a ++ String c rest) c = a :: Split rest c.
Proof.
  induction a as [| d a IH]; intros Hm.
  - change (EmptyString ++ String c rest)%string with (String c rest).
    cbn [Split]. rewrite Ascii.eqb_refl. reflexivity.
  - apply mem_byte_cons_false in Hm as [Hd Ha].
    rewrite append_cons. cbn [Split]. rewrite Hd, (IH Ha). reflexivity.
Qed.

Lemma Join_cons2 (e f : string) (rest : list string) (sep : string) :
  Join (e :: f :: rest) sep = (e ++ sep ++ Join (f :: rest) sep)%string.
Proof. reflexivity. Qed.

(** Splitting at the slashes and joining with slashes gives the string back. *)
Lemma Join_Split (s : string) : Join (Split s slash) "/" = s.
Proof.
  induction s as [| c s IH]; [reflexivity |].
  cbn [Split]. pose proof (Split_nonempty s slash) as Hne.
  destruct (Split s slash) as [| seg segs]; [congruence |].
  destruct (Ascii.eqb_spec c slash) as [-> | _].
  - rewrite Join_cons2, IH. reflexivity.
  - destruct segs as [| x xs].
    + cbn [Join] in *. rewrite IH. reflexivity.
    + rewrite Join_cons2 in *. rewrite append_cons, IH. reflexivity.
Qed.

Lemma resolve_two (lead domain : string) :
  mem_byte slash lead = false -> mem_byte slash domain = false -> domain <> EmptyString ->
  resolveRobloxTarget (lead ++ String slash domain) =
    Val ((domain ++ ".roblox.com")%string, "/"%string).
Proof.
  intros Hl Hd Hne. unfold resolveRobloxTarget.
  rewrite (Split_app lead domain slash Hl), (Split_no_sep domain slash Hd).
  cbn [length Nat.ltb Nat.leb nth orb skipn Join].
  rewrite (is_empty_false domain Hne). reflexivity.
Qed.

Lemma resolve_three (lead domain rest : string) :
  mem_byte slash lead = false -> mem_byte slash domain = false -> domain <> EmptyString ->
  resolveRobloxTarget (lead ++ String slash (domain ++ String slash rest)) =
    Val ((domain ++ ".roblox.com")%string, String slash rest).
Proof.
  intros Hl Hd Hne. unfold resolveRobloxTarget.
  rewrite (Split_app lead _ slash Hl), (Split_app domain rest slash Hd).
  pose proof (Split_nonempty rest slash) as Hsplit.
  destruct (Split rest slash) as [| seg segs] eqn:Hs; [congruence |].
  cbn [length Nat.ltb Nat.leb nth orb skipn].
  rewrite (is_empty_false domain Hne). cbv zeta. rewrite <- Hs, Join_Split.
  destruct rest; reflexivity.
Qed.

Lemma resolve_none (lead : string) :
  mem_byte slash lead = false -> resolveRobloxTarget lead = Fail errBadPath.
Proof.
  intros Hl. unfold resolveRobloxTarget. rewrite (Split_no_sep lead slash Hl). reflexivity.
Qed.

Lemma resolve_empty_segment (lead rest : string) :
  mem_byte slash lead = false ->
  resolveRobloxTarget (lead ++ String slash (String slash rest)) = Fail errBadPath.
Proof.
  intros Hl. unfold resolveRobloxTarget. rewrite (Split_app lead _ slash Hl).
  cbn [Split]. rewrite Ascii.eqb_refl.
  cbn [length Nat.ltb Nat.leb nth orb is_empty]. reflexivity.
Qed.

Lemma resolve_trailing (lead : string) :
  mem_byte slash lead = false ->
  resolveRobloxTarget (lead ++ String slash EmptyString) = Fail errBadPath.
Proof.
  intros Hl. unfold resolveRobloxTarget. rewrite (Split_app lead _ slash Hl). reflexivity.
Qed.

(** A handler all of whose targets are direct answers from the path alone. *)
Lemma chooseTarget_all_direct (h : Handler) (path rawQuery : string) :
  targets h <> [] ->
  Z.of_nat (length (targets h)) < 2 ^ 32 ->
  Forall (fun t => Kind t = MemberTargetDirect) (targets h) ->
  chooseTarget h path rawQuery =
    match resolveRobloxTarget path with
    | Val (host, rewritten) => Val (mkURL "https" "" None host rewritten false rawQuery "")
    | Fail e => Fail e
    | Panic msg => Panic msg
    end.
Proof.
  intros Hne Hlt Hall.
  assert (Hpos : 0 < Z.of_nat (length (targets h)))
    by (destruct (targets h); [congruence | cbn [length]; lia]).
  assert (Hn : 0 < Z.of_nat (length (targets h)) < 2 ^ 32) by lia.
  unfold chooseTarget.
  destruct (Nat.eqb_spec (length (targets h)) 0) as [Hz | _]; [lia |].
  rewrite (selectIndex_small h path rawQuery Hn).
  set (idx := Util.Sum32a (routingKey path rawQuery) mod Z.of_nat (length (targets h))).
  assert (Hidx : 0 <= idx < Z.of_nat (length (targets h)))
    by (apply Z.mod_pos_bound; lia).
  destruct (lookup_lt_is_Some_2 (targets h) (Z.to_nat idx)) as [t Ht]; [lia |].
  rewrite Ht. unfold targetURL.
  rewrite Forall_lookup in Hall. rewrite (Hall _ _ Ht). reflexivity.
Qed.

Lemma TrimLeft_fixed (s : string) (c : ascii) : mem_byte c s = false -> TrimLeft s c = s.
Proof.
  destruct s as [| d s]; [reflexivity | intros Hm].
  apply mem_byte_cons_false in Hm as [Hd _]. cbn [TrimLeft]. rewrite Hd. reflexivity.
Qed.

Lemma TrimRight_fixed (s : string) (c : ascii) : mem_byte c s = false -> TrimRight s c = s.
Proof.
  induction s as [| d s IH]; intros Hm; [reflexivity |].
  apply mem_byte_cons_false in Hm as [Hd Hs].
  cbn [TrimRight]. rewrite (IH Hs), Hd. destruct s; reflexivity.
Qed.

Lemma TrimRight_cons (d : ascii) (s : string) (c : ascii) :
  TrimRight s c <> EmptyString -> TrimRight (String d s) c = String d (TrimRight s c).
Proof.
  intros Hne. cbn [TrimRight]. destruct (TrimRight s c); [congruence | reflexivity].
Qed.

Lemma TrimLeft_no_lead (s : string) (c : ascii) : first_byte (TrimLeft s c) <> Some c.
Proof.
  induction s as [| d s IH]; [discriminate |].
  cbn [TrimLeft]. destruct (Ascii.eqb_spec d c) as [-> | Hne]; [exact IH |].
  cbn. congruence.
Qed.

Lemma servicePath_plain (service path : string) :
  mem_byte slash service = false -> service <> EmptyString ->
  MemberFetch.servicePath service path =
    (service,
     if is_empty path then String slash service
     else (String slash service ++ String slash (TrimLeft path slash))%string).
Proof.
  intros Hs Hne. unfold MemberFetch.servicePath, Trim.
  rewrite (TrimRight_fixed service slash Hs), (TrimLeft_fixed service slash Hs).
  change ("/" ++ service)%string with (String slash service).
  rewrite TrimRight_cons by (rewrite (TrimRight_fixed service slash Hs); exact Hne).
  rewrite (TrimRight_fixed service slash Hs). reflexivity.
Qed.

End DirectTargets.

(** X8: the Roblox service is the second segment of the path.  For a path
    [lead/domain/rest], where [lead] (the text before the first slash; empty
    for a path that starts with a slash) and the non-empty [domain] hold no
    slash, [resolveRobloxTarget] returns the host [domain.roblox.com] and the
    path [/rest], with [rest] byte for byte as in the request; for
    [lead/domain] it returns the path [/].  The text before the first slash
    plays no part. *)
Theorem resolveRobloxTarget_segments (lead domain rest : string) :
  HTTP.mem_byte Strings.slash lead = false ->
  HTTP.mem_byte Strings.slash domain = false ->
  domain <> EmptyString ->
  Member.resolveRobloxTarget (lead ++ "/" ++ domain ++ "/" ++ rest) =
    Val ((domain ++ ".roblox.com")%string, ("/" ++ rest)%string) /\
  Member.resolveRobloxTarget (lead ++ "/" ++ domain) =
    Val ((domain ++ ".roblox.com")%string, "/"%string).
Proof.
  intros Hl Hd Hne. split.
  - apply (resolve_three lead domain rest Hl Hd Hne).
  - apply (resolve_two lead domain Hl Hd Hne).
Qed.

(** X8 on the path [/users/v1/users/5]. *)
Lemma resolveRobloxTarget_segments_witness :
  Member.resolveRobloxTarget "/users/v1/users/5" =
    Val ("users.roblox.com"%string, "/v1/users/5"%string) /\
  Member.resolveRobloxTarget "/users" = Val ("users.roblox.com"%string, "/"%string).
Proof.
  apply (resolveRobloxTarget_segments "" "users" "v1/users/5").
  - reflexivity.
  - reflexivity.
  - discriminate.
Defined.

(** X9: paths without a service.  [resolveRobloxTarget] fails with
    [errBadPath] on a path that holds no slash (the empty path among them),
    on one whose only slash is its last byte (the root path [/] among them)
    and on one whose first slash is followed by another slash. *)
Theorem resolveRobloxTarget_bad_path (lead rest : string) :
  HTTP.mem_byte Strings.slash lead = false ->
  Member.resolveRobloxTarget lead = Fail Member.errBadPath /\
  Member.resolveRobloxTarget (lead ++ "/") = Fail Member.errBadPath /\
  Member.resolveRobloxTarget (lead ++ "//" ++ rest) = Fail Member.errBadPath.
Proof.
  intros Hl. split; [| split].
  - apply resolve_none, Hl.
  - apply resolve_trailing, Hl.
  - apply (resolve_empty_segment lead rest Hl).
Qed.

(** X9 on the empty path, the root path and [//users/v1]. *)
Lemma resolveRobloxTarget_bad_path_witness :
  Member.resolveRobloxTarget "" = Fail Member.errBadPath /\
  Member.resolveRobloxTarget "/" = Fail Member.errBadPath /\
  Member.resolveRobloxTarget "//users/v1" = Fail Member.errBadPath.
Proof. apply (resolveRobloxTarget_bad_path "" "users/v1"). reflexivity. Defined.

(** X10: with direct targets only, the index plays no part.  A handler with
    at least one and fewer than 2^32 targets, all of them direct, resolves
    the path [/domain/rest] with query [q] to
    [https://domain.roblox.com/rest?q], whatever target the hash selects. *)
Theorem chooseTarget_direct_url (h : Member.Handler) (domain rest rawQuery : string) :
  Member.targets h <> [] ->
  Z.of_nat (length (Member.targets h)) < 2 ^ 32 ->
  Forall (fun t => Upstream.Kind t = Upstream.MemberTargetDirect) (Member.targets h) ->
  HTTP.mem_byte Strings.slash domain = false ->
  domain <> EmptyString ->
  Member.chooseTarget h ("/" ++ domain ++ "/" ++ rest) rawQuery =
    Val (NetURL.mkURL "https" "" None (domain ++ ".roblox.com") ("/" ++ rest) false rawQuery "").
Proof.
  intros Hne Hlt Hall Hd Hdne.
  rewrite (chooseTarget_all_direct h _ rawQuery Hne Hlt Hall).
  change ("/" ++ domain ++ "/" ++ rest)%string
    with (EmptyString ++ String Strings.slash (domain ++ String Strings.slash rest))%string.
  rewrite (resolve_three EmptyString domain rest eq_refl Hd Hdne). reflexivity.
Qed.

(** X10 on two direct targets and the request [/thumbnails/v1/users/avatar-bust?size=48x48]. *)
Lemma chooseTarget_direct_url_witness :
  let d := Upstream.mkMemberTarget Upstream.MemberTargetDirect None in
  let h := Member.mkHandler (Member.mkConfig 60 30 5) (Proxy.mkForwarder true 5) [d; d] in
  Member.chooseTarget h "/thumbnails/v1/users/avatar-bust" "size=48x48" =
    Val (NetURL.mkURL "https" "" None "thumbnails.roblox.com" "/v1/users/avatar-bust"
           false "size=48x48" "").
Proof.
  intros d h.
  apply (chooseTarget_direct_url h "thumbnails" "v1/users/avatar-bust" "size=48x48").
  - discriminate.
  - cbn. lia.
  - repeat constructor.
  - reflexivity.
  - discriminate.
Defined.

(** X11: where [fetchJSON] sends its request on direct targets.  For a
    service name that is not empty and holds no slash the path asked of the
    selector is [/service] followed, when the path argument is not empty, by
    a slash and the path argument without its leading slashes; a handler
    with direct targets only, at least one and fewer than [2 ^ 32] of them,
    resolves it to [https://service.roblox.com/] followed by that same
    remainder.  So the user lookup for [userID] is sent to
    [https://users.roblox.com/v1/users/userID]. *)
Theorem fetchJSON_direct_target (h : Member.Handler) (service path rawQuery : string) :
  Member.targets h <> [] ->
  Z.of_nat (length (Member.targets h)) < 2 ^ 32 ->
  Forall (fun t => Upstream.Kind t = Upstream.MemberTargetDirect) (Member.targets h) ->
  HTTP.mem_byte Strings.slash service = false ->
  service <> EmptyString ->
  fst (MemberFetch.servicePath service path) = service /\
  Member.chooseTarget h (snd (MemberFetch.servicePath service path)) rawQuery =
    Val (NetURL.mkURL "https" "" None (service ++ ".roblox.com")
           ("/" ++ Cutset.TrimLeft path Strings.slash) false rawQuery "") /\
  forall userID,
    Member.chooseTarget h
      (snd (MemberFetch.servicePath "users" ("/v1/users/" ++ userID))) EmptyString =
      Val (NetURL.mkURL "https" "" None "users.roblox.com" ("/v1/users/" ++ userID)
             false "" "").
Proof.
  intros Hne Hlt Hall Hs Hsne.
  rewrite (servicePath_plain service path Hs Hsne). cbn [fst snd].
  split; [reflexivity |]. split.
  - rewrite (chooseTarget_all_direct h _ rawQuery Hne Hlt Hall).
    destruct path as [| c p]; cbn [Strings.is_empty].
    + pose proof (resolve_two EmptyString service eq_refl Hs Hsne) as Hr.
      change (EmptyString ++ String Strings.slash service)%string
        with (String Strings.slash service) in Hr.
      rewrite Hr. reflexivity.
    + pose proof (resolve_three EmptyString service
                    (Cutset.TrimLeft (String c p) Strings.slash) eq_refl Hs Hsne) as Hr.
      change (EmptyString ++ String Strings.slash
                (service ++ String Strings.slash
                   (Cutset.TrimLeft (String c p) Strings.slash)))%string
        with (String Strings.slash service
                ++ String Strings.slash (Cutset.TrimLeft (String c p) Strings.slash))%string
        in Hr.
      rewrite Hr. reflexivity.
  - intros userID.
    rewrite (chooseTarget_all_direct h _ EmptyString Hne Hlt Hall).
    pose proof (resolve_three EmptyString "users" ("v1/users/" ++ userID)
                  eq_refl eq_refl ltac:(discriminate)) as Hr.
    change (EmptyString ++ String Strings.slash
              ("users" ++ String Strings.slash ("v1/users/" ++ userID)))%string
      with (snd (MemberFetch.servicePath "users" ("/v1/users/" ++ userID))) in Hr.
    rewrite Hr. reflexivity.
Qed.

(** X11 on one direct target and the avatar endpoint. *)
Lemma fetchJSON_direct_target_witness :
  let d := Upstream.mkMemberTarget Upstream.MemberTargetDirect None in
  let h := Member.mkHandler (Member.mkConfig 60 30 5) (Proxy.mkForwarder true 5) [d] in
  Member.chooseTarget h
    (snd (MemberFetch.servicePath "thumbnails" "/v1/users/avatar-bust")) "userIds=5" =
    Val (NetURL.mkURL "https" "" None "thumbnails.roblox.com" "/v1/users/avatar-bust"
           false "userIds=5" "").
Proof.
  intros d h.
  destruct (fetchJSON_direct_target h "thumbnails" "/v1/users/avatar-bust" "userIds=5")
    as (_ & Htarget & _).
  - discriminate.
  - cbn. lia.
  - repeat constructor.
  - reflexivity.
  - discriminate.
  - exact Htarget.
Defined.

(** ** Handlers built by [New] *)

Section BuiltHandlers.
Import Strings NetURL HTTP Upstream Cutset Member.

Lemma resolveRobloxTarget_outcome (path : string) :
  match resolveRobloxTarget path with
  | Val _ => True
  | Fail e => e = errBadPath
  | Panic _ => False
  end.
Proof.
  unfold resolveRobloxTarget.
  destruct ((length (Split path slash) <? 2)%nat || _); [reflexivity | exact I].
Qed.

Lemma ResolveReference_scheme (u : URL) (path rawQuery : string) :
  Scheme (ResolveReference u (mkURL "" "" None "" path false rawQuery "")) = Scheme u.
Proof.
  unfold ResolveReference. cbn.
  destruct (is_empty path && negb (is_empty (Opaque u))); reflexivity.
Qed.

End BuiltHandlers.

(** X12: a handler built by [New] selects without panic.  [New] fails when
    the list of member clusters is empty or an entry is rejected.  When it
    succeeds on fewer than 2^32 entries, the handler has one target per
    entry, and for every path and query [chooseTarget] either returns a URL
    of scheme http or https or fails with [errBadPath]: it does not
    dereference a missing base, does not index outside the list and does
    not answer [errNoUpstreamTarget]. *)
Theorem New_chooseTarget_safe
    (Parse : string -> NetURL.URL + error) (Quote : string -> string)
    (cfg : Member.Config) (memberClusters : list string) (client : bool)
    (h : Member.Handler) :
  MemberFetch.New Parse Quote cfg memberClusters client = Val h ->
  Z.of_nat (length memberClusters) < 2 ^ 32 ->
  memberClusters <> [] /\
  length (Member.targets h) = length memberClusters /\
  Member.cfg h = cfg /\
  Proxy.RequestTimeout (Member.forwarder h) = Member.RequestTimeout cfg /\
  forall path rawQuery,
    match Member.chooseTarget h path rawQuery with
    | Val u => (NetURL.Scheme u = "http" \/ NetURL.Scheme u = "https")%string
    | Fail e => e = Member.errBadPath
    | Panic _ => False
    end.
Proof.
  unfold MemberFetch.New. intros Hnew Hlt.
  destruct (Parsers.ParseMemberTargets Parse Quote memberClusters) as [ts | e | msg] eqn:Hp;
    try discriminate Hnew.
  injection Hnew as <-. cbn [Member.targets Member.cfg Member.forwarder Proxy.RequestTimeout].
  destruct (ParseMemberTargets_Val Parse Quote memberClusters ts Hp) as [Hne Hall].
  pose proof (Forall2_length _ _ _ Hall) as Hlen.
  split; [exact Hne |]. split; [symmetry; exact Hlen |].
  split; [reflexivity |]. split; [reflexivity |].
  intros path rawQuery.
  assert (Hpos : 0 < Z.of_nat (length ts)).
  { rewrite <- Hlen. destruct memberClusters; [congruence | cbn [length]; lia]. }
  unfold Member.chooseTarget. cbn [Member.targets].
  destruct (Nat.eqb_spec (length ts) 0) as [Hz | _]; [lia |].
  match goal with
  | |- context [Member.selectIndex ?hh path rawQuery] =>
      rewrite (selectIndex_small hh path rawQuery) by (cbn [Member.targets]; lia)
  end.
  cbn [Member.targets].
  set (idx := Util.Sum32a (Member.routingKey path rawQuery) mod Z.of_nat (length ts)).
  assert (Hidx : 0 <= idx < Z.of_nat (length ts)) by (apply Z.mod_pos_bound; lia).
  destruct (lookup_lt_is_Some_2 ts (Z.to_nat idx)) as [t Ht]; [lia |].
  rewrite Ht.
  destruct (Forall2_lookup_r _ _ _ _ _ Hall Ht) as [v [_ Hv]].
  unfold Member.targetURL.
  destruct (memberOf_kinds Parse v t Hv) as [[Hk Hb] | [Hk [u [Hb [Hs _]]]]];
    rewrite Hk.
  - pose proof (resolveRobloxTarget_outcome path) as Hr.
    destruct (Member.resolveRobloxTarget path) as [[host rewritten] | e | msg];
      [right; reflexivity | exact Hr | exact Hr].
  - rewrite Hb. rewrite ResolveReference_scheme. exact Hs.
Qed.

(** X12 on the list [direct://], [http://cluster-a/api/], with a parser that
    knows this one URL. *)
Lemma New_chooseTarget_safe_witness :
  let Parse := fun v : string =>
    if String.eqb v "http://cluster-a/api/"
    then inl (NetURL.mkURL "http" "" None "cluster-a" "/api/" false "" "")
    else inr "unknown URL"%string in
  let Quote := fun v : string => ("'" ++ v ++ "'")%string in
  exists h,
    MemberFetch.New Parse Quote (Member.mkConfig 60 30 5)
      ["DIRECT://"; "http://cluster-a/api/"]%string true = Val h /\
    Member.targets h =
      [Upstream.mkMemberTarget Upstream.MemberTargetDirect None;
       Upstream.mkMemberTarget Upstream.MemberTargetStatic
         (Some (NetURL.mkURL "http" "" None "cluster-a" "/api" false "" ""))] /\
    match Member.chooseTarget h "/users/v1/users/5" "" with
    | Val u => (NetURL.Scheme u = "http" \/ NetURL.Scheme u = "https")%string
    | Fail e => e = Member.errBadPath
    | Panic _ => False
    end.
Proof.
  intros Parse Quote. eexists. split; [reflexivity |]. split; [reflexivity |].
  refine (proj2 (proj2 (proj2 (proj2
            (New_chooseTarget_safe Parse Quote (Member.mkConfig 60 30 5)
               ["DIRECT://"; "http://cluster-a/api/"]%string true _ eq_refl _))))
          "/users/v1/users/5"%string EmptyString).
  cbn. lia.
Defined.

(** ** What the lookup routes answer *)

Section Always.
Import HTTP Effects Leaves.

Lemma always_mono {R : Type} (p : Prog R) :
  forall (P Q : R -> Prop), (forall r, P r -> Q r) -> always P p -> always Q p.
Proof.
  induction p as [R r | R X c k IH | R key fn IHfn k IH | R task IHtask k IH | R msg];
    intros P Q HPQ; cbn [always].
  - apply HPQ.
  - intros H x. apply (IH x P Q HPQ), H.
  - intros [Hfn H]. split; [exact Hfn |]. intros res. apply (IH res P Q HPQ), H.
  - intros [Htask H]. split; [exact Htask |]. apply (IH P Q HPQ), H.
  - intros H. exact H.
Qed.

Lemma always_bind {A B : Type} (m : Prog A) :
  forall (f : A -> Prog B) (P : B -> Prop),
    always (fun a => always P (f a)) m -> always P (bind m f).
Proof.
  induction m as [R r | R X c k IH | R key fn IHfn k IH | R task IHtask k IH | R msg];
    intros f P; cbn [always bind].
  - intros H. exact H.
  - intros H x. apply IH, H.
  - intros [Hfn H]. split; [exact Hfn |]. intros res. apply IH, H.
  - intros [Htask H]. split; [exact Htask |]. apply IH, H.
  - intros H. exact H.
Qed.

(** Under the sequential reading a program that always ends in [P] returns
    a value that satisfies [P]. *)
Lemma run_always {W : Type} (env : Seq.Env W) {R : Type} (p : Prog R) :
  forall (P : R -> Prop) (w : W),
    always P p ->
    exists r w' trace, Seq.run env p w = (Some r, w', trace) /\ P r.
Proof.
  induction p as [R r | R X c k IH | R key fn IHfn k IH | R task IHtask k IH | R msg];
    intros P w; cbn [always Seq.run].
  - intros H. exists r, w, []. split; [reflexivity | exact H].
  - intros H. destruct (env X c w) as [x w1].
    destruct (IH x P w1 (H x)) as (r & w2 & t & Hrun & HP).
    rewrite Hrun. exists r, w2, (Seq.EvCall c x :: t). split; [reflexivity | exact HP].
  - intros [Hfn H].
    destruct (IHfn (fun _ => True) w Hfn) as (v & w1 & t1 & Hrun1 & _).
    rewrite Hrun1.
    destruct (IH v P w1 (H v)) as (r & w2 & t2 & Hrun2 & HP).
    rewrite Hrun2. eexists r, w2, _. split; [reflexivity | exact HP].
  - intros [_ H].
    destruct (IH P w H) as (r & w1 & t & Hrun & HP).
    rewrite Hrun. eexists r, w1, _. split; [reflexivity | exact HP].
  - intros H. contradiction.
Qed.

End Always.

Section LookupAnswers.
Import Strings HTTP Effects Leaves Member.

Lemma fetchAndStore_safe (h : Handler) (ctx : Ctx) (key : string) (fetch : FetchFn)
    (warning : string) :
  always (fun _ => True) (fetchAndStore h ctx key fetch warning).
Proof.
  unfold fetchAndStore, storeWithTTL, call. cbn [bind always].
  intros r. destruct (snd r) as [err |]; cbn [bind always]; [exact I |].
  intros serr. destruct serr as [err |]; cbn [bind always]; [intros _ |]; exact I.
Qed.

Lemma readThroughCache_safe (h : Handler) (ctx : Ctx) (key : string) (fetch : FetchFn) :
  always (fun _ => True) (readThroughCache h ctx key fetch).
Proof.
  unfold readThroughCache, call. cbn [bind always].
  intros [[entry ok] err]. destruct err as [e |]; cbn [always]; [exact I |].
  destruct ok.
  - cbn [bind always]. intros age.
    destruct (age >? _); [| exact I].
    unfold launchRefresh, refreshTask. cbn [bind always].
    split; [| exact I]. split; [apply fetchAndStore_safe |].
    intros res. destruct (snd res); cbn [call always]; [intros _ |]; exact I.
  - unfold coalescedFetch. cbn [always]. split; [apply fetchAndStore_safe |].
    intros res. unfold afterFlight. destruct (snd res); exact I.
Qed.

Lemma Set_lookup_same (h : Header) (key value : string) :
  CanonicalMIMEHeaderKey key = key -> Set_ h key value !! key = Some [value].
Proof. intros Hk. unfold Set_. rewrite Hk. apply lookup_insert_eq. Qed.

Lemma Set_lookup_other (h : Header) (key value name : string) :
  CanonicalMIMEHeaderKey key <> name -> Set_ h key value !! name = h !! name.
Proof. intros Hk. unfold Set_. apply lookup_insert_ne, Hk. Qed.

Lemma respondJSON_answer (w : ResponseWriter) (status : Z) (payload : string)
    (codes : list Z) :
  wSent w = None -> status ∈ codes -> status <> 200 ->
  lookupAnswer w (respondJSON w status payload) codes.
Proof.
  intros Hs Hin Hne. exists status. eexists.
  unfold respondJSON, Write, WriteHeader, HeaderSet. cbn [wSent wHeader wBody].
  rewrite Hs. cbn [wSent wHeader wBody].
  split; [reflexivity |]. split; [exact Hin |].
  destruct (Z.eqb_spec status 200) as [Heq | _]; [contradiction |].
  repeat split.
  - rewrite Set_lookup_other by discriminate. apply Set_lookup_same. reflexivity.
  - apply Set_lookup_same. reflexivity.
  - rewrite !Set_lookup_other by discriminate. reflexivity.
Qed.

Lemma respondCachedJSON_answer (w : ResponseWriter) (payload : string) (codes : list Z) :
  wSent w = None -> 200 ∈ codes ->
  lookupAnswer w (respondCachedJSON w payload) codes.
Proof.
  intros Hs Hin. exists 200. eexists.
  unfold respondCachedJSON, Write, WriteHeader, HeaderSet, StatusOK.
  cbn [wSent wHeader wBody]. rewrite Hs. cbn [wSent wHeader wBody].
  split; [reflexivity |]. split; [exact Hin |]. cbn [Z.eqb Pos.eqb].
  repeat split.
  - rewrite !Set_lookup_other by discriminate. apply Set_lookup_same. reflexivity.
  - rewrite Set_lookup_other by discriminate. apply Set_lookup_same. reflexivity.
  - apply Set_lookup_same. reflexivity.
Qed.

Lemma respondJSON_keeps (w : ResponseWriter) (status : Z) (payload name : string) :
  wSent w = None ->
  name ∉ ["Content-Type"; "Access-Control-Allow-Origin"; "Cache-Control"]%string ->
  exists sent,
    wSent (respondJSON w status payload) = Some (status, sent) /\
    sent !! name = wHeader w !! name.
Proof.
  intros Hs Hname. eexists.
  unfold respondJSON, Write, WriteHeader, HeaderSet. cbn [wSent wHeader wBody].
  rewrite Hs. cbn [wSent wHeader wBody]. split; [reflexivity |].
  rewrite !Set_lookup_other; [reflexivity | |];
    intros <-; apply Hname; repeat constructor.
Qed.

Lemma respondCachedJSON_keeps (w : ResponseWriter) (payload name : string) :
  wSent w = None ->
  name ∉ ["Content-Type"; "Access-Control-Allow-Origin"; "Cache-Control"]%string ->
  exists sent,
    wSent (respondCachedJSON w payload) = Some (200, sent) /\
    sent !! name = wHeader w !! name.
Proof.
  intros Hs Hname. eexists.
  unfold respondCachedJSON, Write, WriteHeader, HeaderSet, StatusOK.
  cbn [wSent wHeader wBody]. rewrite Hs. cbn [wSent wHeader wBody].
  split; [reflexivity |].
  rewrite !Set_lookup_other; [reflexivity | | |];
    intros <-; apply Hname; repeat constructor.
Qed.

(** The lookup routes end in one of three answers. *)
Lemma lookup_routes_always (lib : Lib) (h : Handler) (w : ResponseWriter) (r : Request)
    (P : ResponseWriter -> Prop) :
  Trim.TrimSpace (ValuesGet (Query r) "userId") <> EmptyString \/
  Trim.TrimSpace (ValuesGet (Query r) "search") <> EmptyString ->
  (forall body, P (respondJSON w 400 body)) ->
  (forall e, P (respondError w 500 (Some e))) ->
  (forall payload, P (respondCachedJSON w payload)) ->
  always P (ServeHTTP lib h w r).
Proof.
  intros Hparam Hbad Hfail Hgood.
  assert (Hlookup : forall (key : string) (fetch : FetchFn) (ctx : Ctx)
            (level : Level) (msg : string) (attrs : error -> list (string * string)),
            always P
              (bind (readThroughCache h ctx key fetch)
                 (fun res =>
                    match snd res with
                    | Some err =>
                        bind (call (Log level msg (attrs err)))
                          (fun _ => Ret (respondError w 500 (Some err)))
                    | None => Ret (respondCachedJSON w (fst res))
                    end))).
  { intros key fetch ctx level msg attrs. apply always_bind.
    eapply always_mono; [| apply readThroughCache_safe].
    intros res _. destruct (snd res) as [err |]; cbn [bind call always].
    - intros _. apply Hfail.
    - apply Hgood. }
  unfold ServeHTTP. cbv zeta.
  destruct (is_empty (Trim.TrimSpace (ValuesGet (Query r) "userId"))) eqn:Huser; cbn [negb].
  - destruct (is_empty (Trim.TrimSpace (ValuesGet (Query r) "search"))) eqn:Hsearch;
      cbn [negb].
    + destruct Hparam as [Hne | Hne]; apply is_empty_false in Hne; congruence.
    + unfold handleSearch. cbv zeta.
      destruct (String.length _ <? 3)%nat; [cbn [always]; apply Hbad |].
      apply (Hlookup _ _ _ LError "search failed"
               (fun err => [("query"%string, _); ("error"%string, err)])).
  - unfold handleUserLookup.
    destruct (isNumeric _); cbn [negb]; [| cbn [always]; apply Hbad].
    apply (Hlookup _ _ _ LError "user lookup failed"
             (fun err => [("userId"%string, _); ("error"%string, err)])).
Qed.

End LookupAnswers.

(** X13: what the lookup routes answer.  When the trimmed [userId] or the
    trimmed [search] parameter is not empty, the handler, given a writer on
    which nothing was sent, ends by writing one status line, whatever the
    store, the clock, the fetch closure and the group answer: the status is
    200, 400 or 500, the headers sent carry the content type
    [application/json] and [Access-Control-Allow-Origin: *], and
    [Cache-Control: max-age=18000] is set on status 200 only (on the other
    two the header is as the writer had it).  No panic is raised on these
    routes. *)
Theorem ServeHTTP_lookup_answers
    (lib : Lib) (h : Member.Handler) (w : HTTP.ResponseWriter) (r : HTTP.Request) :
  HTTP.wSent w = None ->
  Trim.TrimSpace (HTTP.ValuesGet (HTTP.Query r) "userId") <> EmptyString \/
  Trim.TrimSpace (HTTP.ValuesGet (HTTP.Query r) "search") <> EmptyString ->
  Leaves.always (fun w' => Leaves.lookupAnswer w w' [200; 400; 500])
    (Member.ServeHTTP lib h w r) /\
  forall (W : Type) (env : Seq.Env W) (world : W),
    exists w' world' trace,
      Seq.run env (Member.ServeHTTP lib h w r) world = (Some w', world', trace) /\
      Leaves.lookupAnswer w w' [200; 400; 500].
Proof.
  intros Hfresh Hparam.
  assert (Halways : Leaves.always (fun w' => Leaves.lookupAnswer w w' [200; 400; 500])
                      (Member.ServeHTTP lib h w r)).
  { apply lookup_routes_always; [exact Hparam | | |].
    - intros body.
      apply respondJSON_answer; [exact Hfresh | repeat constructor | discriminate].
    - intros e.
      apply respondJSON_answer; [exact Hfresh | repeat constructor | discriminate].
    - intros payload.
      apply respondCachedJSON_answer; [exact Hfresh | repeat constructor]. }
  split; [exact Halways |].
  intros W env world. apply run_always, Halways.
Qed.

(** X13 on the request [GET /?userId=5] and a store that holds the user. *)
Lemma ServeHTTP_lookup_answers_witness :
  let r := HTTP.mkRequest "GET" (NetURL.mkURL "" "" None "" "/" false "userId=5" "")
             {["userId" := ["5"%string]]} ∅ None 0 [] ∅ "proxy.local" "10.0.0.1:4242"
             false (HTTP.RequestContext 0) in
  let h := Member.mkHandler (Member.mkConfig 60 30 5) (Proxy.mkForwarder true 5)
             [Upstream.mkMemberTarget Upstream.MemberTargetDirect None] in
  let world := Mem.mkWorld {["roblox:user:5" := Effects.mkEntry "{}" 0]} 10 [] None None
                 (inr "no upstream") in
  exists w' world' trace,
    Seq.run Mem.env (Member.ServeHTTP Mem.lib h HTTP.newWriter r) world
      = (Some w', world', trace) /\
    Leaves.lookupAnswer HTTP.newWriter w' [200; 400; 500].
Proof.
  intros r h world.
  refine (proj2 (ServeHTTP_lookup_answers Mem.lib h HTTP.newWriter r eq_refl _)
            Mem.World Mem.env world).
  left. vm_compute. discriminate.
Defined.

(** ** The passthrough route *)

Section Passthrough.
Import Strings NetURL HTTP Effects Member.
Context {W : Type} (env : Seq.Env W) (lib : Lib).

Lemma run_bind {A B : Type} (m : Prog A) :
  forall (f : A -> Prog B) (w : W),
    Seq.run env (bind m f) w =
      let '(ra, w1, t1) := Seq.run env m w in
      match ra with
      | Some a => let '(rb, w2, t2) := Seq.run env (f a) w1 in (rb, w2, (t1 ++ t2)%list)
      | None => (None, w1, t1)
      end.
Proof.
  induction m as [R r | R X c k IH | R key fn IHfn k IH | R task IHtask k IH | R msg];
    intros f w; cbn [bind Seq.run].
  - destruct (Seq.run env (f r) w) as [[rb w2] t2]. reflexivity.
  - destruct (env X c w) as [x w1]. rewrite IH.
    destruct (Seq.run env (k x) w1) as [[ra w2] t1].
    destruct ra as [a |]; [| reflexivity].
    destruct (Seq.run env (f a) w2) as [[rb w3] t2]. reflexivity.
  - destruct (Seq.run env fn w) as [[res w1] t1].
    destruct res as [v |]; [| reflexivity].
    rewrite IH. destruct (Seq.run env (k v) w1) as [[ra w2] t2].
    destruct ra as [a |]; [| reflexivity].
    destruct (Seq.run env (f a) w2) as [[rb w3] t3].
    cbn [app]. rewrite app_assoc. reflexivity.
  - rewrite IH. destruct (Seq.run env k w) as [[ra w1] t1].
    destruct ra as [a |]; [| reflexivity].
    destruct (Seq.run env (f a) w1) as [[rb w2] t2]. reflexivity.
  - reflexivity.
Qed.

(** The log entry [Forwarder.Do] writes first. *)
Lemma run_Do (f : Proxy.Forwarder) (w : ResponseWriter) (r : Request) (target : URL)
    (upstreamReq : Request) (world : W) :
  Proxy.Client f = true ->
  Proxy.cloneRequestWithURL lib (WithTimeout (ReqContext r) (Proxy.RequestTimeout f)) r target
    = Val upstreamReq ->
  let entry := Log LInfo "forwarding request"
                 [("method", Method r); ("url", URLString lib (URL_ r));
                  ("target", URLString lib target)]%string in
  Seq.run env (Proxy.Do lib f w r target) world =
    let '(u, world1) := env _ entry world in
    let '(res, world2) := env _ (ClientDo upstreamReq) world1 in
    match res with
    | inr e =>
        (Some (w, Some e), world2,
         [Seq.EvCall entry u; Seq.EvCall (ClientDo upstreamReq) (inr e)])
    | inl reqResp =>
        let w1 := WriteHeader
                    (mkWriter (Proxy.delHopHeaders
                                 (Proxy.copyHeaders (wHeader w) (RespHeader reqResp)))
                              (wSent w) (wBody w))
                    (StatusCode reqResp) in
        match RespBody reqResp with
        | None =>
            (Some (w1, None), world2,
             [Seq.EvCall entry u; Seq.EvCall (ClientDo upstreamReq) (inl reqResp)])
        | Some body =>
            let '(cp, world3) := env _ (CopyBuffer body) world2 in
            (Some (Write w1 (fst cp), snd cp), world3,
             [Seq.EvCall entry u; Seq.EvCall (ClientDo upstreamReq) (inl reqResp);
              Seq.EvCall (CopyBuffer body) cp])
        end
    end.
Proof.
  intros Hclient Hclone entry. unfold Proxy.Do. rewrite Hclient. cbn [negb].
  unfold call. cbn [bind Seq.run]. fold entry.
  destruct (env _ entry world) as [u world1]. rewrite Hclone. cbn [bind Seq.run].
  destruct (env _ (ClientDo upstreamReq) world1) as [[reqResp | e] world2]; [| reflexivity].
  destruct (RespBody reqResp) as [body |]; [| reflexivity].
  cbn [bind Seq.run]. destruct (env _ (CopyBuffer body) world2) as [cp world3]. reflexivity.
Qed.

Lemma respondError_sent (w : ResponseWriter) (status code : Z) (sent : Header)
    (err : option error) :
  wSent w = Some (code, sent) ->
  wSent (respondError w status err) = Some (code, sent) /\
  wBody (respondError w status err) = (wBody w ++ errorBody (sanitizeError err))%string.
Proof.
  intros Hs. unfold respondError, respondJSON, Write, WriteHeader, HeaderSet.
  cbn [wSent wHeader wBody]. rewrite Hs. cbn [wSent wHeader wBody]. rewrite ?Hs.
  split; reflexivity.
Qed.

(** *** What [copyHeaders] and the deletion loop leave under a key *)

Lemma Add_all_lookup (key : string) (vv : list string) :
  forall (d : Header) (name : string),
    fold_left (fun d' v => Add d' key v) vv d !! name =
      if decide (name = CanonicalMIMEHeaderKey key)
      then match vv with
           | [] => d !! name
           | _ => Some (default [] (d !! name) ++ vv)%list
           end
      else d !! name.
Proof.
  induction vv as [| v vv IH]; intros d name.
  - cbn [fold_left]. destruct (decide _); reflexivity.
  - cbn [fold_left]. rewrite IH. unfold Add.
    destruct (decide (name = CanonicalMIMEHeaderKey key)) as [-> | Hne].
    + rewrite lookup_insert_eq. cbn [from_option id].
      destruct vv as [| v' vv']; [reflexivity |].
      rewrite <- app_assoc. reflexivity.
    + rewrite lookup_insert_ne by congruence. reflexivity.
Qed.

Lemma canonicalKeys_insert_inv (m : Header) (i : string) (x : list string) :
  m !! i = None -> canonicalKeys (<[i := x]> m) ->
  CanonicalMIMEHeaderKey i = i /\ canonicalKeys m.
Proof.
  intros Hi Hc. split.
  - apply Hc. rewrite lookup_insert_eq. eauto.
  - intros k Hk. apply Hc. destruct (decide (i = k)) as [-> | Hne].
    + rewrite Hi in Hk. destruct Hk as [? Hk]. discriminate Hk.
    + rewrite lookup_insert_ne by exact Hne. exact Hk.
Qed.

(** Copying from a map with canonical keys appends, key by key, the values
    of the source after those of the destination. *)
Lemma copyHeaders_lookup (dst src : Header) (name : string) :
  canonicalKeys src ->
  Proxy.copyHeaders dst src !! name =
    match src !! name with
    | Some (v :: vv) => Some (default [] (dst !! name) ++ v :: vv)%list
    | _ => dst !! name
    end.
Proof.
  unfold Proxy.copyHeaders. revert name.
  apply (map_fold_weak_ind
           (fun (acc : Header) (m : Header) =>
              forall name, canonicalKeys m ->
                acc !! name =
                  match m !! name with
                  | Some (v :: vv) => Some (default [] (dst !! name) ++ v :: vv)%list
                  | _ => dst !! name
                  end)).
  - intros name _. rewrite lookup_empty. reflexivity.
  - intros i x m acc Hi IH name Hc.
    destruct (canonicalKeys_insert_inv m i x Hi Hc) as [Hcanon Hm].
    rewrite Add_all_lookup, Hcanon.
    destruct (decide (name = i)) as [-> | Hne].
    + rewrite lookup_insert_eq. rewrite (IH i Hm), Hi.
      destruct x; reflexivity.
    + rewrite lookup_insert_ne by congruence. apply IH, Hm.
Qed.

Lemma fold_Del_other (l : list string) :
  forall (h : Header) (name : string),
    name ∉ CanonicalMIMEHeaderKey <$> l -> fold_left Del l h !! name = h !! name.
Proof.
  induction l as [| d l IH]; intros h name Hnot; [reflexivity |].
  cbn [fold_left]. cbn in Hnot. apply not_elem_of_cons in Hnot as [Hne Hnot].
  rewrite (IH _ _ Hnot). unfold Del. apply lookup_delete_ne. congruence.
Qed.

Lemma delHopHeaders_other (h : Header) (name : string) :
  name ∉ Proxy.hopHeaders -> Proxy.delHopHeaders h !! name = h !! name.
Proof.
  intros Hnot. apply fold_Del_other.
  assert (Hsame : CanonicalMIMEHeaderKey <$> Proxy.hopHeaders = Proxy.hopHeaders)
    by reflexivity.
  rewrite Hsame. exact Hnot.
Qed.

End Passthrough.

(** X14: a passthrough request without a usable target.  When the handler
    has no target, or has direct targets only (fewer than [2 ^ 32] of them)
    and the request path names no service, [handleProxy] answers at once
    with status 502 and the error as a JSON object: it makes no external
    call, so nothing is logged and no upstream request is sent.  On a fresh
    writer the two bodies are well-formed JSON. *)
Theorem handleProxy_without_target
    (lib : Lib) (h : Member.Handler) (w : HTTP.ResponseWriter) (r : HTTP.Request) :
  Member.targets h = [] \/
  (Z.of_nat (length (Member.targets h)) < 2 ^ 32 /\
   Forall (fun t => Upstream.Kind t = Upstream.MemberTargetDirect) (Member.targets h) /\
   Member.resolveRobloxTarget (NetURL.Path (HTTP.URL_ r)) = Fail Member.errBadPath) ->
  let e := if (length (Member.targets h) =? 0)%nat
           then Member.errNoUpstreamTarget else Member.errBadPath in
  Member.handleProxy lib h w r = Effects.Ret (Member.respondError w 502 (Some e)) /\
  (HTTP.wSent w = None -> HTTP.wBody w = EmptyString ->
   HTTP.statusOf (Member.respondError w 502 (Some e)) = Some 502 /\
   HTTP.wBody (Member.respondError w 502 (Some e)) = Member.errorBody e /\
   Json.well_formed (Member.errorBody e) = true).
Proof.
  intros Hcase e. split.
  - unfold Member.handleProxy, Member.pickTargetURL. subst e.
    destruct (Nat.eqb_spec (length (Member.targets h)) 0) as [Hz | Hnz].
    + unfold Member.chooseTarget. rewrite Hz. reflexivity.
    + destruct Hcase as [Hnil | (Hlt & Hall & Hbad)];
        [rewrite Hnil in Hnz; contradiction |].
      rewrite (chooseTarget_all_direct h _ _) by
        first [exact Hlt | exact Hall | (intros Hnil; rewrite Hnil in Hnz; apply Hnz; reflexivity)].
      rewrite Hbad. reflexivity.
  - intros Hs Hb.
    destruct (respondJSON_fresh w 502 (Member.errorBody (Member.sanitizeError (Some e))) Hs Hb)
      as [Hstatus Hbody].
    assert (Hsame : Member.sanitizeError (Some e) = e)
      by (subst e; destruct (length (Member.targets h) =? 0)%nat; reflexivity).
    unfold Member.respondError. rewrite Hsame in *.
    split; [exact Hstatus |]. split; [exact Hbody |].
    subst e. destruct (length (Member.targets h) =? 0)%nat; reflexivity.
Qed.

(** X14 on a direct target and the request [GET /]. *)
Lemma handleProxy_without_target_witness :
  let r := HTTP.mkRequest "GET" (NetURL.mkURL "" "" None "" "/" false "" "")
             ∅ ∅ None 0 [] ∅ "proxy.local" "10.0.0.1:4242" false (HTTP.RequestContext 0) in
  let h := Member.mkHandler (Member.mkConfig 60 30 5) (Proxy.mkForwarder true 5)
             [Upstream.mkMemberTarget Upstream.MemberTargetDirect None] in
  Member.handleProxy Mem.lib h HTTP.newWriter r =
    Effects.Ret (Member.respondError HTTP.newWriter 502 (Some Member.errBadPath)) /\
  HTTP.wBody (Member.respondError HTTP.newWriter 502 (Some Member.errBadPath)) =
    Member.errorBody "unable to determine Roblox upstream from path".
Proof.
  intros r h.
  destruct (handleProxy_without_target Mem.lib h HTTP.newWriter r) as [Hrun Hbody].
  - right. split; [cbn; lia |]. split; [repeat constructor | reflexivity].
  - split; [exact Hrun |]. destruct (Hbody eq_refl eq_refl) as (_ & Hb & _). exact Hb.
Defined.

(** X15: the upstream cannot be reached.  When the HTTP client returns an
    error, nothing has been written yet; [handleProxy] logs the failure and
    answers with status 502, the JSON content type and the error, its double
    quotes replaced, as a JSON object.  The client is called once. *)
Theorem handleProxy_upstream_error
    (W : Type) (env : Seq.Env W) (lib : Lib) (h : Member.Handler)
    (w : HTTP.ResponseWriter) (r : HTTP.Request) (target : NetURL.URL)
    (upstreamReq : HTTP.Request) (e : error) (world world1 world2 world3 : W) :
  let forwarding := Effects.Log Effects.LInfo "forwarding request"
                      [("method", HTTP.Method r); ("url", URLString lib (HTTP.URL_ r));
                       ("target", URLString lib target)]%string in
  let failed := Effects.Log Effects.LError "proxy request failed"
                  [("path", NetURL.Path (HTTP.URL_ r)); ("error", e)]%string in
  HTTP.wSent w = None ->
  HTTP.wBody w = EmptyString ->
  Member.pickTargetURL h r = Val target ->
  Proxy.Client (Member.forwarder h) = true ->
  Proxy.cloneRequestWithURL lib
    (HTTP.WithTimeout (HTTP.ReqContext r) (Proxy.RequestTimeout (Member.forwarder h)))
    r target = Val upstreamReq ->
  env _ forwarding world = (tt, world1) ->
  env _ (Effects.ClientDo upstreamReq) world1 = (inr e, world2) ->
  env _ failed world2 = (tt, world3) ->
  let w' := Member.respondError w 502 (Some e) in
  Seq.run env (Member.handleProxy lib h w r) world =
    (Some w', world3,
     [Seq.EvCall forwarding tt; Seq.EvCall (Effects.ClientDo upstreamReq) (inr e);
      Seq.EvCall failed tt]) /\
  HTTP.statusOf w' = Some 502 /\
  HTTP.wBody w' = Member.errorBody (Strings.ReplaceAll e Member.dquote "'") /\
  Leaves.lookupAnswer w w' [502].
Proof.
  intros forwarding failed Hs Hb Hpick Hclient Hclone Hlog Hdo Hlog2 w'.
  split; [| split; [| split]].
  - unfold Member.handleProxy. rewrite Hpick. rewrite run_bind.
    rewrite (run_Do env lib _ w r target upstreamReq world Hclient Hclone).
    cbv zeta. fold forwarding. rewrite Hlog, Hdo. cbn [snd fst].
    unfold Effects.call. cbn [Effects.bind Seq.run]. fold failed. rewrite Hlog2.
    reflexivity.
  - apply respondJSON_fresh; assumption.
  - apply respondJSON_fresh; assumption.
  - apply respondJSON_answer; [exact Hs | repeat constructor | discriminate].
Qed.

(** X15 on the in-memory world, whose HTTP client refuses the connection. *)
Lemma handleProxy_upstream_error_witness :
  let r := HTTP.mkRequest "GET" (NetURL.mkURL "" "" None "" "/users/v1/users/5" false "" "")
             ∅ ∅ None 0 [] ∅ "proxy.local" "10.0.0.1:4242" false (HTTP.RequestContext 0) in
  let h := Member.mkHandler (Member.mkConfig 60 30 5) (Proxy.mkForwarder true 5)
             [Upstream.mkMemberTarget Upstream.MemberTargetDirect None] in
  let world := Mem.mkWorld ∅ 0 [] None None (inr "dial tcp: connection refused") in
  exists w',
    fst (fst (Seq.run Mem.env (Member.handleProxy Mem.lib h HTTP.newWriter r) world))
      = Some w' /\
    HTTP.statusOf w' = Some 502 /\
    HTTP.wBody w' = Member.errorBody "dial tcp: connection refused".
Proof.
  intros r h world. eexists.
  edestruct (handleProxy_upstream_error Mem.World Mem.env Mem.lib h HTTP.newWriter r)
    with (world := world) as (Hrun & Hstatus & Hbody & _);
    [reflexivity | reflexivity | reflexivity | reflexivity | reflexivity
    | reflexivity | reflexivity | reflexivity |].
  rewrite Hrun. cbn [fst]. split; [reflexivity |]. split; [exact Hstatus | exact Hbody].
Defined.

(** X16: the copy of the upstream body breaks off.  When [io.CopyBuffer]
    fails after the status line has gone out, [handleProxy] still calls
    [respondError]; the status sent stays the upstream's (502 is not sent),
    the headers sent are the relayed ones, and the error object is appended
    to the part of the body already copied. *)
Theorem handleProxy_copy_error
    (W : Type) (env : Seq.Env W) (lib : Lib) (h : Member.Handler)
    (w : HTTP.ResponseWriter) (r : HTTP.Request) (target : NetURL.URL)
    (upstreamReq : HTTP.Request) (reqResp : HTTP.Response) (body copied : string)
    (e : error) (world world1 world2 world3 world4 : W) :
  let forwarding := Effects.Log Effects.LInfo "forwarding request"
                      [("method", HTTP.Method r); ("url", URLString lib (HTTP.URL_ r));
                       ("target", URLString lib target)]%string in
  let failed := Effects.Log Effects.LError "proxy request failed"
                  [("path", NetURL.Path (HTTP.URL_ r)); ("error", e)]%string in
  HTTP.wSent w = None ->
  Member.pickTargetURL h r = Val target ->
  Proxy.Client (Member.forwarder h) = true ->
  Proxy.cloneRequestWithURL lib
    (HTTP.WithTimeout (HTTP.ReqContext r) (Proxy.RequestTimeout (Member.forwarder h)))
    r target = Val upstreamReq ->
  env _ forwarding world = (tt, world1) ->
  env _ (Effects.ClientDo upstreamReq) world1 = (inl reqResp, world2) ->
  HTTP.RespBody reqResp = Some body ->
  env _ (Effects.CopyBuffer body) world2 = ((copied, Some e), world3) ->
  env _ failed world3 = (tt, world4) ->
  exists w',
    Seq.run env (Member.handleProxy lib h w r) world =
      (Some w', world4,
       [Seq.EvCall forwarding tt; Seq.EvCall (Effects.ClientDo upstreamReq) (inl reqResp);
        Seq.EvCall (Effects.CopyBuffer body) (copied, Some e); Seq.EvCall failed tt]) /\
    HTTP.wSent w' =
      Some (HTTP.StatusCode reqResp,
            Proxy.delHopHeaders (Proxy.copyHeaders (HTTP.wHeader w) (HTTP.RespHeader reqResp))) /\
    HTTP.wBody w' =
      (HTTP.wBody w ++ copied
         ++ Member.errorBody (Strings.ReplaceAll e Member.dquote "'"))%string.
Proof.
  intros forwarding failed Hs Hpick Hclient Hclone Hlog Hdo Hbody Hcopy Hlog2.
  exists (Member.respondError
            (HTTP.Write
               (HTTP.WriteHeader
                  (HTTP.mkWriter
                     (Proxy.delHopHeaders
                        (Proxy.copyHeaders (HTTP.wHeader w) (HTTP.RespHeader reqResp)))
                     (HTTP.wSent w) (HTTP.wBody w))
                  (HTTP.StatusCode reqResp))
               copied)
            502 (Some e)).
  split.
  - unfold Member.handleProxy. rewrite Hpick. rewrite run_bind.
    rewrite (run_Do env lib _ w r target upstreamReq world Hclient Hclone).
    cbv zeta. fold forwarding. rewrite Hlog, Hdo, Hbody, Hcopy. cbn [snd fst].
    unfold Effects.call. cbn [Effects.bind Seq.run]. fold failed. rewrite Hlog2.
    reflexivity.
  - match goal with
    | |- HTTP.wSent (Member.respondError ?w1 _ _) = _ /\ _ =>
        destruct (respondError_sent w1 502 (HTTP.StatusCode reqResp)
                    (Proxy.delHopHeaders
                       (Proxy.copyHeaders (HTTP.wHeader w) (HTTP.RespHeader reqResp)))
                    (Some e)) as [Hsent Hb]
    end.
    + unfold HTTP.Write, HTTP.WriteHeader. cbn [HTTP.wSent HTTP.wHeader HTTP.wBody].
      rewrite Hs. reflexivity.
    + split; [exact Hsent |]. rewrite Hb.
      unfold HTTP.Write, HTTP.WriteHeader. cbn [HTTP.wSent HTTP.wHeader HTTP.wBody].
      rewrite Hs. cbn [HTTP.wSent HTTP.wHeader HTTP.wBody fst].
      rewrite append_assoc. reflexivity.
Qed.

(** X16 on an upstream answer of status 200 whose body breaks off after two
    bytes. *)
Lemma handleProxy_copy_error_witness :
  let r := HTTP.mkRequest "GET" (NetURL.mkURL "" "" None "" "/users/v1/users/5" false "" "")
             ∅ ∅ None 0 [] ∅ "proxy.local" "10.0.0.1:4242" false (HTTP.RequestContext 0) in
  let h := Member.mkHandler (Member.mkConfig 60 30 5) (Proxy.mkForwarder true 5)
             [Upstream.mkMemberTarget Upstream.MemberTargetDirect None] in
  let reqResp := HTTP.mkResponse "200 OK" 200 {["Content-Type" := ["text/plain"%string]]}
                   (Some "hello") in
  let world := Mem.mkWorld ∅ 0 [] None None (inl reqResp) in
  exists w',
    fst (fst (Seq.run (Broken.env "he" "unexpected EOF")
                (Member.handleProxy Mem.lib h HTTP.newWriter r) world)) = Some w' /\
    HTTP.statusOf w' = Some 200 /\
    HTTP.wBody w' = ("he" ++ Member.errorBody "unexpected EOF")%string.
Proof.
  intros r h reqResp world.
  edestruct (handleProxy_copy_error Mem.World (Broken.env "he" "unexpected EOF") Mem.lib h
               HTTP.newWriter r)
    with (world := world) (e := "unexpected EOF"%string) as (w' & Hrun & Hsent & Hbody);
    [reflexivity | reflexivity | reflexivity | reflexivity | reflexivity
    | reflexivity | reflexivity | reflexivity | reflexivity |].
  exists w'. rewrite Hrun. cbn [fst]. split; [reflexivity |].
  split; [unfold HTTP.statusOf; rewrite Hsent; reflexivity | exact Hbody].
Defined.

(** X17: what is relayed of an upstream answer.  When the upstream answers
    and its body is copied in full, [handleProxy] sends the upstream's
    status code and appends the copied bytes to the body.  Under every name
    outside the hop-by-hop list the headers sent hold the values the writer
    had, followed by the upstream's values in their order; a name the
    upstream lists with no value adds nothing. *)
Theorem handleProxy_relays
    (W : Type) (env : Seq.Env W) (lib : Lib) (h : Member.Handler)
    (w : HTTP.ResponseWriter) (r : HTTP.Request) (target : NetURL.URL)
    (upstreamReq : HTTP.Request) (reqResp : HTTP.Response) (body copied : string)
    (world world1 world2 world3 : W) :
  let forwarding := Effects.Log Effects.LInfo "forwarding request"
                      [("method", HTTP.Method r); ("url", URLString lib (HTTP.URL_ r));
                       ("target", URLString lib target)]%string in
  HTTP.wSent w = None ->
  HTTP.canonicalKeys (HTTP.RespHeader reqResp) ->
  Member.pickTargetURL h r = Val target ->
  Proxy.Client (Member.forwarder h) = true ->
  Proxy.cloneRequestWithURL lib
    (HTTP.WithTimeout (HTTP.ReqContext r) (Proxy.RequestTimeout (Member.forwarder h)))
    r target = Val upstreamReq ->
  env _ forwarding world = (tt, world1) ->
  env _ (Effects.ClientDo upstreamReq) world1 = (inl reqResp, world2) ->
  HTTP.RespBody reqResp = Some body ->
  env _ (Effects.CopyBuffer body) world2 = ((copied, None), world3) ->
  exists w' sent,
    Seq.run env (Member.handleProxy lib h w r) world =
      (Some w', world3,
       [Seq.EvCall forwarding tt; Seq.EvCall (Effects.ClientDo upstreamReq) (inl reqResp);
        Seq.EvCall (Effects.CopyBuffer body) (copied, None)]) /\
    HTTP.wSent w' = Some (HTTP.StatusCode reqResp, sent) /\
    HTTP.wBody w' = (HTTP.wBody w ++ copied)%string /\
    forall name,
      name ∉ Proxy.hopHeaders ->
      sent !! name =
        match HTTP.RespHeader reqResp !! name with
        | Some (v :: vv) => Some (default [] (HTTP.wHeader w !! name) ++ v :: vv)%list
        | _ => HTTP.wHeader w !! name
        end.
Proof.
  intros forwarding Hs Hcanon Hpick Hclient Hclone Hlog Hdo Hbody Hcopy.
  eexists. eexists. split; [| split; [| split]].
  - unfold Member.handleProxy. rewrite Hpick. rewrite run_bind.
    rewrite (run_Do env lib _ w r target upstreamReq world Hclient Hclone).
    cbv zeta. fold forwarding. rewrite Hlog, Hdo, Hbody, Hcopy. cbn [snd fst].
    cbn [Seq.run]. reflexivity.
  - unfold HTTP.Write, HTTP.WriteHeader. cbn [HTTP.wSent HTTP.wHeader HTTP.wBody].
    rewrite Hs. reflexivity.
  - unfold HTTP.Write, HTTP.WriteHeader. cbn [HTTP.wSent HTTP.wHeader HTTP.wBody].
    rewrite Hs. reflexivity.
  - intros name Hname. rewrite delHopHeaders_other by exact Hname.
    apply copyHeaders_lookup, Hcanon.
Qed.

(** X17 on an upstream answer with a content type and a cookie. *)
Lemma handleProxy_relays_witness :
  let r := HTTP.mkRequest "GET" (NetURL.mkURL "" "" None "" "/users/v1/users/5" false "" "")
             ∅ ∅ None 0 [] ∅ "proxy.local" "10.0.0.1:4242" false (HTTP.RequestContext 0) in
  let h := Member.mkHandler (Member.mkConfig 60 30 5) (Proxy.mkForwarder true 5)
             [Upstream.mkMemberTarget Upstream.MemberTargetDirect None] in
  let reqResp := HTTP.mkResponse "404 Not Found" 404
                   {["Content-Type" := ["text/plain"%string];
                     "Set-Cookie" := ["a=1"; "b=2"]%string;
                     "Connection" := ["close"%string]]}
                   (Some "not found") in
  let world := Mem.mkWorld ∅ 0 [] None None (inl reqResp) in
  exists w' sent,
    fst (fst (Seq.run Mem.env (Member.handleProxy Mem.lib h HTTP.newWriter r) world))
      = Some w' /\
    HTTP.wSent w' = Some (404, sent) /\
    HTTP.wBody w' = "not found"%string /\
    sent !! "Set-Cookie"%string = Some ["a=1"; "b=2"]%string.
Proof.
  intros r h reqResp world.
  edestruct (handleProxy_relays Mem.World Mem.env Mem.lib h HTTP.newWriter r)
    with (world := world) (reqResp := reqResp)
    as (w' & sent & Hrun & Hsent & Hbody & Hrelay);
    [reflexivity | | reflexivity | reflexivity | reflexivity | reflexivity
    | reflexivity | reflexivity | reflexivity |].
  - intros k [vv Hk]. subst reqResp. cbn [HTTP.RespHeader] in Hk.
    destruct (decide (k = "Content-Type"%string)) as [-> | H1]; [reflexivity |].
    destruct (decide (k = "Set-Cookie"%string)) as [-> | H2]; [reflexivity |].
    destruct (decide (k = "Connection"%string)) as [-> | H3]; [reflexivity |].
    rewrite !lookup_insert_ne in Hk by congruence.
    rewrite lookup_singleton_ne in Hk by congruence. discriminate Hk.
  - exists w', sent. rewrite Hrun. cbn [fst]. split; [reflexivity |].
    split; [exact Hsent |]. split; [exact Hbody |].
    rewrite (Hrelay "Set-Cookie"%string).
    + reflexivity.
    + unfold Proxy.hopHeaders. intros Hin.
      repeat (apply elem_of_cons in Hin as [Heq | Hin]; [discriminate Heq |]).
      apply elem_of_nil in Hin. exact Hin.
Defined.

(** ** The outbound request *)

(** X18: the three forwarding headers.  [setForwardedHeaders] always sets
    [X-Forwarded-Host] to the inbound [Host].  When the client address is
    not empty it sets [X-Forwarded-For] to one value: the client address,
    preceded by the first value the header had and a comma when that value
    is not empty; further values the header had are dropped.  It sets
    [X-Forwarded-Proto] only when the inbound request carries none: to
    [https] on a TLS connection, else to the scheme of the request URL, else
    to [http]; otherwise the header is left as it is. *)
Theorem setForwardedHeaders_values (lib : Lib) (header : HTTP.Header) (r : HTTP.Request) :
  let clientIP :=
    match SplitHostPort lib (HTTP.RemoteAddr r) with
    | Some (host, _) => host
    | None => HTTP.RemoteAddr r
    end in
  let prior := HTTP.Get header "X-Forwarded-For" in
  let out := Proxy.setForwardedHeaders lib header r in
  out !! "X-Forwarded-Host"%string = Some [HTTP.ReqHost r] /\
  out !! "X-Forwarded-For"%string =
    (if Strings.is_empty clientIP then header !! "X-Forwarded-For"%string
     else Some [if Strings.is_empty prior then clientIP
                else (prior ++ ", " ++ clientIP)%string]) /\
  out !! "X-Forwarded-Proto"%string =
    (if Strings.is_empty (HTTP.Get (HTTP.ReqHeader r) "X-Forwarded-Proto")
     then Some [if HTTP.TLS r then "https"%string
                else if Strings.is_empty (NetURL.Scheme (HTTP.URL_ r)) then "http"%string
                     else NetURL.Scheme (HTTP.URL_ r)]
     else header !! "X-Forwarded-Proto"%string).
Proof.
  intros clientIP prior out. subst out. unfold Proxy.setForwardedHeaders.
  fold clientIP. fold prior. split; [| split].
  - apply Set_lookup_same. reflexivity.
  - rewrite Set_lookup_other by discriminate.
    destruct (Strings.is_empty (HTTP.Get (HTTP.ReqHeader r) "X-Forwarded-Proto"));
      [rewrite Set_lookup_other by discriminate |];
      destruct (Strings.is_empty clientIP); cbn [negb]; try reflexivity;
      destruct (Strings.is_empty prior); apply Set_lookup_same; reflexivity.
  - rewrite Set_lookup_other by discriminate.
    destruct (Strings.is_empty (HTTP.Get (HTTP.ReqHeader r) "X-Forwarded-Proto")) eqn:Hproto.
    + rewrite Set_lookup_same by reflexivity. unfold Proxy.schemeFromRequest.
      rewrite Hproto. cbn [negb].
      destruct (HTTP.TLS r); [reflexivity |].
      destruct (Strings.is_empty (NetURL.Scheme (HTTP.URL_ r))); reflexivity.
    + destruct (Strings.is_empty clientIP); cbn [negb]; [reflexivity |].
      destruct (Strings.is_empty prior); rewrite Set_lookup_other by discriminate;
        reflexivity.
Qed.

Section OutboundRequest.
Import Strings NetURL HTTP Proxy.

Lemma setForwardedHeaders_other (lib : Lib) (header : Header) (r : Request) (name : string) :
  name ∉ ["X-Forwarded-For"; "X-Forwarded-Proto"; "X-Forwarded-Host"]%string ->
  setForwardedHeaders lib header r !! name = header !! name.
Proof.
  intros Hname.
  assert (H1 : "X-Forwarded-For"%string <> name)
    by (intros <-; apply Hname; repeat constructor).
  assert (H2 : "X-Forwarded-Proto"%string <> name)
    by (intros <-; apply Hname; repeat constructor).
  assert (H3 : "X-Forwarded-Host"%string <> name)
    by (intros <-; apply Hname; repeat constructor).
  unfold setForwardedHeaders.
  rewrite Set_lookup_other by exact H3.
  destruct (is_empty (Get (ReqHeader r) "X-Forwarded-Proto"));
    [rewrite Set_lookup_other by exact H2 |];
    destruct (negb (is_empty _)); try reflexivity;
    destruct (is_empty (Get header "X-Forwarded-For"));
    rewrite Set_lookup_other by exact H1; reflexivity.
Qed.

End OutboundRequest.

(** X19: what the outbound request carries over.  The request built by
    [cloneRequestWithURL] has the target's host as [Host], and the content
    length, the transfer encodings and the trailer of the inbound request.
    Under every header name outside the hop-by-hop list and the three
    forwarding headers it holds the values of the inbound request (whose
    keys are canonical), in their order, after any value the request
    constructor had put there; a name listed with no value adds nothing. *)
Theorem cloneRequestWithURL_carries
    (lib : Lib) (ctx : HTTP.Ctx) (r : HTTP.Request) (target : NetURL.URL)
    (upstreamReq : HTTP.Request) :
  Proxy.cloneRequestWithURL lib ctx r target = Val upstreamReq ->
  HTTP.canonicalKeys (HTTP.ReqHeader r) ->
  exists fresh,
    NewRequestWithContext lib ctx (HTTP.Method r) target (HTTP.ReqBody r) = Val fresh /\
    HTTP.ReqHost upstreamReq = NetURL.Host target /\
    HTTP.ContentLength upstreamReq = HTTP.ContentLength r /\
    HTTP.TransferEncoding upstreamReq = HTTP.TransferEncoding r /\
    HTTP.Trailer upstreamReq = HTTP.Trailer r /\
    forall name,
      name ∉ Proxy.hopHeaders ->
      name ∉ ["X-Forwarded-For"; "X-Forwarded-Proto"; "X-Forwarded-Host"]%string ->
      HTTP.ReqHeader upstreamReq !! name =
        match HTTP.ReqHeader r !! name with
        | Some (v :: vv) => Some (default [] (HTTP.ReqHeader fresh !! name) ++ v :: vv)%list
        | _ => HTTP.ReqHeader fresh !! name
        end.
Proof.
  intros Hclone Hcanon.
  destruct (cloneRequestWithURL_header lib ctx r target upstreamReq Hclone)
    as [fresh [Hnew Hheader]].
  exists fresh. split; [exact Hnew |].
  unfold Proxy.cloneRequestWithURL in Hclone. rewrite Hnew in Hclone.
  injection Hclone as <-. cbn [HTTP.ReqHost HTTP.ContentLength HTTP.TransferEncoding
                                 HTTP.Trailer HTTP.ReqHeader].
  split; [reflexivity |]. split; [reflexivity |]. split; [reflexivity |]. split.
  - unfold Proxy.cloneHeader. destruct (decide (HTTP.Trailer r = ∅)) as [-> | _]; reflexivity.
  - intros name Hhop Hfwd.
    rewrite setForwardedHeaders_other by exact Hfwd.
    rewrite delHopHeaders_other by exact Hhop.
    apply copyHeaders_lookup, Hcanon.
Qed.

(** X19 on a request that carries [Accept] and [Connection]. *)
Lemma cloneRequestWithURL_carries_witness :
  let target := NetURL.mkURL "http" "" None "cluster-a" "/users/v1/users/5" false "" "" in
  let r := HTTP.mkRequest "GET" (NetURL.mkURL "" "" None "" "/users/v1/users/5" false "" "")
             ∅ {["Accept" := ["text/html"; "*/*"]%string; "Connection" := ["close"%string]]}
             None 0 [] ∅ "proxy.local" "10.0.0.1:4242" false (HTTP.RequestContext 0) in
  exists upstreamReq,
    Proxy.cloneRequestWithURL Mem.lib (HTTP.RequestContext 0) r target = Val upstreamReq /\
    HTTP.ReqHost upstreamReq = "cluster-a"%string /\
    HTTP.ReqHeader upstreamReq !! "Accept"%string = Some ["text/html"; "*/*"]%string.
Proof.
  intros target r. eexists. split; [reflexivity |].
  edestruct (cloneRequestWithURL_carries Mem.lib (HTTP.RequestContext 0) r target)
    as (fresh & Hnew & Hhost & _ & _ & _ & Hcarry); [reflexivity | |].
  - intros k [vv Hk]. subst r. cbn [HTTP.ReqHeader] in Hk.
    destruct (decide (k = "Accept"%string)) as [-> | H1]; [reflexivity |].
    destruct (decide (k = "Connection"%string)) as [-> | H2]; [reflexivity |].
    rewrite lookup_insert_ne in Hk by congruence.
    rewrite lookup_singleton_ne in Hk by congruence. discriminate Hk.
  - split; [exact Hhost |]. injection Hnew as <-.
    rewrite (Hcarry "Accept"%string).
    + reflexivity.
    + unfold Proxy.hopHeaders. intros Hin.
      repeat (apply elem_of_cons in Hin as [Heq | Hin]; [discriminate Heq |]).
      apply elem_of_nil in Hin. exact Hin.
    + intros Hin.
      repeat (apply elem_of_cons in Hin as [Heq | Hin]; [discriminate Heq |]).
      apply elem_of_nil in Hin. exact Hin.
Defined.

(** ** Cache keys and the keys of the group *)

(** X20: the three kinds of cache key never meet.  Two user keys, two
    search keys or two avatar keys are equal only for equal arguments, and
    keys of different kinds are never equal. *)
Theorem cache_keys_apart (a b : string) :
  (Member.userCacheKey a = Member.userCacheKey b -> a = b) /\
  (Member.searchCacheKey a = Member.searchCacheKey b -> a = b) /\
  (Member.avatarCacheKey a = Member.avatarCacheKey b -> a = b) /\
  Member.userCacheKey a <> Member.searchCacheKey b /\
  Member.userCacheKey a <> Member.avatarCacheKey b /\
  Member.searchCacheKey a <> Member.avatarCacheKey b.
Proof.
  unfold Member.userCacheKey, Member.searchCacheKey, Member.avatarCacheKey.
  repeat split; intros H; vm_compute in H; congruence.
Qed.

Section RefreshKeys.
Import HTTP Effects Member Conc.
Context {W : Type} (env : Seq.Env W).

Lemma wake_waiter (key : string) (res : Result) (k : Result -> Prog Result) :
  wake key res (Caller (SWait key k)) = Caller (SRun (k res)).
Proof.
  cbn [wake wake_state]. destruct (decide (key = key)) as [_ | Hne]; [reflexivity |].
  contradiction.
Qed.

End RefreshKeys.

(** X21: the group key of a refresh is the cache key of another search.  A
    background refresh of the search [q] enters the group under the search's
    cache key followed by [":refresh"], which is also the cache key of the
    search for [q ++ ":refresh"].  So when a request for the latter misses
    in the cache while the refresh of [q] is in flight, it joins that call:
    it is answered with the payload fetched for [q], and its own fetch
    closure is never invoked. *)
Theorem refresh_flight_answers_other_search
    (W : Type) (env : Seq.Env W) (h : Member.Handler) (ctx : HTTP.Ctx)
    (q payload : string) (w w1 w2 : W) :
  let key := Member.searchCacheKey q in
  let late := (q ++ ":refresh")%string in
  let background := HTTP.WithTimeout HTTP.Background
                      (Member.RequestTimeout (Member.cfg h)) in
  let fetched := Effects.Fetch (Effects.fetchSearchPayload q) background in
  let stored := Effects.CacheSet
                  (HTTP.WithTimeout HTTP.Background (2 * Member.second))
                  key payload (Member.CacheTTL (Member.cfg h)) in
  env _ fetched w = ((payload, None), w1) ->
  env _ stored w1 = (None, w2) ->
  let refresh := Conc.Task (Conc.SRun
                   (Member.refreshTask h key (Effects.fetchSearchPayload q))) in
  let caller := Conc.Caller (Conc.SRun
                  (Member.coalescedFetch h ctx (Member.searchCacheKey late)
                     (Effects.fetchSearchPayload late))) in
  let σ := Conc.exec env [0; 1; 0; 0; 0]%nat (Conc.mkPool [refresh; caller] w ∅ []) in
  Seq.flightKey (Member.refreshTask h key (Effects.fetchSearchPayload q)) =
    Some (Member.searchCacheKey late) /\
  Conc.threads σ !! 1%nat = Some (Conc.Caller (Conc.SRun (Effects.Ret (payload, None)))) /\
  List.filter (fun e => Seq.is_fetch (snd e)) (Conc.log σ) =
    [(0%nat, Seq.EvCall fetched (payload, None))] /\
  Conc.world σ = w2.
Proof.
  intros key late background fetched stored Hfetch Hset refresh caller σ.
  split; [reflexivity |].
  set (K := (key ++ ":refresh")%string).
  set (done := fun res : Effects.Result =>
         match snd res with
         | Some err =>
             Effects.call (Effects.Log Effects.LDebug "background refresh failed"
                             [("key"%string, key); ("error"%string, err)])
         | None => Effects.Ret tt
         end).
  set (closure := Member.fetchAndStore h background key (Effects.fetchSearchPayload q)
                    "refresh cache store failed").
  set (storing := Effects.bind (Member.storeWithTTL h key payload)
         (fun serr =>
            match serr with
            | Some err =>
                Effects.bind
                  (Effects.call (Effects.Log Effects.LWarn "refresh cache store failed"
                                   [("key"%string, key); ("error"%string, err)]))
                  (fun _ => Effects.Ret ((payload, None) : Effects.Result))
            | None => Effects.Ret ((payload, None) : Effects.Result)
            end)).
  set (waiter := Conc.Caller (Conc.SWait K Member.afterFlight)).
  set (flight := (0%nat, Seq.EvFlight K)).
  set (σ0 := Conc.mkPool [refresh; caller] w ∅ []).
  set (σ1 := Conc.mkPool [Conc.Task (Conc.SLead K closure done); caller] w
               ({[K]} ∪ ∅) [flight]).
  set (σ2 := Conc.mkPool [Conc.Task (Conc.SLead K closure done); waiter] w
               ({[K]} ∪ ∅) [flight]).
  set (σ3 := Conc.mkPool [Conc.Task (Conc.SLead K storing done); waiter] w1
               ({[K]} ∪ ∅) [flight; (0%nat, Seq.EvCall fetched (payload, None))]).
  set (σ4 := Conc.mkPool [Conc.Task (Conc.SLead K (Effects.Ret (payload, None)) done); waiter]
               w2 ({[K]} ∪ ∅)
               [flight; (0%nat, Seq.EvCall fetched (payload, None));
                (0%nat, Seq.EvCall stored None)]).
  assert (H1 : Conc.step env 0 σ0 = σ1).
  { exact (step_enter_lead env 0 σ0 refresh (Conc.Task (Conc.SLead K closure done))
             (Conc.Task (Conc.SWait K done)) K eq_refl eq_refl (not_elem_of_empty K)). }
  assert (H2 : Conc.step env 1 σ1 = σ2).
  { refine (step_enter_wait env 1 σ1 caller
              (Conc.Caller (Conc.SLead K
                 (Member.fetchAndStore h ctx (Member.searchCacheKey late)
                    (Effects.fetchSearchPayload late) "cache store failed")
                 Member.afterFlight))
              waiter K eq_refl eq_refl _).
    unfold σ1. cbn [Conc.inflight].
    apply elem_of_union_l, elem_of_singleton. reflexivity. }
  assert (H3 : Conc.step env 0 σ2 = σ3).
  { refine (step_local env 0 σ2 (Conc.Task (Conc.SLead K closure done))
              (Conc.Task (Conc.SLead K storing done)) w1
              (Seq.EvCall fetched (payload, None)) eq_refl _).
    unfold closure, Member.fetchAndStore, Effects.call.
    cbn [Effects.bind Conc.thread_action Conc.action Conc.world σ2]. fold fetched.
    rewrite Hfetch. reflexivity. }
  assert (H4 : Conc.step env 0 σ3 = σ4).
  { refine (step_local env 0 σ3 (Conc.Task (Conc.SLead K storing done))
              (Conc.Task (Conc.SLead K (Effects.Ret (payload, None)) done)) w2
              (Seq.EvCall stored None) eq_refl _).
    unfold storing, Member.storeWithTTL, Effects.call.
    cbn [Effects.bind Conc.thread_action Conc.action Conc.world σ3]. fold stored.
    rewrite Hset. reflexivity. }
  assert (H5 : Conc.step env 0 σ4 =
                 Conc.mkPool
                   [Conc.Task (Conc.SRun (Effects.Ret tt));
                    Conc.wake K (payload, None) waiter]
                   w2 (({[K]} ∪ ∅) ∖ {[K]}) (Conc.log σ4)).
  { exact (step_done env 0 σ4 (Conc.Task (Conc.SLead K (Effects.Ret (payload, None)) done))
             (Conc.Task (Conc.SRun (Effects.Ret tt))) K (payload, None) eq_refl eq_refl). }
  subst σ. fold σ0. rewrite !exec_cons, H1, H2, H3, H4, H5.
  cbn [Conc.exec fold_left Conc.threads Conc.world Conc.log].
  split; [| split; reflexivity].
  unfold waiter. rewrite wake_waiter. reflexivity.
Qed.

(** X21 on the in-memory world: the search for [abc:refresh] is answered
    with what was fetched for [abc]. *)
Lemma refresh_flight_answers_other_search_witness :
  let h := Member.mkHandler (Member.mkConfig 60 30 5) (Proxy.mkForwarder true 5) [] in
  let w := Mem.empty [("[1]"%string, None)] in
  let refresh := Conc.Task (Conc.SRun
                   (Member.refreshTask h "roblox:search:abc"
                      (Effects.fetchSearchPayload "abc"))) in
  let caller := Conc.Caller (Conc.SRun
                  (Member.coalescedFetch h (HTTP.RequestContext 1)
                     "roblox:search:abc:refresh"
                     (Effects.fetchSearchPayload "abc:refresh"))) in
  Conc.threads (Conc.exec Mem.env [0; 1; 0; 0; 0]%nat (Conc.mkPool [refresh; caller] w ∅ []))
    !! 1%nat = Some (Conc.Caller (Conc.SRun (Effects.Ret ("[1]"%string, None)))).
Proof.
  intros h w refresh caller.
  exact (proj1 (proj2 (refresh_flight_answers_other_search Mem.World Mem.env h
                         (HTTP.RequestContext 1) "abc" "[1]" w _ _ eq_refl eq_refl))).
Defined.

(** ** The store write *)

(** X22: a miss that is fetched.  On a miss, when the fetch closure returns
    a payload, [readThroughCache] writes it to the store once, under the
    key, with the configured TTL and under a context of its own (the
    background context with a two-second timeout, not the caller's), and
    returns the payload.  A failure of that write is logged as a warning
    and is not returned: the caller gets the payload all the same. *)
Theorem readThroughCache_miss_stores
    (W : Type) (env : Seq.Env W) (h : Member.Handler) (ctx : HTTP.Ctx)
    (key : string) (fetch : Effects.FetchFn) (entry : Effects.Entry) (payload : string)
    (serr : option error) (w w1 w2 w3 : W) :
  let stored := Effects.CacheSet (HTTP.WithTimeout HTTP.Background (2 * Member.second))
                  key payload (Member.CacheTTL (Member.cfg h)) in
  let warned := fun e => Effects.Log Effects.LWarn "cache store failed"
                           [("key", key); ("error", e)]%string in
  env _ (Effects.CacheGet ctx key) w = ((entry, false, None), w1) ->
  env _ (Effects.Fetch fetch ctx) w1 = ((payload, None), w2) ->
  env _ stored w2 = (serr, w3) ->
  Seq.run env (Member.readThroughCache h ctx key fetch) w =
    (Some (payload, None),
     match serr with
     | Some e => snd (env _ (warned e) w3)
     | None => w3
     end,
     [Seq.EvCall (Effects.CacheGet ctx key) (entry, false, None);
      Seq.EvFlight key;
      Seq.EvCall (Effects.Fetch fetch ctx) (payload, None);
      Seq.EvCall stored serr]
     ++ match serr with
        | Some e => [Seq.EvCall (warned e) tt]
        | None => []
        end)%list.
Proof.
  intros stored warned Hget Hfetch Hset.
  unfold Member.readThroughCache, Member.coalescedFetch, Member.fetchAndStore,
    Member.storeWithTTL, Effects.call.
  cbn [Effects.bind Seq.run]. rewrite Hget. cbn [Effects.bind Seq.run].
  rewrite Hfetch. cbn [Effects.bind Seq.run fst snd]. fold stored. rewrite Hset.
  destruct serr as [e |]; cbn [Effects.bind Seq.run]; [| reflexivity].
  unfold warned. destruct (env _ (Effects.Log _ _ _) w3) as [[] w4]. reflexivity.
Qed.

(** X22 on the in-memory world with a store that refuses the write. *)
Lemma readThroughCache_miss_stores_witness :
  let w := Mem.mkWorld ∅ 0 [("{}"%string, None)] None (Some "redis: read only"%string)
             (inr "no upstream") in
  let h := Member.mkHandler (Member.mkConfig 60 30 5) (Proxy.mkForwarder true 5) [] in
  let call := Member.readThroughCache h (HTTP.RequestContext 0) "roblox:user:1"
                (Effects.fetchUserPayload "1") in
  fst (fst (Seq.run Mem.env call w)) = Some ("{}"%string, None) /\
  List.filter Seq.is_set (snd (Seq.run Mem.env call w)) =
    [Seq.EvCall (Effects.CacheSet (HTTP.WithTimeout HTTP.Background 2000000000)
                   "roblox:user:1" "{}" 60) (Some "redis: read only"%string)].
Proof.
  intros w h call. subst call.
  rewrite (readThroughCache_miss_stores Mem.World Mem.env h (HTTP.RequestContext 0)
             "roblox:user:1" (Effects.fetchUserPayload "1") Mem.zeroEntry "{}"
             (Some "redis: read only"%string) w w
             (Mem.mkWorld ∅ 0 [] None (Some "redis: read only"%string) (inr "no upstream"))
             (Mem.mkWorld ∅ 0 [] None (Some "redis: read only"%string) (inr "no upstream"))
             eq_refl eq_refl eq_refl).
  split; reflexivity.
Defined.

(** X23: a background refresh.  The goroutine started by [launchRefresh]
    enters the group under the key followed by [":refresh"] and calls the
    fetch closure under a context of its own.  When the fetch fails,
    nothing is written to the store and the failure is logged at debug
    level only.  When it succeeds, the payload is written once, under the
    key itself and with the configured TTL; a failure of that write is
    logged as a warning.  In every case the goroutine ends without a
    panic. *)
Theorem refreshTask_run
    (W : Type) (env : Seq.Env W) (h : Member.Handler) (key : string)
    (fetch : Effects.FetchFn) (payload : string) (ferr serr : option error)
    (w w1 w2 : W) :
  let background := HTTP.WithTimeout HTTP.Background
                      (Member.RequestTimeout (Member.cfg h)) in
  let fetched := Effects.Fetch fetch background in
  let stored := Effects.CacheSet (HTTP.WithTimeout HTTP.Background (2 * Member.second))
                  key payload (Member.CacheTTL (Member.cfg h)) in
  let missed := fun e => Effects.Log Effects.LDebug "background refresh failed"
                           [("key", key); ("error", e)]%string in
  let warned := fun e => Effects.Log Effects.LWarn "refresh cache store failed"
                           [("key", key); ("error", e)]%string in
  env _ fetched w = ((payload, ferr), w1) ->
  env _ stored w1 = (serr, w2) ->
  Seq.run env (Member.refreshTask h key fetch) w =
    match ferr with
    | Some e =>
        (Some tt, snd (env _ (missed e) w1),
         [Seq.EvFlight (key ++ ":refresh"); Seq.EvCall fetched (payload, Some e);
          Seq.EvCall (missed e) tt])
    | None =>
        (Some tt,
         match serr with
         | Some e => snd (env _ (warned e) w2)
         | None => w2
         end,
         [Seq.EvFlight (key ++ ":refresh"); Seq.EvCall fetched (payload, None);
          Seq.EvCall stored serr]
         ++ match serr with
            | Some e => [Seq.EvCall (warned e) tt]
            | None => []
            end)%list
    end.
Proof.
  intros background fetched stored missed warned Hfetch Hset.
  unfold Member.refreshTask, Member.fetchAndStore, Member.storeWithTTL, Effects.call.
  cbn [Effects.bind Seq.run]. fold background. fold fetched. rewrite Hfetch.
  destruct ferr as [e |]; cbn [Effects.bind Seq.run fst snd].
  - unfold missed. destruct (env _ (Effects.Log _ _ _) w1) as [[] w3]. reflexivity.
  - fold stored. rewrite Hset.
    destruct serr as [e |]; cbn [Effects.bind Seq.run fst snd]; [| reflexivity].
    unfold warned. destruct (env _ (Effects.Log _ _ _) w2) as [[] w3]. reflexivity.
Qed.

(** X23 on the in-memory world: the refresh replaces the stale entry. *)
Lemma refreshTask_run_witness :
  let w := Mem.mkWorld {["roblox:user:1" := Effects.mkEntry "old" 10]} 100
             [("new"%string, None)] None None (inr "no upstream") in
  let h := Member.mkHandler (Member.mkConfig 60 30 5) (Proxy.mkForwarder true 5) [] in
  let w' := snd (fst (Seq.run Mem.env
                        (Member.refreshTask h "roblox:user:1" (Effects.fetchUserPayload "1")) w)) in
  Mem.store w' !! "roblox:user:1"%string = Some (Effects.mkEntry "new" 100) /\
  Mem.store w' !! "roblox:user:1:refresh"%string = None.
Proof.
  intros w h w'. subst w'.
  rewrite (refreshTask_run Mem.World Mem.env h "roblox:user:1" (Effects.fetchUserPayload "1")
             "new" None None w
             (Mem.mkWorld {["roblox:user:1" := Effects.mkEntry "old" 10]} 100 [] None None
                (inr "no upstream"))
             (Mem.mkWorld (<["roblox:user:1" := Effects.mkEntry "new" 100]>
                             {["roblox:user:1" := Effects.mkEntry "old" 10]})
                100 [] None None (inr "no upstream"))
             eq_refl eq_refl).
  cbn [fst snd Mem.store]. split; vm_compute; reflexivity.
Defined.

(** ** The upstream JSON fetch *)

(** X24: the answer of [fetchJSON].  The request is a GET without body that
    carries [User-Agent: RobloxProxyCluster/1.0] and
    [Accept: application/json]; it is logged and sent once.  An answer
    whose status code is below 200 or at least 300 makes [fetchJSON] fail
    with the message [roblox request failed: ] followed by the status
    line, and the body is not decoded; otherwise the outcome is the
    decoder's. *)
Theorem fetchJSON_outcome
    (W : Type) (env : Seq.Env W) (lib : Lib)
    (Encode : gmap string (list string) -> string) (Decode : string -> option error)
    (h : Member.Handler) (ctx : HTTP.Ctx) (service path : string)
    (params : option (gmap string (list string)))
    (target : NetURL.URL) (fresh : HTTP.Request) (reqResp : HTTP.Response) (body : string)
    (w w1 w2 : W) :
  let sp := MemberFetch.servicePath service path in
  let rawQuery := match params with
                  | Some values => Encode values
                  | None => EmptyString
                  end in
  let entry := Effects.Log Effects.LInfo "fetching JSON"
                 [("service", fst sp); ("path", snd sp); ("query", rawQuery);
                  ("target", URLString lib target)]%string in
  let header := HTTP.Set_ (HTTP.Set_ (HTTP.ReqHeader fresh) "User-Agent"
                             "RobloxProxyCluster/1.0") "Accept" "application/json" in
  let req := HTTP.mkRequest (HTTP.Method fresh) (HTTP.URL_ fresh) (HTTP.Query fresh) header
               (HTTP.ReqBody fresh) (HTTP.ContentLength fresh) (HTTP.TransferEncoding fresh)
               (HTTP.Trailer fresh) (HTTP.ReqHost fresh) (HTTP.RemoteAddr fresh)
               (HTTP.TLS fresh) (HTTP.ReqContext fresh) in
  Member.chooseTarget h (snd sp) rawQuery = Val target ->
  NewRequestWithContext lib ctx "GET" target None = Val fresh ->
  Proxy.Client (Member.forwarder h) = true ->
  env _ entry w = (tt, w1) ->
  env _ (Effects.ClientDo req) w1 = (inl reqResp, w2) ->
  HTTP.RespBody reqResp = Some body ->
  Seq.run env (MemberFetch.fetchJSON lib Encode Decode h ctx service path params) w =
    (Some (if (HTTP.StatusCode reqResp <? 200) || (HTTP.StatusCode reqResp >=? 300)
           then MemberFetch.Failed ("roblox request failed: " ++ HTTP.Status reqResp)
           else match Decode body with
                | Some err => MemberFetch.Failed err
                | None => MemberFetch.Decoded body
                end),
     w2, [Seq.EvCall entry tt; Seq.EvCall (Effects.ClientDo req) (inl reqResp)]) /\
  HTTP.ReqHeader req !! "User-Agent"%string = Some ["RobloxProxyCluster/1.0"%string] /\
  HTTP.ReqHeader req !! "Accept"%string = Some ["application/json"%string].
Proof.
  intros sp rawQuery entry header req Htarget Hnew Hclient Hlog Hdo Hbody.
  split; [| split].
  - unfold MemberFetch.fetchJSON. fold sp. destruct sp as [svc basePath] eqn:Hsp.
    cbn [fst snd] in *. fold rawQuery. rewrite Htarget.
    unfold Effects.call. cbn [Effects.bind Seq.run]. fold entry. rewrite Hlog, Hnew.
    rewrite Hclient. cbn [negb Effects.bind Seq.run].
    change MemberFetch.userAgent with "RobloxProxyCluster/1.0"%string.
    change Member.contentTypeJSON with "application/json"%string.
    fold header. fold req. rewrite Hdo, Hbody.
    destruct ((HTTP.StatusCode reqResp <? 200) || (HTTP.StatusCode reqResp >=? 300));
      [reflexivity |].
    destruct (Decode body); reflexivity.
  - subst req header. cbn [HTTP.ReqHeader].
    rewrite Set_lookup_other by discriminate. apply Set_lookup_same. reflexivity.
  - subst req header. cbn [HTTP.ReqHeader]. apply Set_lookup_same. reflexivity.
Qed.

(** X24 on the in-memory world, whose upstream answers 404. *)
Lemma fetchJSON_outcome_witness :
  let h := Member.mkHandler (Member.mkConfig 60 30 5) (Proxy.mkForwarder true 5)
             [Upstream.mkMemberTarget Upstream.MemberTargetDirect None] in
  let reqResp := HTTP.mkResponse "404 Not Found" 404 ∅ (Some "{}") in
  let world := Mem.mkWorld ∅ 0 [] None None (inl reqResp) in
  fst (fst (Seq.run Mem.env
              (MemberFetch.fetchJSON Mem.lib (fun _ => EmptyString) (fun _ => None) h
                 (HTTP.RequestContext 0) "users" "/v1/users/5" None) world)) =
    Some (MemberFetch.Failed "roblox request failed: 404 Not Found").
Proof.
  intros h reqResp world.
  edestruct (fetchJSON_outcome Mem.World Mem.env Mem.lib (fun _ => EmptyString)
               (fun _ => None) h (HTTP.RequestContext 0) "users" "/v1/users/5" None)
    with (w := world) (reqResp := reqResp) as (Hrun & _ & _);
    [reflexivity | reflexivity | reflexivity | reflexivity | reflexivity | reflexivity |].
  rewrite Hrun. reflexivity.
Defined.

(** ** Static targets: paths without dot segments *)

Section CleanPaths.
Import Strings NetURL.

Lemma resolveStep_clean (dst elem : string) :
  elem <> "."%string -> elem <> ".."%string ->
  resolveStep (dst, false) elem = ((dst ++ "/" ++ elem)%string, false).
Proof.
  intros H1 H2. unfold resolveStep.
  apply String.eqb_neq in H1, H2. rewrite H1, H2.
  rewrite append_assoc. reflexivity.
Qed.

Lemma fold_resolveStep_clean (elems : list string) :
  forall dst,
    elems <> [] ->
    Forall (fun e => e <> "."%string /\ e <> ".."%string) elems ->
    fold_left resolveStep elems (dst, false) = ((dst ++ "/" ++ Join elems "/")%string, false).
Proof.
  induction elems as [| e rest IH]; intros dst Hne Hclean; [congruence |].
  apply Forall_cons in Hclean as [[H1 H2] Hrest].
  cbn [fold_left]. rewrite (resolveStep_clean dst e H1 H2).
  destruct rest as [| f rest']; [reflexivity |].
  rewrite IH by (first [discriminate | exact Hrest]).
  rewrite Join_cons2, !append_assoc. reflexivity.
Qed.

Lemma last_cons_nonempty {A : Type} (x d : A) (l : list A) :
  l <> [] -> List.last (x :: l) d = List.last l d.
Proof. destruct l; [congruence | reflexivity]. Qed.

Lemma Forall_last {A : Type} (P : A -> Prop) (l : list A) (d : A) :
  l <> [] -> Forall P l -> P (List.last l d).
Proof.
  induction l as [| x l IH]; intros Hne Hall; [congruence |].
  apply Forall_cons in Hall as [Hx Hl].
  destruct l as [| y l']; [exact Hx |].
  rewrite last_cons_nonempty by discriminate. apply IH; [discriminate | exact Hl].
Qed.

(** An absolute path without dot segments resolves to itself. *)
Lemma resolvePath_clean (base p : string) :
  Forall (fun e => e <> "."%string /\ e <> ".."%string) (Split p slash) ->
  resolvePath base (String slash p) = String slash p.
Proof.
  intros Hclean. unfold resolvePath. cbn [first_byte].
  rewrite Ascii.eqb_refl. cbn [is_empty Split]. rewrite Ascii.eqb_refl.
  cbn [fold_left]. change (resolveStep (EmptyString, true) EmptyString)
    with (EmptyString, false).
  pose proof (Split_nonempty p slash) as Hne.
  rewrite (fold_resolveStep_clean (Split p slash) EmptyString Hne Hclean).
  rewrite Join_Split.
  rewrite last_cons_nonempty by exact Hne.
  destruct (Forall_last _ (Split p slash) EmptyString Hne Hclean) as [H1 H2].
  apply String.eqb_neq in H1, H2. rewrite H1, H2. reflexivity.
Qed.

End CleanPaths.

(** X25: a static target passes a path without dot segments through.  For a
    static target with base URL [base] and a request path that starts with
    a slash and has no segment [.] or [..], the URL resolved for the request
    has the base's scheme, user and host, the request path byte for byte
    (empty segments included) and the request's query; no fragment and no
    opaque part are carried over. *)
Theorem targetURL_static_clean_path
    (target : Upstream.MemberTarget) (base : NetURL.URL) (p rawQuery : string) :
  Upstream.Kind target = Upstream.MemberTargetStatic ->
  Upstream.Base target = Some base ->
  Forall (fun e => e <> "."%string /\ e <> ".."%string) (Strings.Split p Strings.slash) ->
  Member.targetURL target (String "/" p) rawQuery =
    Val (NetURL.mkURL (NetURL.Scheme base) "" (NetURL.User base) (NetURL.Host base)
           (String "/" p) false rawQuery "").
Proof.
  intros Hk Hb Hclean. unfold Member.targetURL. rewrite Hk, Hb.
  unfold NetURL.ResolveReference.
  cbn [NetURL.Scheme NetURL.Host NetURL.User NetURL.Opaque NetURL.Path NetURL.ForceQuery
       NetURL.RawQuery NetURL.Fragment Strings.is_empty negb orb andb].
  case_bool_decide as Huser; [exfalso; apply Huser; reflexivity |].
  change (String "/" p) with (String Strings.slash p).
  rewrite (resolvePath_clean (NetURL.Path base) p Hclean). reflexivity.
Qed.

(** X25 on the base [http://cluster-a/api] and the path [/users/v1/users/5]. *)
Lemma targetURL_static_clean_path_witness :
  let base := NetURL.mkURL "http" "" None "cluster-a" "/api" false "" "" in
  Member.targetURL (Upstream.mkMemberTarget Upstream.MemberTargetStatic (Some base))
    "/users/v1/users/5" "limit=10" =
    Val (NetURL.mkURL "http" "" None "cluster-a" "/users/v1/users/5" false "limit=10" "").
Proof.
  intros base.
  apply (targetURL_static_clean_path
           (Upstream.mkMemberTarget Upstream.MemberTargetStatic (Some base))
           base "users/v1/users/5" "limit=10" eq_refl eq_refl).
  repeat constructor; discriminate.
Defined.

(** ** The user lookup, end to end *)

(** X26: a user lookup served from the cache.  For a numeric [userId], when
    the store holds an entry under ["roblox:user:" ++ userId], the handler
    answers with status 200 and the stored payload, byte for byte, as the
    whole body.  The goroutine that serves the request reads the store and
    the clock and makes no other call: it does not invoke the fetch closure,
    does not enter the group and does not write to the store.  When the
    entry is not older than the refresh threshold nothing is spawned; when
    it is older, one goroutine is spawned, the background refresh of the
    key, which fetches and stores on its own and is not waited for. *)
Theorem ServeHTTP_user_cached
    (W : Type) (env : Seq.Env W) (lib : Lib) (h : Member.Handler)
    (w : HTTP.ResponseWriter) (r : HTTP.Request) (entry : Effects.Entry) (age : Z)
    (world w1 w2 : W) :
  let userID := Trim.TrimSpace (HTTP.ValuesGet (HTTP.Query r) "userId") in
  let ctx := HTTP.WithTimeout (HTTP.ReqContext r) (Member.RequestTimeout (Member.cfg h)) in
  Member.isNumeric userID = true ->
  HTTP.wSent w = None ->
  HTTP.wBody w = EmptyString ->
  env _ (Effects.CacheGet ctx (Member.userCacheKey userID)) world = ((entry, true, None), w1) ->
  env _ (Effects.Since (Effects.StoredAt entry)) w1 = (age, w2) ->
  let refresh := Member.refreshTask h (Member.userCacheKey userID)
                   (Effects.fetchUserPayload userID) in
  let spawned := if age >? Member.BackgroundRefreshAfter (Member.cfg h)
                 then [Seq.EvSpawn refresh] else [] in
  exists w' trace,
    Seq.run env (Member.ServeHTTP lib h w r) world = (Some w', w2, trace) /\
    HTTP.statusOf w' = Some 200 /\
    HTTP.wBody w' = Effects.Payload entry /\
    List.filter Seq.is_fetch trace = [] /\
    List.filter Seq.is_set trace = [] /\
    List.filter Seq.is_flight trace = [] /\
    trace =
      ([Seq.EvCall (Effects.CacheGet ctx (Member.userCacheKey userID)) (entry, true, None);
        Seq.EvCall (Effects.Since (Effects.StoredAt entry)) age] ++ spawned)%list.
Proof.
  intros userID ctx Hnum Hs Hb Hget Hsince refresh spawned.
  exists (Member.respondCachedJSON w (Effects.Payload entry)).
  unfold Member.ServeHTTP. fold userID. rewrite (isNumeric_nonempty _ Hnum). cbn [negb].
  unfold Member.handleUserLookup. rewrite Hnum. cbn [negb]. fold ctx.
  unfold Member.readThroughCache, Member.launchRefresh, Effects.call.
  cbn [Effects.bind Seq.run]. rewrite Hget. cbn [Effects.bind Seq.run]. rewrite Hsince.
  assert (Hanswer : HTTP.statusOf (Member.respondCachedJSON w (Effects.Payload entry)) = Some 200
                    /\ HTTP.wBody (Member.respondCachedJSON w (Effects.Payload entry))
                       = Effects.Payload entry).
  { unfold Member.respondCachedJSON, HTTP.Write, HTTP.WriteHeader, HTTP.HeaderSet,
      HTTP.statusOf. cbn [HTTP.wSent HTTP.wHeader HTTP.wBody]. rewrite Hs.
    cbn [HTTP.wSent HTTP.wHeader HTTP.wBody]. rewrite Hb. split; reflexivity. }
  destruct Hanswer as [Hstatus Hbody]. subst spawned.
  destruct (age >? Member.BackgroundRefreshAfter (Member.cfg h));
    cbn [Effects.bind Seq.run fst snd]; eexists;
    (split; [reflexivity |]); (split; [exact Hstatus |]); (split; [exact Hbody |]);
    repeat split; reflexivity.
Qed.

(** X26 on the request [GET /?userId=5] and a store that holds the user in
    an entry older than the threshold: the entry is served and its refresh
    is spawned. *)
Lemma ServeHTTP_user_cached_witness :
  let r := HTTP.mkRequest "GET" (NetURL.mkURL "" "" None "" "/" false "userId=5" "")
             {["userId" := [" 5 "%string]]} ∅ None 0 [] ∅ "proxy.local" "10.0.0.1:4242"
             false (HTTP.RequestContext 0) in
  let h := Member.mkHandler (Member.mkConfig 60 30 5) (Proxy.mkForwarder true 5)
             [Upstream.mkMemberTarget Upstream.MemberTargetDirect None] in
  let world := Mem.mkWorld {["roblox:user:5" := Effects.mkEntry "{}" 0]} 40 [] None None
                 (inr "no upstream") in
  exists w' trace,
    Seq.run Mem.env (Member.ServeHTTP Mem.lib h HTTP.newWriter r) world
      = (Some w', world, trace) /\
    HTTP.statusOf w' = Some 200 /\
    HTTP.wBody w' = "{}"%string /\
    List.filter Seq.is_spawn trace =
      [Seq.EvSpawn (Member.refreshTask h "roblox:user:5" (Effects.fetchUserPayload "5"))].
Proof.
  intros r h world.
  destruct (ServeHTTP_user_cached Mem.World Mem.env Mem.lib h HTTP.newWriter r
              (Effects.mkEntry "{}" 0) 40 world world world)
    as (w' & trace & Hrun & Hstatus & Hbody & _ & _ & _ & Htrace);
    [vm_compute; reflexivity | reflexivity | reflexivity
    | vm_compute; reflexivity | reflexivity |].
  exists w', trace. split; [exact Hrun |]. split; [exact Hstatus |]. split; [exact Hbody |].
  rewrite Htrace. vm_compute. reflexivity.
Defined.



(** ** The instrumented handler *)

(** X28: the role header on the lookup routes.  The handler wrapped by
    [instrumentHandler] sets [X-Proxy-Role] before the inner handler runs.
    When the inner handler is the member handler and the trimmed [userId]
    or [search] parameter is not empty, every answer, written to a writer
    on which nothing was sent, goes out with [X-Proxy-Role] holding the one
    value [role], whatever the collaborators answer; the wrapper reads the
    clock twice, logs once and raises no panic. *)
Theorem instrumentHandler_role_header
    (FormatDuration : Z -> string) (lib : Lib) (h : Member.Handler) (role : string)
    (w : HTTP.ResponseWriter) (r : HTTP.Request) :
  HTTP.wSent w = None ->
  Trim.TrimSpace (HTTP.ValuesGet (HTTP.Query r) "userId") <> EmptyString \/
  Trim.TrimSpace (HTTP.ValuesGet (HTTP.Query r) "search") <> EmptyString ->
  let answered := fun w' : HTTP.ResponseWriter =>
    exists status sent,
      HTTP.wSent w' = Some (status, sent) /\
      sent !! "X-Proxy-Role"%string = Some [role] in
  Leaves.always answered
    (App.instrumentHandler FormatDuration (Member.ServeHTTP lib h) role w r) /\
  forall (W : Type) (env : Seq.Env W) (world : W),
    exists w' world' trace,
      Seq.run env (App.instrumentHandler FormatDuration (Member.ServeHTTP lib h) role w r)
        world = (Some w', world', trace) /\
      answered w'.
Proof.
  intros Hfresh Hparam answered.
  assert (Hother : "X-Proxy-Role"%string
                     ∉ ["Content-Type"; "Access-Control-Allow-Origin"; "Cache-Control"]%string).
  { intros Hin.
    repeat (apply elem_of_cons in Hin as [Heq | Hin]; [discriminate Heq |]).
    apply elem_of_nil in Hin. exact Hin. }
  set (w1 := HTTP.HeaderSet w "X-Proxy-Role" role).
  assert (Hset : HTTP.wHeader w1 !! "X-Proxy-Role"%string = Some [role])
    by (apply Set_lookup_same; reflexivity).
  assert (Halways : Leaves.always answered
            (App.instrumentHandler FormatDuration (Member.ServeHTTP lib h) role w r)).
  { unfold App.instrumentHandler, Effects.call. cbn [Effects.bind Leaves.always].
    intros start. fold w1. apply always_bind.
    apply (always_mono _ answered).
    - intros w' Hw'. cbn [Effects.bind Leaves.always]. intros dur _. exact Hw'.
    - apply lookup_routes_always; [exact Hparam | | |].
      + intros body.
        destruct (respondJSON_keeps w1 400 body "X-Proxy-Role" Hfresh Hother)
          as [sent [Hsent Hkeep]].
        exists 400, sent. split; [exact Hsent | rewrite Hkeep; exact Hset].
      + intros e. unfold Member.respondError.
        destruct (respondJSON_keeps w1 500 (Member.errorBody (Member.sanitizeError (Some e)))
                    "X-Proxy-Role" Hfresh Hother) as [sent [Hsent Hkeep]].
        exists 500, sent. split; [exact Hsent | rewrite Hkeep; exact Hset].
      + intros payload.
        destruct (respondCachedJSON_keeps w1 payload "X-Proxy-Role" Hfresh Hother)
          as [sent [Hsent Hkeep]].
        exists 200, sent. split; [exact Hsent | rewrite Hkeep; exact Hset]. }
  split; [exact Halways |].
  intros W env world. apply run_always, Halways.
Qed.

(** X28 on the request [GET /?userId=abc], answered with status 400. *)
Lemma instrumentHandler_role_header_witness :
  let r := HTTP.mkRequest "GET" (NetURL.mkURL "" "" None "" "/" false "userId=abc" "")
             {["userId" := ["abc"%string]]} ∅ None 0 [] ∅ "proxy.local" "10.0.0.1:4242"
             false (HTTP.RequestContext 0) in
  let h := Member.mkHandler (Member.mkConfig 60 30 5) (Proxy.mkForwarder true 5)
             [Upstream.mkMemberTarget Upstream.MemberTargetDirect None] in
  exists w' world' trace status sent,
    Seq.run Mem.env
      (App.instrumentHandler (fun _ => "0s"%string) (Member.ServeHTTP Mem.lib h) "member"
         HTTP.newWriter r) (Mem.empty []) = (Some w', world', trace) /\
    HTTP.wSent w' = Some (status, sent) /\
    sent !! "X-Proxy-Role"%string = Some ["member"%string].
Proof.
  intros r h.
  assert (Hparam : Trim.TrimSpace (HTTP.ValuesGet (HTTP.Query r) "userId") <> EmptyString)
    by (vm_compute; discriminate).
  destruct (proj2 (instrumentHandler_role_header (fun _ => "0s"%string) Mem.lib h "member"
                     HTTP.newWriter r eq_refl (or_introl Hparam))
              Mem.World Mem.env (Mem.empty []))
    as (w' & world' & trace & Hrun & status & sent & Hsent & Hrole).
  exists w', world', trace, status, sent.
  split; [exact Hrun |]. split; [exact Hsent | exact Hrole].
Defined.
